(** * A shallow embedding of the DTN compute fabric (rec.dtn)

    The development follows the Python sources:
    - [rec/dtn/storage.py]   : the named-data store ([Storage]),
    - [rec/dtn/job.py]       : [Capabilities], [JobInfo],
    - [rec/dtn/messages.py]  : [BundleData] and its [dictify],
    - [rec/dtn/node.py]      : the discovery handler of [Node],
    - [rec/dtn/executor.py]  : data intake, the scheduler's pop, the WASI
                               sandbox preparation and result collection,
    - [rec/dtn/datastore.py] : the handlers of the datastore,
    - [rec/dtn/broker.py]    : the broker's announcement and registry.

    Exceptions are values of [exn]; a call either returns or raises
    ([outcome]).  Code that touches the database or the file system runs in
    the monad [io], which threads the storage state and records, in order,
    every primitive mutation it performs.  What the operating system answers
    a call is a parameter: [os_error], [resolve_error] and [io_error] give
    the exception a file operation, [Path.resolve()] and a read raise, if
    any. *)

From Stdlib Require Import Strings.Byte Strings.Ascii ZArith.
From stdpp Require Import gmap strings list fin_maps pretty.

Open Scope string_scope.
Open Scope list_scope.

(** ** Python values shared by all modules *)

Abbreviation bytes := (list byte).

#[export] Instance byte_eq_dec : EqDecision byte := Byte.byte_eq_dec.

(** Exceptions raised by the modelled code. *)
Inductive exn :=
| NameTakenError (name : string)
| NoSuchNameError (name : string)
| ValueError (msg : string)
| IndexError (msg : string)
| KeyError (key : string)
| TypeError (msg : string)
| AttributeError (msg : string)
| OSError (msg : string).

Inductive outcome (A : Type) :=
| Return (a : A)
| Raise (e : exn).
Arguments Return {A} a.
Arguments Raise {A} e.

Definition returned {A} (o : outcome A) : bool :=
  match o with Return _ => true | Raise _ => false end.

(** A [pathlib.Path]: the components of an absolute path below the root. *)
Abbreviation path := (list string).

(** Truthiness of an optional string: [None] and [""] are falsy. *)
Definition truthy (o : option string) : option string :=
  match o with
  | Some s => if decide (s = "") then None else Some s
  | None => None
  end.

(** ** rec/dtn/storage.py *)

Module Storage.

(** One document of the TinyDB table: [{"name": .., "filename": ..}]. *)
Record row := Row { row_name : string; row_filename : string }.

(** The persistent state of a [Storage]: the TinyDB table in insertion
    order and the blob directory, a map from file name to file content. *)
Record t := Make { db : list row; blob_directory : gmap string bytes }.

(** Primitive mutations, in the order the code performs them; [Failed e]
    is a call the operating system answered with an exception. *)
Inductive effect :=
| DbInsert (r : row)                         (* self._db.insert(r) *)
| DbRemove (name : string)                   (* self._db.remove(Query().name == name) *)
| BlobWrite (filename : string) (data : bytes) (* open(blob_dir / filename, "wb").write(data) *)
| CopyFile (filename : string) (destination : path) (* shutil.copyfile *)
| Mkdir (p : path)                           (* p.mkdir(parents=True, exist_ok=True) *)
| Failed (call : effect).

Definition io (A : Type) : Type := t -> outcome A * t * list effect.

Definition ret {A} (a : A) : io A := fun s => (Return a, s, []).
Definition raise {A} (e : exn) : io A := fun s => (Raise e, s, []).
Definition bind {A B} (m : io A) (k : A -> io B) : io B :=
  fun s =>
    match m s with
    | (Return a, s1, l1) =>
        match k a s1 with (r, s2, l2) => (r, s2, l1 ++ l2) end
    | (Raise e, s1, l1) => (Raise e, s1, l1)
    end.

Declare Scope io_scope.
Delimit Scope io_scope with io.

Module Notations.
Notation "'do' x <- m ; k" := (bind m (fun x => k))
  (at level 10, x name, m at level 100, k at level 200, only parsing) : io_scope.
End Notations.
Import Notations.

(** [for x in xs: body x] *)
Fixpoint for_each {A} (xs : list A) (body : A -> io unit) : io unit :=
  match xs with
  | [] => ret tt
  | x :: xs' => bind (body x) (fun _ => for_each xs' body)
  end.

(** What each primitive mutation does to the state.  [CopyFile] and
    [Mkdir] act outside the blob directory, which is all the store keeps. *)
Definition apply_effect (e : effect) (s : t) : t :=
  match e with
  | DbInsert r => Make (db s ++ [r]) (blob_directory s)
  | DbRemove n =>
      Make (filter (fun r => row_name r ≠ n) (db s)) (blob_directory s)
  | BlobWrite f d => Make (db s) (<[f := d]> (blob_directory s))
  | CopyFile _ _ => s
  | Mkdir _ => s
  | Failed _ => s
  end.

Definition replay (l : list effect) (s : t) : t :=
  foldl (fun s e => apply_effect e s) s l.

Definition perform (e : effect) : io unit :=
  fun s => (Return tt, apply_effect e s, [e]).

(** [await self._db.search(Query().name == name)] *)
Definition db_search_name (name : string) : io (list row) :=
  fun s => (Return (filter (fun r => row_name r = name) (db s)), s, []).

(** [await self._db.search(Query().name.test(f))] *)
Definition db_search_test (f : string -> bool) : io (list row) :=
  fun s => (Return (filter (fun r => f (row_name r) = true) (db s)), s, []).

(** [filepath.exists()] for a file of the blob directory. *)
Definition blob_exists (filename : string) : io bool :=
  fun s => (Return (bool_decide (is_Some (blob_directory s !! filename))), s, []).

(** [open(filepath, "rb").read()]; [None] stands for [FileNotFoundError]. *)
Definition blob_read (filename : string) : io (option bytes) :=
  fun s => (Return (blob_directory s !! filename), s, []).

Section WithDigest.

(** [sha1(data, usedforsecurity=False).hexdigest()], from [hashlib]. *)
Variable sha1_hexdigest : bytes -> string.

Local Open Scope io_scope.

Definition store_data (name : string) (data : bytes) : io unit :=
  do test <- db_search_name name;
  match test with
  | _ :: _ => raise (NameTakenError name)
  | [] =>
      let filename := sha1_hexdigest data in
      do present <- blob_exists filename;
      if (present : bool) then
        (* dedup - the file already exists *)
        perform (DbInsert (Row name filename))
      else
        do _ <- perform (BlobWrite filename data);
        perform (DbInsert (Row name filename))
  end.

End WithDigest.

Local Open Scope io_scope.

(** [_cleanup(names)]: one [remove] per listed name. *)
Definition cleanup (names : list string) : io unit :=
  for_each names (fun name => perform (DbRemove name)).

(** The body of the [for entry in entries] loop of [load_data]: the pair
    [(all_data, disappeared)] after the loop. *)
Fixpoint load_entries (entries : list row)
    (all_data : list (string * bytes)) (disappeared : list string)
  : io (list (string * bytes) * list string) :=
  match entries with
  | [] => ret (all_data, disappeared)
  | entry :: rest =>
      do r <- blob_read (row_filename entry);
      match r with
      | Some data =>
          load_entries rest (all_data ++ [(row_name entry, data)]) disappeared
      | None =>
          load_entries rest all_data (disappeared ++ [row_filename entry])
      end
  end.

Definition load_data (name : string) : io (list (string * bytes)) :=
  do entries <- db_search_test (fun s => String.prefix name s);
  do r <- load_entries entries [] [];
  let '(all_data, disappeared) := r in
  match disappeared with
  | _ :: _ => do _ <- cleanup disappeared; ret all_data
  | [] => ret all_data
  end.

(** The loop of [find_missing], over the elements of the queried set. *)
Fixpoint find_missing_loop (names : list string) (missing : gset string)
  : io (gset string) :=
  match names with
  | [] => ret missing
  | name :: rest =>
      do entries <- db_search_name name;
      match entries with
      | [] => find_missing_loop rest ({[name]} ∪ missing)
      | _ :: _ => find_missing_loop rest missing
      end
  end.

Definition find_missing (names : gset string) : io (gset string) :=
  if decide (names = ∅) then ret ∅
  else find_missing_loop (elements names) ∅.

Section WithOperatingSystem.

(** What the operating system answers an operation on a file outside the
    store: [None] when it carries the operation out, or the exception it
    raises instead ([shutil.copyfile] and [mkdir] raise [OSError]s such as
    [IsADirectoryError], [FileNotFoundError], [FileExistsError] or
    [PermissionError]).  The answer is taken to depend on the operation
    only. *)
Variable os_error : effect -> option exn.

(** A file operation that may fail. *)
Definition attempt (e : effect) : io unit :=
  fun s =>
    match os_error e with
    | Some err => (Raise err, s, [Failed e])
    | None => (Return tt, apply_effect e s, [e])
    end.

(** [source_path.exists()] in [copy_to_file]: with an empty file name
    [self._blob_directory / filename] is the blob directory itself, which
    exists. *)
Definition source_exists (filename : string) : io bool :=
  if decide (filename = "") then ret true else blob_exists filename.

(** The exception [shutil.copyfile(source_path, destination)] raises, if
    any; a source that is a directory is refused. *)
Definition copyfile_error (filename : string) (destination : path) : option exn :=
  if decide (filename = "") then Some (OSError "IsADirectoryError")
  else os_error (CopyFile filename destination).

Definition copyfile (filename : string) (destination : path) : io unit :=
  fun s =>
    match copyfile_error filename destination with
    | Some err => (Raise err, s, [Failed (CopyFile filename destination)])
    | None => (Return tt, s, [CopyFile filename destination])
    end.

Definition copy_to_file (name : string) (destination : path) : io unit :=
  do entries <- db_search_name name;
  match entries with
  | [] => raise (NoSuchNameError name)
  | entry :: _ =>
      let filename := row_filename entry in
      do present <- source_exists filename;
      do missing_filename <-
        (if (present : bool) then
           do _ <- copyfile filename destination;
           ret None
         else ret (Some filename));
      match truthy missing_filename with
      | Some missing =>
          do _ <- cleanup [missing];
          raise (NoSuchNameError name)
      | None => ret tt
      end
  end.

End WithOperatingSystem.

(** The state of a freshly created store. *)
Definition empty : t := Make [] ∅.

(** The three components of a run. *)
Definition result_of {A} (m : io A) (s : t) : outcome A := fst (fst (m s)).
Definition state_of {A} (m : io A) (s : t) : t := snd (fst (m s)).
Definition log_of {A} (m : io A) (s : t) : list effect := snd (m s).

(** The names the index holds. *)
Definition stored_names (s : t) : gset string :=
  list_to_set (map row_name (db s)).

(** The pair [(name, bytes)] a row stands for, when its blob file exists. *)
Definition entry_of (s : t) (r : row) : option (string * bytes) :=
  match blob_directory s !! row_filename r with
  | Some content => Some (row_name r, content)
  | None => None
  end.

(** The stored entries, in index order. *)
Definition stored_entries (s : t) : list (string * bytes) :=
  omap (entry_of s) (db s).

(** No index row points at a missing blob file. *)
Definition no_dangling (s : t) : Prop :=
  ∀ r, r ∈ db s → is_Some (blob_directory s !! row_filename r).

End Storage.

(** ** Paths ([pathlib]) and the string operations the executor uses *)

Definition is_slash (c : ascii) : bool := Ascii.eqb c "/"%char.

(** [s.lstrip("/")] *)
Fixpoint lstrip_slash (s : string) : string :=
  match s with
  | String c s' => if is_slash c then lstrip_slash s' else s
  | EmptyString => s
  end.

(** [s.split("/")] *)
Fixpoint split_slash (s : string) : list string :=
  match s with
  | EmptyString => [""]
  | String c s' =>
      if is_slash c then "" :: split_slash s'
      else match split_slash s' with
           | h :: t => String c h :: t
           | [] => [String c ""]
           end
  end.

(** The parts [pathlib] keeps of a relative string: empty components and
    ["."] are dropped, [".."] is kept. *)
Definition parse_parts (s : string) : list string :=
  filter (fun c => c ≠ "" ∧ c ≠ ".") (split_slash s).

(** [base / s] for a string [s] that does not start with a slash. *)
Definition path_join (base : path) (s : string) : path := base ++ parse_parts s.

(** [p.is_relative_to(other)] *)
Definition is_relative_to (p other : path) : bool := bool_decide (other `prefix_of` p).

(** [p.relative_to(other)]; [None] stands for the [ValueError] it raises. *)
Definition relative_to (p other : path) : option path :=
  if is_relative_to p other then Some (drop (length other) p) else None.

(** [p.parent] *)
Definition path_parent (p : path) : path := take (length p - 1) p.

(** [Path.resolve()] on a file system without symbolic links: [".."] steps
    to the parent, and the parent of the root is the root. *)
Definition lexical_resolve (p : path) : path :=
  foldl (fun acc c => if decide (c = "..") then path_parent acc else acc ++ [c]) [] p.


(** ** rec/dtn/messages.py *)

(** Modelled from the spec: the class [EID] of [rec/dtn/eid.py], which is
    not among the sources.  "EIDs compare and hash as strings", and the
    tests use an [EID] wherever a [str] is expected, so an endpoint
    identifier is the string it holds. *)
Abbreviation EID := string.

Module NodeType.
Definition BROKER : Z := 1.
Definition EXECUTOR : Z := 2.
Definition DATASTORE : Z := 3.
Definition CLIENT : Z := 4.
End NodeType.

Module MessageType.
Definition REPLY : Z := 1.
Definition REGISTER : Z := 2.
Definition FETCH : Z := 3.
Definition FETCH_REPLY : Z := 4.
Definition CREATE : Z := 5.
End MessageType.

Module BundleType.
Definition BROKER_ANNOUNCE : Z := 1.
Definition BROKER_REQUEST : Z := 2.
Definition BROKER_ACK : Z := 3.
Definition JOB_SUBMIT : Z := 11.
Definition JOB_RESULT : Z := 12.
Definition JOB_QUERY : Z := 13.
Definition JOB_LIST : Z := 14.
Definition NDATA_PUT : Z := 21.
Definition NDATA_GET : Z := 22.
End BundleType.

Definition DATASTORE_MULTICAST_ADDRESS : EID := "dtn://rec.store/~".

(** [named_data: str | list[str] | None] *)
Inductive named_data_t :=
| NdNone
| NdStr (name : string)
| NdList (names : list string).

(** The dataclass [BundleData]; [type] and [node_type] are [IntEnum]
    members, that is, integers. *)
Module BundleData.

Record t := Make {
  type : Z;
  source : EID;
  destination : EID;
  payload : bytes;
  success : bool;
  error : string;
  node_type : Z;
  submitter : option EID;
  named_data : named_data_t }.

(** [BundleData(type=.., source=.., destination=..)] with every other field
    at its default. *)
Definition default (type : Z) (source destination : EID) : t :=
  {| type := type; source := source; destination := destination;
     payload := []; success := true; error := ""; node_type := 0;
     submitter := None; named_data := NdNone |}.

Definition with_node_type (b : t) (nt : Z) : t :=
  {| type := type b; source := source b; destination := destination b;
     payload := payload b; success := success b; error := error b;
     node_type := nt; submitter := submitter b; named_data := named_data b |}.

End BundleData.

Module Messages.

(** Values held by the attributes of a bundle. *)
Inductive pyval :=
| PyNone
| PyBool (b : bool)
| PyInt (z : Z)
| PyStr (s : string)
| PyBytes (b : bytes)
| PyList (l : list string)
| PyRef (addr : nat).

#[export] Instance pyval_eq_dec : EqDecision pyval.
Proof. solve_decision. Defined.

(** A [dict] with string keys; an object's [__dict__] is one. *)
Abbreviation pydict := (gmap string pyval).

(** The heap: object identity to instance dictionary.  Two names for the
    same object are the same address. *)
Abbreviation heap := (gmap nat pydict).

(** Class attributes of [BundleData]: the dataclass defaults.  Attribute
    lookup falls back on them when the instance dictionary has no entry. *)
Definition BundleData_class_attr (k : string) : option pyval :=
  if decide (k = "payload") then Some (PyBytes [])
  else if decide (k = "success") then Some (PyBool true)
  else if decide (k = "error") then Some (PyStr "")
  else if decide (k = "node_type") then Some (PyInt 0)
  else if decide (k = "submitter") then Some PyNone
  else if decide (k = "named_data") then Some PyNone
  else None.

(** The instance dictionary [__init__] and [__post_init__] build. *)
Definition to_dict (b : BundleData.t) : pydict :=
  <["type" := PyInt (BundleData.type b)]>
  (<["source" := PyStr (BundleData.source b)]>
  (<["destination" := PyStr (BundleData.destination b)]>
  (<["payload" := PyBytes (BundleData.payload b)]>
  (<["success" := PyBool (BundleData.success b)]>
  (<["error" := PyStr (BundleData.error b)]>
  (<["node_type" := PyInt (BundleData.node_type b)]>
  (<["submitter" := match BundleData.submitter b with Some e => PyStr e | None => PyNone end]>
  (<["named_data" := match BundleData.named_data b with
                     | NdNone => PyNone
                     | NdStr s => PyStr s
                     | NdList l => PyList l
                     end]> ∅)))))))).

(** [self.k] on a [BundleData]: instance dictionary first, then the class. *)
Definition getattr (h : heap) (self : nat) (k : string) : option pyval :=
  match h !! self with
  | Some d =>
      match d !! k with
      | Some v => Some v
      | None => BundleData_class_attr k
      end
  | None => None
  end.

(** [a == b] on the values above; [bool] is a subclass of [int]. *)
Definition py_eq (a b : pyval) : bool :=
  match a, b with
  | PyBool x, PyInt z | PyInt z, PyBool x => Z.eqb (if x then 1 else 0) z
  | _, _ => bool_decide (a = b)
  end.

(** [del d[k]] on the dictionary at address [d]. *)
Definition delitem (d : nat) (k : string) (h : heap) : outcome unit * heap :=
  match h !! d with
  | Some o =>
      match o !! k with
      | Some _ => (Return tt, <[d := delete k o]> h)
      | None => (Raise (KeyError k), h)
      end
  | None => (Raise (TypeError "not a dict"), h)
  end.

(** [if cond(self.k): del own_dict[k]] *)
Definition del_if (cond : pyval -> bool) (self own_dict : nat) (k : string)
    (h : heap) : outcome unit * heap :=
  match getattr h self k with
  | Some v => if cond v then delitem own_dict k h else (Return tt, h)
  | None => (Raise (TypeError "no such attribute"), h)
  end.

Definition is_none (v : pyval) : bool := bool_decide (v = PyNone).

(** [BundleData.dictify]: [own_dict] is [self.__dict__] itself, so the
    address returned is [self]. *)
Definition dictify (self : nat) (h : heap) : outcome nat * heap :=
  let own_dict := self in
  match del_if (fun v => py_eq v (PyBytes [])) self own_dict "payload" h with
  | (Raise e, h1) => (Raise e, h1)
  | (Return _, h1) =>
  match del_if (fun v => py_eq v (PyInt 0)) self own_dict "node_type" h1 with
  | (Raise e, h2) => (Raise e, h2)
  | (Return _, h2) =>
  match del_if is_none self own_dict "submitter" h2 with
  | (Raise e, h3) => (Raise e, h3)
  | (Return _, h3) =>
  match del_if is_none self own_dict "named_data" h3 with
  | (Raise e, h4) => (Raise e, h4)
  | (Return _, h4) => (Return own_dict, h4)
  end end end end.

(** [Message.dictify]: [self.__dict__]. *)
Definition Message_dictify (self : nat) (h : heap) : outcome nat * heap :=
  (Return self, h).

(** The instance dictionary of [BundleCreate(type=MessageType.CREATE, bundle=b)]
    for the bundle at address [bundle]. *)
Definition BundleCreate_dict (bundle : nat) : pydict :=
  <["type" := PyInt MessageType.CREATE]> (<["bundle" := PyRef bundle]> ∅).

(** [BundleCreate.dictify]: [parent_dict | {"bundle": self.bundle.dictify()}],
    a new dictionary in which the right operand wins. *)
Definition BundleCreate_dictify (self : nat) (h : heap) : outcome nat * heap :=
  match Message_dictify self h with
  | (Raise e, h1) => (Raise e, h1)
  | (Return parent_dict, h1) =>
      match h1 !! self ≫= (fun d => d !! "bundle") with
      | Some (PyRef bundle) =>
          match dictify bundle h1 with
          | (Raise e, h2) => (Raise e, h2)
          | (Return bundle_dict, h2) =>
              match h2 !! parent_dict with
              | Some pd =>
                  let own_dict : pydict := <["bundle" := PyRef bundle_dict]> ∅ in
                  let merged := fresh (dom h2) in
                  (Return merged, <[merged := own_dict ∪ pd]> h2)
              | None => (Raise (TypeError "not a dict"), h2)
              end
          end
      | _ => (Raise (TypeError "no bundle"), h1)
      end
  end.

Section WithPackb.

(** [msgpack.packb], applied to the dictionary at an address of the heap. *)
Variable packb : heap -> nat -> bytes.

(** [serialize(message)]; [dictify] is the method of the message's class. *)
Definition serialize (dictify : nat -> heap -> outcome nat * heap)
    (message : nat) (h : heap) : outcome bytes * heap :=
  match dictify message h with
  | (Raise e, h1) => (Raise e, h1)
  | (Return data, h1) => (Return (packb h1 data), h1)
  end.

End WithPackb.

(** The optional fields [dictify] looks at, with the test it applies. *)
Definition is_default (k : string) (v : pyval) : bool :=
  if decide (k = "payload") then py_eq v (PyBytes [])
  else if decide (k = "node_type") then py_eq v (PyInt 0)
  else if decide (k = "submitter") then is_none v
  else if decide (k = "named_data") then is_none v
  else false.

End Messages.

(** ** rec/dtn/job.py *)

Record Capabilities := {
  cpu_cores : Z;
  free_cpu_capacity : Z;
  free_memory : Z;
  free_disk_space : Z }.

Definition is_capable_of (self caps : Capabilities) : bool :=
  (cpu_cores self >=? cpu_cores caps)%Z
  && (free_cpu_capacity self >=? free_cpu_capacity caps)%Z
  && (free_memory self >=? free_memory caps)%Z
  && (free_disk_space self >=? free_disk_space caps)%Z.

(** [dict] fields are kept as association lists in insertion order, the
    order in which [items()] and [values()] iterate. *)
Record JobInfo := {
  wasm_module : string;
  capabilities : Capabilities;
  argv : list string;
  env : list (string * string);
  stdin_file : option string;
  dirs : list string;
  data : list (string * string);
  stdout_file : option string;
  stderr_file : option string;
  results : list string;
  named_results : list (string * string);
  results_receiver : option EID }.

Definition required_named_data (self : JobInfo) : gset string :=
  let required_names := [wasm_module self] in
  let required_names :=
    match truthy (stdin_file self) with
    | Some n => required_names ++ [n]
    | None => required_names
    end in
  let required_names := required_names ++ map snd (data self) in
  list_to_set required_names.

(** ** rec/dtn/node.py *)

Module Node.

(** The association state of a node, with the fields the discovery handler
    reads. *)
Record t := Make {
  node_id : EID;
  node_type : Z;
  broker_pending : option EID;
  broker : option EID }.

(** A node as its constructor leaves it: [_broker_pending] is empty, and
    [_broker] is empty too unless the subclass passes one ([Client] does,
    when its context file names a broker). *)
Definition init (node_id : EID) (node_type : Z) (broker : option EID) : t :=
  Make node_id node_type None broker.

(** [Node._handle_discovery] *)
Definition handle_discovery (bundle : BundleData.t) (self : t)
  : list BundleData.t * t :=
  let responses : list BundleData.t := [] in
  if (BundleData.type bundle =? BundleType.BROKER_ANNOUNCE)%Z then
    if bool_decide (broker_pending self = None)
       && bool_decide (broker self = None) then
      let self1 := Make (node_id self) (node_type self)
                        (Some (BundleData.source bundle)) (broker self) in
      let response :=
        BundleData.with_node_type
          (BundleData.default BundleType.BROKER_REQUEST (node_id self1)
             (BundleData.source bundle))
          (node_type self1) in
      (responses ++ [response], self1)
    else (responses, self)
  else if (BundleData.type bundle =? BundleType.BROKER_ACK)%Z then
    if bool_decide (broker_pending self = Some (BundleData.source bundle)) then
      (responses,
       Make (node_id self) (node_type self) None (Some (BundleData.source bundle)))
    else (responses, self)
  else (responses, self).

(** Bundles handled one after the other; the responses are concatenated. *)
Fixpoint handle_all (bundles : list BundleData.t) (self : t)
  : list BundleData.t * t :=
  match bundles with
  | [] => ([], self)
  | b :: rest =>
      let '(out, self1) := handle_discovery b self in
      let '(outs, self2) := handle_all rest self1 in
      (out ++ outs, self2)
  end.

(** States a node reaches from its initial state by handling bundles. *)
Inductive reachable : t -> Prop :=
| reachable_init node_id node_type broker :
    reachable (init node_id node_type broker)
| reachable_step bundle self :
    reachable self -> reachable (snd (handle_discovery bundle self)).

End Node.

(** ** rec/dtn/executor.py *)

Module Executor.

(** The executor's state: the node half, its storage, the deque of pending
    jobs (head first) and the number of [notify_all] calls made on
    [_job_ready_cv] so far. *)
Record t := Make {
  node : Node.t;
  storage : Storage.t;
  pending_jobs : list JobInfo;
  notified : nat }.

Import Storage.Notations.

Definition with_storage (self : t) (st : Storage.t) : t :=
  Make (node self) st (pending_jobs self) (notified self).

Definition with_pending (self : t) (q : list JobInfo) : t :=
  Make (node self) (storage self) q (notified self).

(** [async with self._job_ready_cv: self._job_ready_cv.notify_all()] *)
Definition notify_all (self : t) : t :=
  Make (node self) (storage self) (pending_jobs self) (S (notified self)).

Local Open Scope io_scope.

Section WithEnvironment.

(** [hashlib]'s digest and the sample [Capabilities.from_system()] returns,
    taken as fixed while one call runs. *)
Variable sha1_hexdigest : bytes -> string.
Variable from_system : Capabilities.

(** [_handle_data]: a scalar [named_data] is first made a one-element
    list; iterating over [None] raises. *)
Definition handle_data (bundle : BundleData.t) (self : t) : outcome unit * t :=
  let names :=
    match BundleData.named_data bundle with
    | NdStr name => Some [name]
    | NdList names => Some names
    | NdNone => None
    end in
  match names with
  | None => (Raise (TypeError "'NoneType' object is not iterable"), self)
  | Some names =>
      match Storage.for_each names
              (fun name => Storage.store_data sha1_hexdigest name
                             (BundleData.payload bundle))
              (storage self) with
      | (Return _, st, _) => (Return tt, notify_all (with_storage self st))
      | (Raise e, st, _) => (Raise e, with_storage self st)
      end
  end.

Definition job_has_all_inputs (job : JobInfo) : Storage.io bool :=
  do missing <- Storage.find_missing (required_named_data job);
  Storage.ret (bool_decide (size missing = 0)).

Definition system_can_run (job : JobInfo) : bool :=
  let current := from_system in
  is_capable_of current (capabilities job).

(** The test [await self._job_has_all_inputs(job) and self._system_can_run(job)]. *)
Definition runnable (job : JobInfo) : Storage.io bool :=
  do has <- job_has_all_inputs job;
  if (has : bool) then Storage.ret (system_can_run job) else Storage.ret false.

(** The loop [for _ in range(n)] of [_pop_next_runnable_job];
    [popleft] on an empty deque raises [IndexError].  [examined] lists the
    jobs popped so far. *)
Fixpoint pop_loop (n : nat) (self : t) (examined : list JobInfo)
  : outcome (option JobInfo) * t * list JobInfo :=
  match n with
  | O => (Return None, self, examined)
  | S n' =>
      match pending_jobs self with
      | [] => (Raise (IndexError "pop from an empty deque"), self, examined)
      | job :: rest =>
          let self1 := with_pending self rest in
          let examined := examined ++ [job] in
          match runnable job (storage self1) with
          | (Raise e, st, _) => (Raise e, with_storage self1 st, examined)
          | (Return true, st, _) =>
              (Return (Some job), with_storage self1 st, examined)
          | (Return false, st, _) =>
              (* Not runnable yet *)
              let self2 := with_storage self1 st in
              pop_loop n' (with_pending self2 (pending_jobs self2 ++ [job]))
                examined
          end
      end
  end.

(** [_pop_next_runnable_job]: what it returns, the state it leaves and the
    jobs it took from the head of the deque, in order. *)
Definition pop_next_runnable_job (self : t)
  : outcome (option JobInfo) * t * list JobInfo :=
  pop_loop (length (pending_jobs self)) self [].

End WithEnvironment.

Section WithFileSystem.

(** [Path.resolve()], as the operating system answers it: the canonical
    path [resolve p], unless the call raises [resolve_error p] (a
    [ValueError] on an embedded null byte, an [OSError] on a loop of
    links). *)
Variable resolve : path -> path.
Variable resolve_error : path -> option exn.

(** What the operating system answers [mkdir] and [shutil.copyfile]. *)
Variable os_error : Storage.effect -> option exn.

Definition try_resolve (p : path) : outcome path :=
  match resolve_error p with
  | Some e => Raise e
  | None => Return (resolve p)
  end.

Definition resolved (p : path) : Storage.io path :=
  fun s => (try_resolve p, s, []).

Definition escape_error (what p : string) : exn :=
  ValueError (what +:+ " escapes data directory: " +:+ p).

(** [_prepare_wasi_environment] *)
Definition prepare_wasi_environment (job : JobInfo) (base_dir : path)
  : Storage.io (path * option path * path) :=
  do _ <- Storage.attempt os_error (Storage.Mkdir base_dir);
  (* Write WASM module to file *)
  do wasm_path <- resolved (base_dir ++ ["module.wasm"]);
  do _ <- Storage.copy_to_file os_error (wasm_module job) wasm_path;
  (* Prepare stdin file if provided *)
  do stdin_path <-
    match truthy (stdin_file job) with
    | Some name =>
        do stdin_path <- resolved (base_dir ++ ["stdin.bin"]);
        do _ <- Storage.copy_to_file os_error name stdin_path;
        Storage.ret (Some stdin_path)
    | None => Storage.ret None
    end;
  (* Create data directory *)
  do data_dir <- resolved (base_dir ++ ["data"]);
  do _ <- Storage.attempt os_error (Storage.Mkdir data_dir);
  (* Create specified directories *)
  do _ <- Storage.for_each (dirs job) (fun dir_path =>
    do abs_dir_path <- resolved (path_join data_dir (lstrip_slash dir_path));
    if negb (is_relative_to abs_dir_path data_dir) then
      Storage.raise (escape_error "Directory path" dir_path)
    else Storage.attempt os_error (Storage.Mkdir abs_dir_path));
  (* Write data files *)
  do _ <- Storage.for_each (data job) (fun item =>
    let '(file_path, name) := item in
    do abs_file_path <- resolved (path_join data_dir (lstrip_slash file_path));
    if negb (is_relative_to abs_file_path data_dir) then
      Storage.raise (escape_error "Data file path" file_path)
    else
      do _ <- Storage.attempt os_error (Storage.Mkdir (path_parent abs_file_path));
      Storage.copy_to_file os_error name abs_file_path);
  (* Prepare stdout parent directory if specified *)
  do _ <-
    match truthy (stdout_file job) with
    | Some f =>
        do stdout_path <- resolved (path_join data_dir (lstrip_slash f));
        if negb (is_relative_to stdout_path data_dir) then
          Storage.raise (escape_error "stdout_file path" f)
        else Storage.attempt os_error (Storage.Mkdir (path_parent stdout_path))
    | None => Storage.ret tt
    end;
  (* Prepare stderr parent directory if specified *)
  do _ <-
    match truthy (stderr_file job) with
    | Some f =>
        do stderr_path <- resolved (path_join data_dir (lstrip_slash f));
        if negb (is_relative_to stderr_path data_dir) then
          Storage.raise (escape_error "stderr_file path" f)
        else Storage.attempt os_error (Storage.Mkdir (path_parent stderr_path))
    | None => Storage.ret tt
    end;
  Storage.ret (wasm_path, stdin_path, data_dir).

(** What a path names once the module has run, as [lstat] sees it: a
    regular file, a directory, a symbolic link to [target], or something
    else. *)
Inductive fnode :=
| File (content : bytes)
| Dir
| Special
| Link (target : path).

(** The entries written to a [ZipFile]: archive name and content. *)
Abbreviation archive := (list (path * bytes)).

(** The file system after the run, the exception the operating system
    answers the opening or reading of a file with, if any, and [zipfile]'s
    encoding of an archive. *)
Variable fs : gmap path fnode.
Variable io_error : path -> option exn.
Variable zip_bytes : archive -> bytes.

(** What [p] names after its links are followed, which is what [exists()],
    [is_file()], [is_dir()], [open()] and [ZipFile.write] look at; [None]
    when nothing is there or the links loop. *)
Fixpoint follow (fuel : nat) (p : path) : option fnode :=
  match fs !! p with
  | Some (Link target) =>
      match fuel with
      | O => None
      | S fuel' => follow fuel' target
      end
  | other => other
  end.

Definition stat (p : path) : option fnode := follow (size fs) p.

Definition is_link (o : option fnode) : bool :=
  match o with Some (Link _) => true | _ => false end.

(** [q] lies behind a linked directory below [p]: one of its ancestors
    strictly between [p] and [q] is a link. *)
Definition behind_link (p q : path) : bool :=
  existsb (fun n => is_link (fs !! take n q))
    (seq (S (length p)) (length q - S (length p))).

(** [p.rglob("*")]: everything strictly below [p]; a link is listed, but a
    linked directory is not entered. *)
Definition rglob (p : path) : list path :=
  filter (fun q => p `prefix_of` q ∧ q ≠ p ∧ behind_link p q = false)
    (map fst (map_to_list fs)).

(** [for p in ps: arcname = p.relative_to(base); if p.is_file(): zf.write(p, arcname)] *)
Fixpoint add_tree (base : path) (ps : list path) (zf : archive) : outcome archive :=
  match ps with
  | [] => Return zf
  | p :: rest =>
      match relative_to p base with
      | None => Raise (ValueError "is not in the subpath")
      | Some arcname =>
          match stat p with
          | Some (File content) =>
              match io_error p with
              | Some e => Raise e
              | None => add_tree base rest (zf ++ [(arcname, content)])
              end
          | _ => add_tree base rest zf
          end
      end
  end.

(** The loop [for path in job.results] of [_collect_results]. *)
Fixpoint collect_results_loop (data_dir : path) (paths : list string)
    (zf : archive) : outcome archive :=
  match paths with
  | [] => Return zf
  | p :: rest =>
      match try_resolve (path_join data_dir (lstrip_slash p)) with
      | Raise e => Raise e
      | Return abs_path =>
          if negb (is_relative_to abs_path data_dir) then
            (* Result path escapes data directory, skipping *)
            collect_results_loop data_dir rest zf
          else
            match stat abs_path with
            | None => collect_results_loop data_dir rest zf
            | Some (File content) =>
                match relative_to abs_path data_dir with
                | None => Raise (ValueError "is not in the subpath")
                | Some arcname =>
                    match io_error abs_path with
                    | Some e => Raise e
                    | None =>
                        collect_results_loop data_dir rest (zf ++ [(arcname, content)])
                    end
                end
            | Some Dir =>
                match add_tree data_dir (rglob abs_path) zf with
                | Raise e => Raise e
                | Return zf1 => collect_results_loop data_dir rest zf1
                end
            | Some _ => collect_results_loop data_dir rest zf
            end
      end
  end.

(** [_collect_results]; the archive is written to [results.zip] in the job
    directory and read back. *)
Definition collect_results (job : JobInfo) (base_dir : path)
  : outcome (option bytes) :=
  match truthy (results_receiver job) with
  | None => Return None
  | Some _ =>
      match try_resolve (base_dir ++ ["data"]) with
      | Raise e => Raise e
      | Return data_dir =>
          match try_resolve (base_dir ++ ["results.zip"]) with
          | Raise e => Raise e
          | Return zip_path =>
              match io_error zip_path with
              | Some e => Raise e
              | None =>
                  match collect_results_loop data_dir (results job) [] with
                  | Raise e => Raise e
                  | Return zf => Return (Some (zip_bytes zf))
                  end
              end
          end
      end
  end.

(** The loop [for path, name in job.named_results.items()]. *)
Fixpoint collect_named_loop (data_dir : path) (items : list (string * string))
    (results : gmap string bytes) : outcome (gmap string bytes) :=
  match items with
  | [] => Return results
  | (p, name) :: rest =>
      match try_resolve (path_join data_dir (lstrip_slash p)) with
      | Raise e => Raise e
      | Return abs_path =>
          if negb (is_relative_to abs_path data_dir) then
            (* Result path escapes data directory, skipping *)
            collect_named_loop data_dir rest results
          else
            match stat abs_path with
            | None => collect_named_loop data_dir rest results
            | Some (File content) =>
                match io_error abs_path with
                | Some e => Raise e
                | None => collect_named_loop data_dir rest (<[name := content]> results)
                end
            | Some Dir =>
                (* Zip the directory *)
                match add_tree (path_parent abs_path) (rglob abs_path) [] with
                | Raise e => Raise e
                | Return zf =>
                    collect_named_loop data_dir rest (<[name := zip_bytes zf]> results)
                end
            | Some _ => collect_named_loop data_dir rest results
            end
      end
  end.

(** [_collect_named_results] *)
Definition collect_named_results (job : JobInfo) (base_dir : path)
  : outcome (gmap string bytes) :=
  match try_resolve (base_dir ++ ["data"]) with
  | Raise e => Raise e
  | Return data_dir => collect_named_loop data_dir (named_results job) ∅
  end.

End WithFileSystem.

End Executor.

(** ** Concrete inputs used by the examples below *)

(** A stand-in for [hashlib]'s digest when the model is run on a concrete
    input: the bytes themselves, read as a string.  It is injective. *)
Definition toy_digest (data : bytes) : string := String.string_of_list_byte data.

(** The SHA-1 digest of the empty byte string, in hexadecimal. *)
Definition digest_of_empty : string := "da39a3ee5e6b4b0d3255bfef95601890afd80709".

(** A store whose only blob file was deleted behind its back: the index
    still maps ["a"] to the file. *)
Definition stale_store : Storage.t :=
  Storage.Make [Storage.Row "a" digest_of_empty] ∅.

(** An executor node before discovery, a broker's announcement and its
    acknowledgement, and the same two bundles from a second broker. *)
Definition executor_node : Node.t :=
  Node.init "dtn://executor/" NodeType.EXECUTOR None.

Definition announce_from (broker : EID) : BundleData.t :=
  BundleData.with_node_type
    (BundleData.default BundleType.BROKER_ANNOUNCE broker "dtn://rec.all/~")
    NodeType.BROKER.

Definition ack_from (broker : EID) : BundleData.t :=
  BundleData.default BundleType.BROKER_ACK broker "dtn://executor/".

(** The executor once its handshake with ["dtn://broker1/"] is complete. *)
Definition associated_node : Node.t :=
  snd (Node.handle_discovery (ack_from "dtn://broker1/")
         (snd (Node.handle_discovery (announce_from "dtn://broker1/") executor_node))).

(** A job is runnable when [find_missing] of its required names is empty
    and the sampled system capabilities cover its requirements. *)
Definition is_runnable (from_system : Capabilities) (st : Storage.t)
    (job : JobInfo) : Prop :=
  Storage.result_of (Storage.find_missing (required_named_data job)) st = Return ∅
  /\ is_capable_of from_system (capabilities job) = true.

(** A job that only names its module and asks for one core. *)
Definition job_for (wasm_module : string) : JobInfo :=
  {| wasm_module := wasm_module;
     capabilities := Build_Capabilities 1 0 0 0;
     argv := []; env := []; stdin_file := None; dirs := []; data := [];
     stdout_file := None; stderr_file := None; results := [];
     named_results := []; results_receiver := None |}.

Definition one_core : Capabilities := Build_Capabilities 1 100 0 0.

(** An executor that already holds the datum ["databin"], with three
    pending jobs of which only the second has its module in store. *)
Definition executor_with_databin : Executor.t :=
  Executor.Make executor_node
    (Storage.state_of (Storage.store_data toy_digest "databin" [x68; x69])
       Storage.empty)
    [job_for "absent1"; job_for "databin"; job_for "absent2"]
    0.

(** A datastore's answer carrying ["databin"] once more. *)
Definition redelivered_bundle : BundleData.t :=
  {| BundleData.type := BundleType.NDATA_GET;
     BundleData.source := "dtn://store1/";
     BundleData.destination := "dtn://executor/";
     BundleData.payload := [x68; x69];
     BundleData.success := true;
     BundleData.error := "";
     BundleData.node_type := 0;
     BundleData.submitter := None;
     BundleData.named_data := NdStr "databin" |}.

(** The data of the two jobs that wait in [executor_with_databin],
    arriving in one bundle. *)
Definition late_bundle : BundleData.t :=
  {| BundleData.type := BundleType.NDATA_GET;
     BundleData.source := "dtn://store1/";
     BundleData.destination := "dtn://executor/";
     BundleData.payload := [x68; x69];
     BundleData.success := true;
     BundleData.error := "";
     BundleData.node_type := 0;
     BundleData.submitter := None;
     BundleData.named_data := NdList ["absent1"; "absent2"] |}.

(** A store with an empty index whose blob directory holds, under the
    digest of the bytes [hi], a file that was cut short. *)
Definition store_with_short_blob : Storage.t :=
  Storage.Make [] {[ toy_digest [x68; x69] := [x68] ]}.

(** A directory name with an embedded null byte, a job that lists it, and
    what [Path.resolve()] answers a path that ends in it. *)
Definition null_byte_dir : string := String "a" (String "000" "b").

Definition null_byte_job : JobInfo :=
  {| wasm_module := "databin";
     capabilities := Build_Capabilities 1 0 0 0;
     argv := []; env := []; stdin_file := None;
     dirs := [null_byte_dir]; data := [];
     stdout_file := None; stderr_file := None;
     results := []; named_results := []; results_receiver := None |}.

Definition null_byte_error (p : path) : option exn :=
  if decide (last p = Some null_byte_dir) then Some (ValueError "embedded null byte")
  else None.

(** ** The vocabulary of the path-escape defense *)

Section SandboxPaths.

Variable resolve : path -> path.
Variable resolve_error : path -> option exn.

(** [absolute = (data_dir / p.lstrip("/")).resolve()], when the call
    returns. *)
Definition sandbox_path (data_dir : path) (p : string) : path :=
  resolve (path_join data_dir (lstrip_slash p)).

Definition resolves (data_dir : path) (p : string) : Prop :=
  resolve_error (path_join data_dir (lstrip_slash p)) = None.

(** The test the executor applies: [not absolute.is_relative_to(data_dir)].
    A path escapes when its absolute path is computed and fails the test,
    and is inside when it is computed and passes it. *)
Definition escapes (data_dir : path) (p : string) : Prop :=
  resolves data_dir p
  /\ is_relative_to (sandbox_path data_dir p) data_dir = false.

Definition inside (data_dir : path) (p : string) : Prop :=
  resolves data_dir p
  /\ is_relative_to (sandbox_path data_dir p) data_dir = true.

#[export] Instance escapes_dec data_dir p : Decision (escapes data_dir p).
Proof. unfold escapes, resolves. apply _. Defined.

End SandboxPaths.

Definition option_list {A} (o : option A) : list A :=
  match o with Some a => [a] | None => [] end.

(** The sandbox paths a job hands to [_prepare_wasi_environment], in the
    order it meets them: [dirs], the keys of [data], [stdout_file] and
    [stderr_file] when set. *)
Definition prepared_paths (job : JobInfo) : list string :=
  dirs job ++ map fst (data job)
  ++ option_list (truthy (stdout_file job))
  ++ option_list (truthy (stderr_file job)).

(** The names [_prepare_wasi_environment] copies out of the store. *)
Definition staged_names (job : JobInfo) : list string :=
  [wasm_module job] ++ option_list (truthy (stdin_file job)) ++ map snd (data job).

(** [copy_to_file(name, _)] finds the name and its blob file. *)
Definition available (s : Storage.t) (name : string) : Prop :=
  match filter (fun r => Storage.row_name r = name) (Storage.db s) with
  | r :: _ =>
      Storage.row_filename r <> ""
      /\ is_Some (Storage.blob_directory s !! Storage.row_filename r)
  | [] => False
  end.

(** An operating system that refuses nothing the preparation asks for, and
    one that at least raises no [ValueError]. *)
Definition quiet (resolve_error : path -> option exn)
    (os_error : Storage.effect -> option exn) : Prop :=
  (forall p, resolve_error p = None) /\ (forall e, os_error e = None).

Definition no_value_error (resolve_error : path -> option exn)
    (os_error : Storage.effect -> option exn) : Prop :=
  (forall p msg, resolve_error p <> Some (ValueError msg))
  /\ (forall e msg, os_error e <> Some (ValueError msg)).

(** An operating system that refuses nothing at all. *)
Definition no_error {A} (_ : A) : option exn := None.

(** The path a primitive mutation creates or writes, or was asked to, if
    any. *)
Fixpoint touches (e : Storage.effect) : option path :=
  match e with
  | Storage.CopyFile _ destination => Some destination
  | Storage.Mkdir p => Some p
  | Storage.Failed call => touches call
  | _ => None
  end.

(** The files and directories of a job directory that do not depend on the
    job's own paths. *)
Definition job_files (resolve : path -> path) (base_dir : path) : list path :=
  [base_dir; resolve (base_dir ++ ["module.wasm"]);
   resolve (base_dir ++ ["stdin.bin"]); resolve (base_dir ++ ["data"])].

(** A job whose [dirs], [results] and [named_results] point outside the
    sandbox, the job directory it runs in and a secret file next to the
    sandbox root. *)
Definition escaping_job : JobInfo :=
  {| wasm_module := "databin";
     capabilities := Build_Capabilities 1 0 0 0;
     argv := []; env := []; stdin_file := None;
     dirs := ["../../../etc"]; data := [];
     stdout_file := None; stderr_file := None;
     results := ["../secret.txt"];
     named_results := [("../secret.txt", "escaped_file")];
     results_receiver := Some "dtn://client/results" |}.

Definition job_dir : path := ["srv"; "executor_root"; "job-1"].

Definition job_dir_after_run : gmap path Executor.fnode :=
  {[ ["srv"; "executor_root"; "job-1"; "secret.txt"] := Executor.File [x68; x69];
     ["srv"; "executor_root"; "job-1"; "data"] := Executor.Dir ]}.

(** A stand-in for [zipfile]'s encoding: the contents, concatenated. *)
Definition toy_zip (zf : list (path * bytes)) : bytes := concat (map snd zf).

(** A job that stays inside the sandbox in all it prepares and asks for a
    result outside of it. *)
Definition leaking_job : JobInfo :=
  {| wasm_module := "databin";
     capabilities := Build_Capabilities 1 0 0 0;
     argv := []; env := []; stdin_file := None;
     dirs := ["out"]; data := [];
     stdout_file := None; stderr_file := None;
     results := ["../secret.txt"];
     named_results := [("../secret.txt", "escaped_file")];
     results_receiver := Some "dtn://client/results" |}.

(** A job that collects the directory ["out"], and a job directory in which
    the module left, in that directory, a link to the secret file. *)
Definition collecting_job : JobInfo :=
  {| wasm_module := "databin";
     capabilities := Build_Capabilities 1 0 0 0;
     argv := []; env := []; stdin_file := None;
     dirs := ["out"]; data := [];
     stdout_file := None; stderr_file := None;
     results := ["out"];
     named_results := [];
     results_receiver := Some "dtn://client/results" |}.

Definition job_dir_with_link : gmap path Executor.fnode :=
  {[ ["srv"; "executor_root"; "job-1"; "secret.txt"] := Executor.File [x68; x69];
     ["srv"; "executor_root"; "job-1"; "data"] := Executor.Dir;
     ["srv"; "executor_root"; "job-1"; "data"; "out"] := Executor.Dir;
     ["srv"; "executor_root"; "job-1"; "data"; "out"; "peek"] :=
       Executor.Link ["srv"; "executor_root"; "job-1"; "secret.txt"] ]}.

(** ** Vocabulary of the statements about discovery and [dictify] *)

(** The request a node sends to the broker [X] it heard from. *)
Definition broker_request (self : Node.t) (X : EID) : BundleData.t :=
  {| BundleData.type := BundleType.BROKER_REQUEST;
     BundleData.source := Node.node_id self;
     BundleData.destination := X;
     BundleData.payload := [];
     BundleData.success := true;
     BundleData.error := "";
     BundleData.node_type := Node.node_type self;
     BundleData.submitter := None;
     BundleData.named_data := NdNone |}.

(** The optional fields [dictify] tests. *)
Definition optional_fields : list string :=
  ["payload"; "node_type"; "submitter"; "named_data"].

(** The instance dictionary without its default-valued optional entries. *)
Definition without_defaults (d : Messages.pydict) : Messages.pydict :=
  filter (fun kv => Messages.is_default (fst kv) (snd kv) = false) d.

(** One [if self.k == default: del own_dict[k]] on a dictionary. *)
Definition strip (k : string) (d : Messages.pydict) : Messages.pydict :=
  match d !! k with
  | Some v => if Messages.is_default k v then delete k d else d
  | None => d
  end.


(** ** The guarantees of one stage of the sandbox preparation *)

Section Stages.

Variable resolve : path -> path.
Variable resolve_error : path -> option exn.
Variable os_error : Storage.effect -> option exn.
Variable base_dir : path.

Local Abbreviation data_dir := (resolve (base_dir ++ ["data"])).
Local Abbreviation escaping := (escapes resolve resolve_error data_dir).
Local Abbreviation within := (inside resolve resolve_error data_dir).
Local Abbreviation absolute := (sandbox_path resolve data_dir).

(** A file operation is allowed, given the user paths [ps], when the path
    it is called with is one of the job's own files, or the absolute path
    (or its parent) of some [p] of [ps] that passed the test. *)
Definition allowed (ps : list string) (e : Storage.effect) : Prop :=
  forall q, touches e = Some q ->
    q ∈ job_files resolve base_dir
    \/ exists p, p ∈ ps /\ within p
         /\ (q = absolute p \/ q = path_parent (absolute p)).

(** What one stage of the preparation guarantees, for the user paths [ps]
    it checks and the names [ns] it copies. *)
Definition stage {A} (m : Storage.io A) (ps ns : list string) (s : Storage.t) : Prop :=
  (forall e, e ∈ Storage.log_of m s -> allowed ps e)
  /\ (returned (Storage.result_of m s) = true ->
        Storage.state_of m s = s /\ forall p, p ∈ ps -> within p)
  /\ (no_value_error resolve_error os_error ->
      forall msg, Storage.result_of m s = Raise (ValueError msg) ->
        exists p, p ∈ ps /\ escaping p)
  /\ (quiet resolve_error os_error ->
      (forall n, n ∈ ns -> available s n) ->
        returned (Storage.result_of m s) = true
        \/ exists msg, Storage.result_of m s = Raise (ValueError msg))
  /\ (quiet resolve_error os_error ->
      (forall n, n ∈ ns -> available s n) ->
        (forall p, p ∈ ps -> ~ escaping p) ->
        returned (Storage.result_of m s) = true).

End Stages.

(** * Further code of the repository *)

(** The names a data bundle lists, after
    [if isinstance(bundle.named_data, str): bundle.named_data = [bundle.named_data]];
    [None] lists nothing and cannot be iterated. *)
Definition listed_names (nd : named_data_t) : option (list string) :=
  match nd with
  | NdNone => None
  | NdStr name => Some [name]
  | NdList names => Some names
  end.

(** ** rec/dtn/job.py: [Job] *)

Module Job.

(** [data] is a [dict]: an association list in insertion order. *)
Record t := Make { metadata : JobInfo; data : list (string * bytes) }.

Definition has_all_data (self : t) : bool :=
  let required := required_named_data (metadata self) in
  bool_decide (required ⊆ list_to_set (map fst (data self))).

Definition missing_data (self : t) : gset string :=
  let required := required_named_data (metadata self) in
  required ∖ list_to_set (map fst (data self)).

End Job.

(** ** rec/dtn/executor.py: intake, the scheduler's test, running a job *)

Module Intake.

Import Storage.Notations.
Local Open Scope io_scope.

Section WithEnvironment.

Variable sha1_hexdigest : bytes -> string.
Variable from_system : Capabilities.

(** What [msgpack.unpackb] returns, called as [_handle_job] calls it, with
    no hook: a value of one of the built-in types [msgpack] decodes to, an
    [ExtType] (a named tuple of a [code] and [data], which is [bytes]) or a
    [Timestamp]; or the exception it raises on bytes that are no message. *)
Inductive unpacked :=
| UNone
| UBool
| UInt
| UFloat
| UStr
| UBytes
| UList
| UDict
| UExtType (data : bytes)
| UTimestamp.

Variable unpackb : bytes -> outcome unpacked.

Definition type_name (v : unpacked) : string :=
  match v with
  | UNone => "NoneType"
  | UBool => "bool"
  | UInt => "int"
  | UFloat => "float"
  | UStr => "str"
  | UBytes => "bytes"
  | UList => "list"
  | UDict => "dict"
  | UExtType _ => "ExtType"
  | UTimestamp => "Timestamp"
  end.

(** [job.data] *)
Definition attr_data (job : unpacked) : outcome bytes :=
  match job with
  | UExtType data => Return data
  | _ => Raise (AttributeError
                  ("'" +:+ type_name job +:+ "' object has no attribute 'data'"))
  end.

(** [for name, data in items: await self._storage.store_data(name, data)] *)
Definition store_all (items : list (string * bytes)) : Storage.io unit :=
  Storage.for_each items
    (fun item => Storage.store_data sha1_hexdigest (fst item) (snd item)).

(** [_handle_job].  The only [job.data] there can be is the [bytes] of an
    [ExtType], and [bytes] has no [items]: the loop over [job.data.items()]
    is never entered, and what follows it in the method is not reached. *)
Definition handle_job (bundle : BundleData.t) (self : Executor.t)
  : outcome (list BundleData.t) * Executor.t :=
  match unpackb (BundleData.payload bundle) with
  | Raise e => (Raise e, self)
  | Return job =>
      match attr_data job with
      | Raise e => (Raise e, self)
      | Return _ =>
          (Raise (AttributeError "'bytes' object has no attribute 'items'"), self)
      end
  end.

(** The loop of [_has_runnable_job]. *)
Fixpoint has_runnable_loop (jobs : list JobInfo) : Storage.io bool :=
  match jobs with
  | [] => Storage.ret false
  | j :: rest =>
      do r <- Executor.runnable from_system j;
      if (r : bool) then Storage.ret true else has_runnable_loop rest
  end.

(** [_has_runnable_job] *)
Definition has_runnable_job (self : Executor.t) : outcome bool * Executor.t :=
  match has_runnable_loop (Executor.pending_jobs self) (Executor.storage self) with
  | (r, st, _) => (r, Executor.with_storage self st)
  end.

(** [_store_named_results]; [results] is a [dict]. *)
Definition store_named_results (results : list (string * bytes)) : Storage.io unit :=
  match results with
  | [] => Storage.ret tt
  | _ :: _ => store_all results
  end.

End WithEnvironment.

Section WithFileSystem.

Variable resolve : path -> path.
Variable resolve_error : path -> option exn.
Variable os_error : Storage.effect -> option exn.
Variable io_error : path -> option exn.
Variable zip_bytes : list (path * bytes) -> bytes.

(** The root directory of the executor and the text of [id(job)]. *)
Variable root_dir : path.
Variable job_id : JobInfo -> string.

(** [_run_wasi_module]: the exit code or the exception, and the file system
    it leaves behind.  Its arguments are the module file, [argv], [env], the
    stdin file, the sandbox root and the two output files. *)
Variable run_wasi_module :
  path -> list string -> list (string * string) -> option path -> path ->
  option path -> option path -> outcome Z * gmap path Executor.fnode.

(** What [_run_job] does to the file system: the mutations of the
    preparation, then the removal of the job directory. *)
Inductive job_effect :=
| Prepared (e : Storage.effect)
| Rmtree (p : path).

Definition output_path (data_dir : path) (o : option string) : option path :=
  match truthy o with
  | Some f => Some (path_join data_dir (lstrip_slash f))
  | None => None
  end.

(** The part of [_run_job] under the writer lock, before its [try]: the job
    directory is resolved and made, and the sandbox prepared. *)
Definition set_up (job : JobInfo)
  : Storage.io (path * (path * option path * path)) :=
  do job_dir <- Executor.resolved resolve resolve_error
                  (root_dir ++ ["job-" +:+ job_id job]);
  do _ <- Storage.attempt os_error (Storage.Mkdir job_dir);
  do prepared <- Executor.prepare_wasi_environment resolve resolve_error os_error
                   job job_dir;
  Storage.ret (job_dir, prepared).

(** [_run_job] *)
Definition run_job (job : JobInfo) (st : Storage.t)
  : outcome (option bytes * gmap string bytes) * Storage.t * list job_effect :=
  match set_up job st with
  | (Raise e, st1, log) => (Raise e, st1, map Prepared log)
  | (Return (job_dir, (wasm_file, stdin_path, data_dir)), st1, log) =>
      let '(ran, fs) :=
        run_wasi_module wasm_file (argv job) (env job) stdin_path data_dir
          (output_path data_dir (stdout_file job))
          (output_path data_dir (stderr_file job)) in
      let body : outcome (option bytes * gmap string bytes) :=
        match ran with
        | Raise e => Raise e
        | Return exit_code =>
            match Executor.collect_results resolve resolve_error fs io_error
                    zip_bytes job job_dir with
            | Raise e => Raise e
            | Return results =>
                match Executor.collect_named_results resolve resolve_error fs
                        io_error zip_bytes job job_dir with
                | Raise e => Raise e
                | Return named_results => Return (results, named_results)
                end
            end
        end in
      let result :=
        match body with
        | Raise _ => Return (None, ∅)    (* except Exception: return None, {} *)
        | Return r => Return r
        end in
      (* finally: if job_dir and job_dir.exists(): shutil.rmtree(job_dir) *)
      let removed :=
        if bool_decide (is_Some (Executor.stat fs job_dir)) then [Rmtree job_dir]
        else [] in
      (result, st1, map Prepared log ++ removed)
  end.

End WithFileSystem.

End Intake.

(** ** rec/dtn/datastore.py *)

Module Datastore.

Record t := Make { node : Node.t; storage : Storage.t }.

Section WithDigest.

Variable sha1_hexdigest : bytes -> string.

(** [str(err)] for a [NameTakenError]. *)
Definition name_taken_text (name : string) : string :=
  "name " +:+ name +:+ " already taken".

(** [BundleData(type=.., source=self.node_id, destination=bundle.source,
    payload=.., named_data=name)] *)
Definition response (ty : Z) (self : t) (bundle : BundleData.t)
    (payload : bytes) (name : string) : BundleData.t :=
  {| BundleData.type := ty;
     BundleData.source := Node.node_id (node self);
     BundleData.destination := BundleData.source bundle;
     BundleData.payload := payload;
     BundleData.success := true;
     BundleData.error := "";
     BundleData.node_type := 0;
     BundleData.submitter := None;
     BundleData.named_data := NdStr name |}.

Definition failed (b : BundleData.t) (text : string) : BundleData.t :=
  {| BundleData.type := BundleData.type b;
     BundleData.source := BundleData.source b;
     BundleData.destination := BundleData.destination b;
     BundleData.payload := BundleData.payload b;
     BundleData.success := false;
     BundleData.error := text;
     BundleData.node_type := BundleData.node_type b;
     BundleData.submitter := BundleData.submitter b;
     BundleData.named_data := BundleData.named_data b |}.

(** The loop of the [NDATA_PUT] branch. *)
Fixpoint put_loop (self : t) (bundle : BundleData.t) (names : list string)
    (bundles : list BundleData.t) (st : Storage.t)
  : outcome (list BundleData.t) * Storage.t :=
  match names with
  | [] => (Return bundles, st)
  | name :: rest =>
      let response := response BundleType.NDATA_PUT self bundle [] name in
      match Storage.store_data sha1_hexdigest name (BundleData.payload bundle) st with
      | (Return _, st1, _) => put_loop self bundle rest (bundles ++ [response]) st1
      | (Raise (NameTakenError taken), st1, _) =>
          put_loop self bundle rest
            (bundles ++ [failed response (name_taken_text taken)]) st1
      | (Raise e, st1, _) => (Raise e, st1)
      end
  end.

(** The loop of the [NDATA_GET] branch. *)
Fixpoint get_loop (self : t) (bundle : BundleData.t) (names : list string)
    (bundles : list BundleData.t) (st : Storage.t)
  : outcome (list BundleData.t) * Storage.t :=
  match names with
  | [] => (Return bundles, st)
  | name :: rest =>
      match Storage.load_data name st with
      | (Return loaded, st1, _) =>
          get_loop self bundle rest
            (bundles ++ map (fun l => response BundleType.NDATA_GET self bundle
                                        (snd l) (fst l)) loaded) st1
      | (Raise e, st1, _) => (Raise e, st1)
      end
  end.

(** [Datastore._handle_data] *)
Definition handle_data (bundle : BundleData.t) (self : t)
  : outcome (list BundleData.t) * t :=
  let ty := BundleData.type bundle in
  if (ty =? BundleType.NDATA_PUT)%Z then
    match listed_names (BundleData.named_data bundle) with
    | None => (Return [], self)
    | Some names =>
        match put_loop self bundle names [] (storage self) with
        | (r, st) => (r, Make (node self) st)
        end
    end
  else if (ty =? BundleType.NDATA_GET)%Z then
    match listed_names (BundleData.named_data bundle) with
    | None => (Return [], self)
    | Some names =>
        match get_loop self bundle names [] (storage self) with
        | (r, st) => (r, Make (node self) st)
        end
    end
  else (Return [], self).


End WithDigest.

End Datastore.

(** ** rec/dtn/broker.py *)

Module Broker.

(** The broker's identity and its [discovered_nodes], a [dict] from node
    type to the set of peers of that type. *)
Record t := Make { node_id : EID; discovered_nodes : gmap Z (gset EID) }.

(** [Broker.__init__]: one empty set per node type. *)
Definition init (node_id : EID) : t :=
  Make node_id
    (<[NodeType.BROKER := ∅]> (<[NodeType.CLIENT := ∅]>
      (<[NodeType.EXECUTOR := ∅]> (<[NodeType.DATASTORE := ∅]> ∅)))).

(** The bundle [_announce_yourself] sends every ten seconds. *)
Definition announcement (self : t) : BundleData.t :=
  BundleData.with_node_type
    (BundleData.default BundleType.BROKER_ANNOUNCE (node_id self) "dtn://rec.all/~")
    NodeType.BROKER.

(** [Broker._handle_discovery]; a node type that is no key of
    [discovered_nodes] raises [KeyError]. *)
Definition handle_discovery (bundle : BundleData.t) (self : t)
  : outcome (option BundleData.t) * t :=
  let ty := BundleData.type bundle in
  if (ty =? BundleType.BROKER_ANNOUNCE)%Z then (Return None, self)
  else if (ty =? BundleType.BROKER_REQUEST)%Z then
    match discovered_nodes self !! BundleData.node_type bundle with
    | None => (Raise (KeyError (pretty (BundleData.node_type bundle))), self)
    | Some peers =>
        (Return (Some (BundleData.default BundleType.BROKER_ACK (node_id self)
                         (BundleData.source bundle))),
         Make (node_id self)
           (<[BundleData.node_type bundle := {[BundleData.source bundle]} ∪ peers]>
              (discovered_nodes self)))
    end
  else (Return None, self).

(** The keys of [discovered_nodes]. *)
Definition node_types : gset Z :=
  {[ NodeType.BROKER; NodeType.EXECUTOR; NodeType.DATASTORE; NodeType.CLIENT ]}.

(** States a broker reaches by handling discovery bundles. *)
Inductive reachable : t -> Prop :=
| reachable_init node_id : reachable (init node_id)
| reachable_step bundle self :
    reachable self -> reachable (snd (handle_discovery bundle self)).

End Broker.

(** ** Vocabulary of the statements about collected results *)

Section CollectedFrom.

Variable resolve : path -> path.
Variable resolve_error : path -> option exn.
Variable fs : gmap path Executor.fnode.
Variable zip_bytes : list (path * bytes) -> bytes.
Variable base_dir : path.

(** An archive entry that is the content of what [q], a path at or below
    [below], names once its links are followed, archived under the path of
    [q] relative to [base]. *)
Definition archived_from (base : path) (below : path) (e : path * bytes) : Prop :=
  exists q, Executor.stat fs q = Some (Executor.File (snd e))
            /\ below `prefix_of` q
            /\ relative_to q base = Some (fst e).

(** The same, for a [q] that is a regular file itself. *)
Definition archived_file (base : path) (below : path) (e : path * bytes) : Prop :=
  exists q, fs !! q = Some (Executor.File (snd e))
            /\ below `prefix_of` q
            /\ relative_to q base = Some (fst e).

(** No path at or below [below] is a symbolic link. *)
Definition link_free (below : path) : Prop :=
  forall q, below `prefix_of` q -> Executor.is_link (fs !! q) = false.

(** A named result that is the file at a listed path inside the sandbox,
    or the archive of the files below a listed directory inside it. *)
Definition named_from (items : list (string * string)) (name : string)
    (content : bytes) : Prop :=
  let data_dir := resolve (base_dir ++ ["data"]) in
  exists p,
    let abs_path := sandbox_path resolve data_dir p in
    (p, name) ∈ items
    /\ inside resolve resolve_error data_dir p
    /\ (Executor.stat fs abs_path = Some (Executor.File content)
        \/ (Executor.stat fs abs_path = Some Executor.Dir
            /\ exists zf,
                 content = zip_bytes zf
                 /\ Forall (archived_from (path_parent abs_path) abs_path) zf)).

(** The same, when no link is followed. *)
Definition named_file (items : list (string * string)) (name : string)
    (content : bytes) : Prop :=
  let data_dir := resolve (base_dir ++ ["data"]) in
  exists p,
    let abs_path := sandbox_path resolve data_dir p in
    (p, name) ∈ items
    /\ inside resolve resolve_error data_dir p
    /\ (fs !! abs_path = Some (Executor.File content)
        \/ (fs !! abs_path = Some Executor.Dir
            /\ exists zf,
                 content = zip_bytes zf
                 /\ Forall (archived_file (path_parent abs_path) abs_path) zf)).

End CollectedFrom.

(** ** Vocabulary of the statements about a second [dictify] *)

(** The first optional field, in the order [dictify] tests them, that holds
    its default in the bundle. *)
Definition first_default (b : BundleData.t) : option string :=
  match BundleData.payload b with
  | [] => Some "payload"
  | _ :: _ =>
      if bool_decide (BundleData.node_type b = 0%Z) then Some "node_type"
      else
        match BundleData.submitter b, BundleData.named_data b with
        | None, _ => Some "submitter"
        | Some _, NdNone => Some "named_data"
        | Some _, _ => None
        end
  end.

(** ** More concrete inputs for the examples *)

(** An executor and a datastore with empty stores, and an executor that
    waits for the datum ["databin"]. *)
Definition idle_executor : Executor.t :=
  Executor.Make executor_node Storage.empty [] 0.

Definition waiting_executor : Executor.t :=
  Executor.Make executor_node Storage.empty [job_for "databin"] 0.

Definition empty_datastore : Datastore.t :=
  Datastore.Make (Node.init "dtn://store1/" NodeType.DATASTORE None) Storage.empty.

(** A client's [data_put] and [data_get] bundles for the name ["a/b"]. *)
Definition put_bundle : BundleData.t :=
  {| BundleData.type := BundleType.NDATA_PUT;
     BundleData.source := "dtn://client/";
     BundleData.destination := "dtn://store1/";
     BundleData.payload := [x68; x69];
     BundleData.success := true;
     BundleData.error := "";
     BundleData.node_type := 0;
     BundleData.submitter := None;
     BundleData.named_data := NdStr "a/b" |}.

Definition get_bundle : BundleData.t :=
  {| BundleData.type := BundleType.NDATA_GET;
     BundleData.source := "dtn://client/";
     BundleData.destination := "dtn://store1/";
     BundleData.payload := [];
     BundleData.success := true;
     BundleData.error := "";
     BundleData.node_type := 0;
     BundleData.submitter := None;
     BundleData.named_data := NdStr "a/b" |}.

(** ** rec/dtn/messages.py: building a bundle from a dictionary *)

(** The fields of the dataclass [BundleData], and its fields with a
    default as the dictionary of these defaults. *)
Definition BundleData_fields : gset string :=
  {[ "type"; "source"; "destination"; "payload"; "success"; "error";
     "node_type"; "submitter"; "named_data" ]}.

Definition BundleData_defaults : Messages.pydict :=
  <["payload" := Messages.PyBytes []]>
  (<["success" := Messages.PyBool true]>
  (<["error" := Messages.PyStr ""]>
  (<["node_type" := Messages.PyInt 0]>
  (<["submitter" := Messages.PyNone]>
  (<["named_data" := Messages.PyNone]> ∅))))).

(** [BundleData] called with the keywords of [kw], as
    [BundleCreate.__post_init__] and
    [FetchReply.__post_init__] call it on a received dictionary: the
    instance dictionary of the new bundle.  The generated [__init__] raises
    [TypeError] on a keyword that is no field and on a missing [type],
    [source] or [destination]; every other field not given takes its
    default.  [__post_init__] wraps the addresses in [EID], which the model
    identifies with their strings. *)
Definition BundleData_init (kw : Messages.pydict) : outcome Messages.pydict :=
  if negb (bool_decide (dom kw ⊆ BundleData_fields)) then
    Raise (TypeError "__init__() got an unexpected keyword argument")
  else
    match kw !! "type", kw !! "source", kw !! "destination" with
    | Some _, Some _, Some _ => Return (kw ∪ BundleData_defaults)
    | _, _, _ => Raise (TypeError "__init__() missing required positional argument")
    end.

(** * Part II: properties *)

(** ** The store *)

Section StorageProperties.

Variable sha1_hexdigest : bytes -> string.

Implicit Types (s : Storage.t) (n p : string) (B : bytes) (r : Storage.row).

Lemma empty_difference (X : gset string) : ∅ ∖ X = ∅.
Proof.
  apply set_eq. intros x. rewrite elem_of_difference.
  split; [intros [Hx _]|intros Hx]; by apply elem_of_empty in Hx.
Qed.

Lemma search_name_nil s n :
  filter (fun r => Storage.row_name r = n) (Storage.db s) = []
  <-> n ∉ Storage.stored_names s.
Proof.
  unfold Storage.stored_names. rewrite elem_of_list_to_set, list_elem_of_fmap.
  split.
  - intros Hnil [r [-> Hr]].
    assert (r ∈ filter (fun r0 => Storage.row_name r0 = Storage.row_name r) (Storage.db s))
      as Hin by (apply list_elem_of_filter; done).
    rewrite Hnil in Hin. by apply not_elem_of_nil in Hin.
  - intros Hno. destruct (filter _ _) as [|r l] eqn:E; [done|].
    exfalso. apply Hno. exists r.
    assert (r ∈ r :: l) as Hin by left.
    rewrite <- E in Hin. apply list_elem_of_filter in Hin as [? ?]. done.
Qed.

Lemma search_name_cons s n :
  n ∈ Storage.stored_names s ->
  exists r l, filter (fun r => Storage.row_name r = n) (Storage.db s) = r :: l.
Proof.
  intros Hin. destruct (filter _ _) as [|r l] eqn:E; [|eauto].
  apply search_name_nil in E. done.
Qed.

(** What [store_data] does, by cases on the index and the blob directory. *)
Lemma store_data_taken s n B :
  n ∈ Storage.stored_names s ->
  Storage.store_data sha1_hexdigest n B s = (Raise (NameTakenError n), s, []).
Proof.
  intros Hin. destruct (search_name_cons s n Hin) as (r & l & E).
  unfold Storage.store_data, Storage.bind, Storage.db_search_name. by rewrite E.
Qed.

Lemma store_data_fresh s n B :
  n ∉ Storage.stored_names s ->
  Storage.store_data sha1_hexdigest n B s =
    let f := sha1_hexdigest B in
    let log := match Storage.blob_directory s !! f with
               | Some _ => [Storage.DbInsert (Storage.Row n f)]
               | None => [Storage.BlobWrite f B; Storage.DbInsert (Storage.Row n f)]
               end in
    (Return tt, Storage.replay log s, log).
Proof.
  intros Hnot. apply search_name_nil in Hnot.
  unfold Storage.store_data, Storage.bind, Storage.db_search_name. rewrite Hnot.
  unfold Storage.blob_exists. cbn.
  destruct (Storage.blob_directory s !! sha1_hexdigest B) as [c|] eqn:E.
  - rewrite bool_decide_eq_true_2 by eauto. reflexivity.
  - rewrite bool_decide_eq_false_2 by (intros [? ?]; congruence). reflexivity.
Qed.



(** *** [find_missing] *)

Lemma find_missing_loop_spec (l : list string) (acc : gset string) s :
  Storage.find_missing_loop l acc s =
    (Return (acc ∪ list_to_set (filter (fun n => n ∉ Storage.stored_names s) l)), s, []).
Proof.
  revert acc. induction l as [|n l IH]; intros acc; cbn -[filter].
  - cbn. unfold Storage.ret. by rewrite (right_id_L ∅ (∪)).
  - unfold Storage.bind, Storage.db_search_name.
    destruct (filter _ (Storage.db s)) as [|r rows] eqn:E.
    + apply search_name_nil in E. rewrite IH. cbn -[filter].
      rewrite filter_cons_True by done. rewrite list_to_set_cons.
      by rewrite (assoc_L (∪)), (comm_L (∪) {[n]} acc).
    + assert (n ∈ Storage.stored_names s) as Hin.
      { destruct (decide (n ∈ Storage.stored_names s)) as [|Hn]; [done|].
        apply search_name_nil in Hn. congruence. }
      rewrite IH. cbn -[filter]. rewrite filter_cons_False by (intros ?; done). done.
Qed.

Lemma find_missing_spec (R : gset string) s :
  Storage.find_missing R s = (Return (R ∖ Storage.stored_names s), s, []).
Proof.
  unfold Storage.find_missing. destruct (decide (R = ∅)) as [->|Hne].
  - unfold Storage.ret.
    by rewrite empty_difference.
  - rewrite find_missing_loop_spec. rewrite (left_id_L ∅ (∪)).
    do 3 f_equal. apply set_eq. intros x. split.
    + intros Hx. apply elem_of_list_to_set, list_elem_of_filter in Hx as [Hn Hx].
      apply elem_of_elements in Hx. by apply elem_of_difference.
    + intros Hx. apply elem_of_difference in Hx as [Hx Hn].
      apply elem_of_list_to_set, list_elem_of_filter. split; [done|].
      by apply elem_of_elements.
Qed.

(** C9. [find_missing(R)] returns the set difference of [R] and the names
    of the index, reads the index only and changes nothing; on the empty set
    it returns the empty set; and a name whose row is still in the index is
    not reported, even when the row's blob file is gone. *)
Theorem find_missing_is_set_difference (R : gset string) s :
  Storage.find_missing R s = (Return (R ∖ Storage.stored_names s), s, [])
  /\ Storage.find_missing ∅ s = (Return ∅, s, [])
  /\ (forall r X, r ∈ Storage.db s ->
        Storage.blob_directory s !! Storage.row_filename r = None ->
        Storage.result_of (Storage.find_missing R) s = Return X ->
        Storage.row_name r ∉ X).
Proof.
  split; [apply find_missing_spec|]. split.
  - rewrite find_missing_spec.
    by rewrite empty_difference.
  - intros r X Hr _. unfold Storage.result_of. rewrite find_missing_spec. cbn.
    intros [= <-]. rewrite elem_of_difference. intros [_ Hno]. apply Hno.
    unfold Storage.stored_names. rewrite elem_of_list_to_set.
    apply list_elem_of_fmap. eauto.
Qed.

(** *** [load_data] and [_cleanup] *)

Lemma cleanup_spec (names : list string) s :
  Storage.cleanup names s =
    (Return tt, Storage.replay (map Storage.DbRemove names) s,
     map Storage.DbRemove names).
Proof.
  unfold Storage.cleanup. revert s. induction names as [|n names IH]; intros s; cbn.
  - done.
  - unfold Storage.bind, Storage.perform. rewrite IH. done.
Qed.

Lemma load_entries_spec (entries : list Storage.row)
    (acc : list (string * bytes)) (dis : list string) s :
  Storage.load_entries entries acc dis s =
    (Return (acc ++ omap (Storage.entry_of s) entries,
             dis ++ map Storage.row_filename
                      (filter (fun r => Storage.entry_of s r = None) entries)),
     s, []).
Proof.
  revert acc dis. induction entries as [|r entries IH]; intros acc dis; cbn -[filter].
  - cbn. unfold Storage.ret. by rewrite !app_nil_r.
  - unfold Storage.bind, Storage.blob_read. unfold Storage.entry_of at 1 3.
    destruct (Storage.blob_directory s !! Storage.row_filename r) as [c|] eqn:E.
    + rewrite IH. cbn -[filter]. rewrite filter_cons_False.
      2:{ unfold Storage.entry_of. rewrite E. done. }
      by rewrite <- app_assoc.
    + rewrite IH. cbn -[filter]. rewrite filter_cons_True.
      2:{ unfold Storage.entry_of. by rewrite E. }
      cbn. by rewrite <- app_assoc.
Qed.

Lemma omap_entry_filter p s (rows : list Storage.row) :
  omap (Storage.entry_of s)
       (filter (fun r => String.prefix p (Storage.row_name r) = true) rows)
  = filter (fun e => String.prefix p (fst e) = true) (omap (Storage.entry_of s) rows).
Proof.
  induction rows as [|r rows IH]; [done|].
  assert (forall e, Storage.entry_of s r = Some e -> fst e = Storage.row_name r) as He.
  { intros e. unfold Storage.entry_of.
    destruct (Storage.blob_directory s !! Storage.row_filename r); [|done].
    by intros [= <-]. }
  rewrite filter_cons.
  destruct (decide (String.prefix p (Storage.row_name r) = true)) as [Hp|Hp];
    cbn -[filter String.prefix Storage.entry_of];
    destruct (Storage.entry_of s r) as [e|] eqn:E; try done.
  - rewrite filter_cons_True by (by rewrite (He e)). by rewrite IH.
  - rewrite filter_cons_False by (by rewrite (He e)). done.
Qed.

(** [load_data] in any state: the entries it returns, and the [remove]
    calls it makes, one per file name it could not open. *)
Lemma load_data_spec p s :
  let matched := filter (fun r => String.prefix p (Storage.row_name r) = true)
                   (Storage.db s) in
  let disappeared := map Storage.row_filename
                       (filter (fun r => Storage.entry_of s r = None) matched) in
  Storage.load_data p s =
    (Return (filter (fun e => String.prefix p (fst e) = true) (Storage.stored_entries s)),
     Storage.replay (map Storage.DbRemove disappeared) s,
     map Storage.DbRemove disappeared).
Proof.
  cbv zeta. unfold Storage.load_data, Storage.bind at 1, Storage.db_search_test.
  unfold Storage.bind at 1. rewrite load_entries_spec.
  cbn -[String.prefix Storage.cleanup filter Storage.replay].
  rewrite omap_entry_filter. fold (Storage.stored_entries s).
  destruct (map Storage.row_filename _) as [|f fs] eqn:E.
  - done.
  - unfold Storage.bind. rewrite cleanup_spec. cbn. by rewrite app_nil_r.
Qed.

Lemma replay_remove_db (names : list string) s r :
  r ∈ Storage.db (Storage.replay (map Storage.DbRemove names) s)
  <-> r ∈ Storage.db s /\ Storage.row_name r ∉ names.
Proof.
  revert s. induction names as [|n names IH]; intros s; cbn.
  - split; [intros Hr; split; [done | apply not_elem_of_nil] | by intros [? _]].
  - unfold Storage.replay in IH. rewrite IH. cbn.
    rewrite list_elem_of_filter, not_elem_of_cons. tauto.
Qed.

(** What the self-healing leaves in the index: [_cleanup] is handed file
    names and removes the rows whose name is one of them, so a row stays,
    stale or not, unless its name is the file name of some row. *)
Lemma load_data_keeps_rows p s r :
  r ∈ Storage.db s ->
  (forall r', r' ∈ Storage.db s -> Storage.row_filename r' <> Storage.row_name r) ->
  r ∈ Storage.db (Storage.state_of (Storage.load_data p) s).
Proof.
  intros Hr Hname. unfold Storage.state_of. rewrite load_data_spec. cbn -[filter].
  apply replay_remove_db. split; [done|].
  intros Hin. apply list_elem_of_fmap in Hin as (r' & Heq & Hr').
  apply list_elem_of_filter in Hr' as [_ Hr'].
  apply list_elem_of_filter in Hr' as [_ Hr'].
  by apply (Hname r' Hr').
Qed.

Lemma no_dangling_entries s :
  Storage.no_dangling s ->
  map fst (Storage.stored_entries s) = map Storage.row_name (Storage.db s).
Proof.
  unfold Storage.no_dangling, Storage.stored_entries.
  induction (Storage.db s) as [|r rows IH]; intros Hnd; [done|]. cbn.
  destruct (Hnd r) as [c Hc]; [by left|].
  unfold Storage.entry_of at 1. rewrite Hc. cbn. f_equal.
  apply IH. intros r' Hr'. apply Hnd. by right.
Qed.

Lemma no_dangling_load p s :
  Storage.no_dangling s ->
  Storage.load_data p s =
    (Return (filter (fun e => String.prefix p (fst e) = true) (Storage.stored_entries s)),
     s, []).
Proof.
  intros Hnd. rewrite load_data_spec. cbv zeta.
  assert (filter (fun r => Storage.entry_of s r = None)
            (filter (fun r => String.prefix p (Storage.row_name r) = true) (Storage.db s))
          = []) as ->; [|done].
  apply elem_of_nil_inv. intros r Hr.
  apply list_elem_of_filter in Hr as [Hnone Hr].
  apply list_elem_of_filter in Hr as [_ Hr].
  destruct (Hnd r Hr) as [c Hc]. unfold Storage.entry_of in Hnone.
  by rewrite Hc in Hnone.
Qed.

(** [store_data] keeps the index free of dangling rows. *)
Lemma store_data_no_dangling n B s :
  Storage.no_dangling s ->
  Storage.no_dangling (Storage.state_of (Storage.store_data sha1_hexdigest n B) s).
Proof.
  intros Hnd. unfold Storage.state_of.
  destruct (decide (n ∈ Storage.stored_names s)) as [Hin|Hnot].
  - by rewrite store_data_taken.
  - rewrite store_data_fresh by done. cbn.
    destruct (Storage.blob_directory s !! sha1_hexdigest B) as [c|] eqn:E; cbn;
      intros r Hr; cbn in *; apply elem_of_app in Hr as [Hr|Hr].
    + by apply Hnd.
    + apply list_elem_of_singleton in Hr as ->. cbn. eauto.
    + destruct (decide (Storage.row_filename r = sha1_hexdigest B)) as [->|Hne].
      * rewrite lookup_insert_eq. eauto.
      * rewrite lookup_insert_ne by done. by apply Hnd.
    + apply list_elem_of_singleton in Hr as ->. cbn. rewrite lookup_insert_eq. eauto.
Qed.


(** C8. After a successful [store_data(n, B)] on a store without dangling
    rows (no blob file was deleted behind its back) and in which the file
    named by the digest of [B], if present, holds [B] (no digest collision),
    [load_data(p)] includes [(n, B)] for every prefix [p] of [n]; and for
    every [p], [load_data(p)] returns exactly the stored entries whose name
    starts with [p], in index order, changing nothing; every index row is
    among the stored entries. *)
Theorem load_data_round_trip_and_prefix n B s :
  Storage.no_dangling s ->
  (forall B', Storage.blob_directory s !! sha1_hexdigest B = Some B' -> B' = B) ->
  Storage.result_of (Storage.store_data sha1_hexdigest n B) s = Return tt ->
  let s' := Storage.state_of (Storage.store_data sha1_hexdigest n B) s in
  (forall p, String.prefix p n = true ->
     exists l, Storage.load_data p s' = (Return l, s', []) /\ (n, B) ∈ l)
  /\ (forall p, Storage.load_data p s' =
        (Return (filter (fun e => String.prefix p (fst e) = true)
                   (Storage.stored_entries s')), s', []))
  /\ map fst (Storage.stored_entries s') = map Storage.row_name (Storage.db s').
Proof.
  intros Hnd Hcol Hok s'.
  assert (Storage.no_dangling s') as Hnd' by by apply store_data_no_dangling.
  assert (n ∉ Storage.stored_names s) as Hfresh.
  { intros Hin. unfold Storage.result_of in Hok.
    by rewrite store_data_taken in Hok. }
  assert ((n, B) ∈ Storage.stored_entries s') as Hstored.
  { apply list_elem_of_omap. exists (Storage.Row n (sha1_hexdigest B)).
    subst s'. unfold Storage.state_of, Storage.entry_of.
    rewrite store_data_fresh by done. cbn.
    destruct (Storage.blob_directory s !! sha1_hexdigest B) as [c|] eqn:E; cbn.
    - rewrite E. rewrite (Hcol c eq_refl).
      split; [apply elem_of_app; right; by left | done].
    - rewrite lookup_insert_eq.
      split; [apply elem_of_app; right; by left | done]. }
  split; [|split].
  - intros p Hp. eexists. split; [by apply no_dangling_load|].
    apply list_elem_of_filter. done.
  - intros p. by apply no_dangling_load.
  - by apply no_dangling_entries.
Qed.

End StorageProperties.

Lemma load_data_round_trip_witness :
  let s' := Storage.state_of
              (Storage.store_data toy_digest "a/b" [x68; x69])
              Storage.empty in
  (forall p, String.prefix p "a/b" = true ->
     exists l, Storage.load_data p s' = (Return l, s', [])
               /\ ("a/b", [x68; x69]) ∈ l)
  /\ (forall p, Storage.load_data p s' =
        (Return (filter (fun e => String.prefix p (fst e) = true)
                   (Storage.stored_entries s')), s', []))
  /\ map fst (Storage.stored_entries s') = map Storage.row_name (Storage.db s').
Proof.
  apply (load_data_round_trip_and_prefix toy_digest "a/b"
           [x68; x69] Storage.empty).
  - intros r Hr. cbn in Hr. by apply elem_of_nil in Hr.
  - intros B' HB'. cbn in HB'. by rewrite lookup_empty in HB'.
  - vm_compute. reflexivity.
Defined.

(** C8 as worded, with no condition on the blob files that are present,
    does not hold on [store_with_short_blob]: no index row lacks its file
    and nothing is deleted, [store_data("a", hi)] returns without writing,
    since a file named by the digest already exists, and then
    [load_data("a")] returns the pair of ["a"] and the bytes of that file,
    which are not the bytes stored. *)
Lemma existing_blob_is_not_rewritten :
  let run := Storage.store_data toy_digest "a" [x68; x69] in
  let s' := Storage.state_of run store_with_short_blob in
  Storage.db store_with_short_blob = []
  /\ Storage.result_of run store_with_short_blob = Return tt
  /\ Storage.blob_directory s' = Storage.blob_directory store_with_short_blob
  /\ Storage.load_data "a" s' = (Return [("a", [x68])], s', []).
Proof. repeat split; vm_compute; reflexivity. Qed.

(** C1, on the store [stale_store]: the row ["a"] names a blob file that no
    longer exists.  [load_data("a")] returns nothing and [copy_to_file("a", _)]
    raises [NoSuchNameError("a")], whatever the operating system would
    answer a copy, but in both the call to [_cleanup] asks the database to
    remove the rows whose name is the missing file name, and the stale row
    is still in the index afterwards. *)
Theorem stale_entry_survives_read (os_error : Storage.effect -> option exn) :
  Storage.load_data "a" stale_store =
    (Return [], stale_store, [Storage.DbRemove digest_of_empty])
  /\ Storage.copy_to_file os_error "a" ["tmp"; "out"] stale_store =
       (Raise (NoSuchNameError "a"), stale_store, [Storage.DbRemove digest_of_empty]).
Proof. split; vm_compute; reflexivity. Qed.

(** ** [BundleData.dictify] *)

Section Dictify.

Variable packb : Messages.heap -> nat -> bytes.

Implicit Types (d : Messages.pydict) (h : Messages.heap) (k : string).

Lemma strip_lookup k k' d :
  strip k d !! k' =
    if decide (k = k') then
      match d !! k' with
      | Some v => if Messages.is_default k' v then None else Some v
      | None => None
      end
    else d !! k'.
Proof.
  unfold strip. destruct (decide (k = k')) as [->|Hne].
  - destruct (d !! k') as [v|] eqn:E; [|by rewrite E].
    destruct (Messages.is_default k' v); [by rewrite lookup_delete_eq | by rewrite E].
  - destruct (d !! k) as [v|]; [|done].
    destruct (Messages.is_default k v); [by rewrite lookup_delete_ne | done].
Qed.

Lemma del_if_strip (cond : Messages.pyval -> bool) (self : nat) k h d :
  h !! self = Some d ->
  is_Some (d !! k) ->
  (forall v, cond v = Messages.is_default k v) ->
  Messages.del_if cond self self k h = (Return tt, <[self := strip k d]> h).
Proof.
  intros Hself [v Hv] Hcond.
  unfold Messages.del_if, Messages.getattr, Messages.delitem, strip.
  rewrite Hself, Hv, Hcond.
  destruct (Messages.is_default k v); [done|]. by rewrite insert_id.
Qed.

(** [dictify] on an object whose instance dictionary holds the four
    optional fields. *)
Lemma dictify_spec (self : nat) h d :
  h !! self = Some d ->
  Forall (fun k => is_Some (d !! k)) optional_fields ->
  Messages.dictify self h = (Return self, <[self := without_defaults d]> h).
Proof.
  intros Hself Hopt.
  apply Forall_cons in Hopt as [H1 Hopt]. apply Forall_cons in Hopt as [H2 Hopt].
  apply Forall_cons in Hopt as [H3 Hopt]. apply Forall_cons in Hopt as [H4 _].
  set (d1 := strip "payload" d).
  set (d2 := strip "node_type" d1).
  set (d3 := strip "submitter" d2).
  set (d4 := strip "named_data" d3).
  assert (is_Some (d1 !! "node_type")) as H2'.
  { subst d1. by rewrite strip_lookup. }
  assert (is_Some (d2 !! "submitter")) as H3'.
  { subst d2 d1. by rewrite !strip_lookup. }
  assert (is_Some (d3 !! "named_data")) as H4'.
  { subst d3 d2 d1. by rewrite !strip_lookup. }
  unfold Messages.dictify.
  rewrite (del_if_strip _ self "payload" h d Hself H1) by done.
  rewrite (del_if_strip _ self "node_type" _ d1 (lookup_insert_eq _ _ _) H2') by done.
  rewrite insert_insert_eq.
  rewrite (del_if_strip _ self "submitter" _ d2 (lookup_insert_eq _ _ _) H3') by done.
  rewrite insert_insert_eq.
  rewrite (del_if_strip _ self "named_data" _ d3 (lookup_insert_eq _ _ _) H4') by done.
  rewrite insert_insert_eq. fold d4.
  do 2 f_equal. apply map_eq. intros k.
  unfold without_defaults. rewrite map_lookup_filter.
  subst d4 d3 d2 d1. rewrite !strip_lookup. cbn.
  destruct (d !! k) as [v|] eqn:E; cbn.
  - unfold Messages.is_default.
    repeat (case_decide; subst; try done; cbn);
      repeat match goal with
        | |- context [if ?b then _ else _] => destruct b eqn:?; cbn; try done
        | |- context [guard ?P] => case_guard; cbn; try done
        end.
  - repeat (case_decide; subst; try done).
Qed.


Lemma to_dict_optional (b : BundleData.t) :
  Forall (fun k => is_Some (Messages.to_dict b !! k)) optional_fields.
Proof.
  unfold optional_fields, Messages.to_dict.
  repeat (apply Forall_cons; split); try apply Forall_nil; by simplify_map_eq.
Qed.

Lemma without_defaults_lookup d k :
  without_defaults d !! k =
    match d !! k with
    | Some v => if Messages.is_default k v then None else Some v
    | None => None
    end.
Proof.
  unfold without_defaults. rewrite map_lookup_filter.
  destruct (d !! k) as [v|]; cbn; [|done].
  destruct (Messages.is_default k v); case_guard; cbn; done.
Qed.

(** C10. For a bundle [b] as its constructor built it, at address [self]:
    [dictify] returns the instance dictionary itself (the same address) after
    deleting from it every optional field that holds its default, so the
    object has lost these entries; [serialize] does the same and packs what
    is left, whether it is handed the bundle itself or a [BundleCreate]
    message that wraps it.  An empty [payload], a zero [node_type], a [None] [submitter]
    and a [None] [named_data] are each deleted; every entry that is not a
    default-valued optional field keeps its value. *)
Theorem dictify_deletes_default_fields (b : BundleData.t) (self : nat) h :
  h !! self = Some (Messages.to_dict b) ->
  let d := Messages.to_dict b in
  let d' := without_defaults d in
  Messages.dictify self h = (Return self, <[self := d']> h)
  /\ Messages.serialize packb Messages.dictify self h =
       (Return (packb (<[self := d']> h) self), <[self := d']> h)
  /\ (forall message, h !! message = Some (Messages.BundleCreate_dict self) ->
        let run := Messages.serialize packb Messages.BundleCreate_dictify message h in
        returned (fst run) = true /\ snd run !! self = Some d')
  /\ (BundleData.payload b = [] -> d' !! "payload" = None)
  /\ (BundleData.node_type b = 0%Z -> d' !! "node_type" = None)
  /\ (BundleData.submitter b = None -> d' !! "submitter" = None)
  /\ (BundleData.named_data b = NdNone -> d' !! "named_data" = None)
  /\ (forall k v, d !! k = Some v -> Messages.is_default k v = false ->
        d' !! k = Some v).
Proof.
  intros Hself d d'.
  assert (Messages.dictify self h = (Return self, <[self := d']> h)) as Hd.
  { apply dictify_spec; [done | apply to_dict_optional]. }
  split; [done|]. split.
  { unfold Messages.serialize. by rewrite Hd. }
  split.
  { intros message Hmsg.
    assert (message <> self) as Hne.
    { intros ->. rewrite Hself in Hmsg.
      assert (Messages.to_dict b !! "bundle"
              = Messages.BundleCreate_dict self !! "bundle") as Hb by congruence.
      revert Hb. unfold Messages.to_dict, Messages.BundleCreate_dict.
      by simplify_map_eq. }
    unfold Messages.serialize, Messages.BundleCreate_dictify, Messages.Message_dictify.
    rewrite Hmsg. cbn.
    assert (Messages.BundleCreate_dict self !! "bundle" = Some (Messages.PyRef self))
      as -> by (unfold Messages.BundleCreate_dict; by simplify_map_eq).
    rewrite Hd. rewrite lookup_insert_ne by done. rewrite Hmsg. cbn.
    split; [done|]. rewrite lookup_insert_ne; [by rewrite lookup_insert_eq|].
    intros Hfresh. apply (is_fresh (dom (<[self := d']> h))).
    rewrite Hfresh. apply elem_of_dom. rewrite lookup_insert_eq. eauto. }
  subst d' d. repeat split.
  - intros Hb. rewrite without_defaults_lookup. unfold Messages.to_dict.
    rewrite Hb. by simplify_map_eq.
  - intros Hb. rewrite without_defaults_lookup. unfold Messages.to_dict.
    rewrite Hb. by simplify_map_eq.
  - intros Hb. rewrite without_defaults_lookup. unfold Messages.to_dict.
    rewrite Hb. by simplify_map_eq.
  - intros Hb. rewrite without_defaults_lookup. unfold Messages.to_dict.
    rewrite Hb. by simplify_map_eq.
  - intros k v Hk Hv. rewrite without_defaults_lookup. by rewrite Hk, Hv.
Qed.

(** Serializing the same bundle a second time: the attribute deleted by
    the first call is read from the class, found default again, and the
    second [del] raises. *)
Lemma dictify_twice_raises (b : BundleData.t) (self : nat) h :
  h !! self = Some (Messages.to_dict b) ->
  BundleData.payload b = [] ->
  let h1 := snd (Messages.dictify self h) in
  Messages.dictify self h1 = (Raise (KeyError "payload"), h1).
Proof.
  intros Hself Hb h1. subst h1.
  rewrite (dictify_spec self h _ Hself (to_dict_optional b)). cbn.
  unfold Messages.dictify, Messages.del_if, Messages.getattr, Messages.delitem.
  rewrite lookup_insert_eq.
  assert (without_defaults (Messages.to_dict b) !! "payload" = None) as ->.
  { rewrite without_defaults_lookup. unfold Messages.to_dict.
    rewrite Hb. by simplify_map_eq. }
  done.
Qed.

End Dictify.

Lemma dictify_deletes_default_fields_witness :
  let b := announce_from "dtn://broker1/" in
  let h : Messages.heap := {[ 0 := Messages.to_dict b ]} in
  let d' := without_defaults (Messages.to_dict b) in
  Messages.dictify 0 h = (Return 0, <[0 := d']> h)
  /\ d' !! "payload" = None
  /\ d' !! "node_type" = Some (Messages.PyInt NodeType.BROKER).
Proof.
  pose proof (dictify_deletes_default_fields (fun _ _ => [])
                (announce_from "dtn://broker1/") 0
                {[ 0 := Messages.to_dict (announce_from "dtn://broker1/") ]}
                (lookup_singleton_eq _ _)) as (H1 & _ & _ & H3 & _ & _ & _ & H7).
  split; [exact H1|]. split; [by apply H3|]. by apply H7.
Defined.

(** ** The discovery handler *)

Section Discovery.

Implicit Types (self : Node.t) (bundle : BundleData.t) (X : EID).

Lemma handle_announce_fresh self bundle :
  Node.broker_pending self = None ->
  Node.broker self = None ->
  BundleData.type bundle = BundleType.BROKER_ANNOUNCE ->
  Node.handle_discovery bundle self =
    ([broker_request self (BundleData.source bundle)],
     Node.Make (Node.node_id self) (Node.node_type self)
       (Some (BundleData.source bundle)) None).
Proof.
  intros Hp Hb Hty. unfold Node.handle_discovery. by rewrite Hty, Hp, Hb.
Qed.

Lemma handle_ack self bundle :
  BundleData.type bundle = BundleType.BROKER_ACK ->
  Node.handle_discovery bundle self =
    ([], if bool_decide (Node.broker_pending self = Some (BundleData.source bundle))
         then Node.Make (Node.node_id self) (Node.node_type self) None
                (Some (BundleData.source bundle))
         else self).
Proof.
  intros Hty. unfold Node.handle_discovery. rewrite Hty. cbn.
  by case_bool_decide.
Qed.

(** C6. A node with both slots empty that handles [BROKER_ANNOUNCE] from [X]
    makes [X] its pending broker and answers with exactly one
    [BROKER_REQUEST] addressed to [X] that carries its own node type.  When
    it then handles a [BROKER_ACK], it emits nothing; an acknowledgement
    from [X] makes [X] its broker and empties the pending slot, one from
    anybody else leaves the node as it was. *)
Theorem discovery_handshake self (announce ack : BundleData.t) :
  Node.broker_pending self = None ->
  Node.broker self = None ->
  BundleData.type announce = BundleType.BROKER_ANNOUNCE ->
  BundleData.type ack = BundleType.BROKER_ACK ->
  let X := BundleData.source announce in
  let step1 := Node.handle_discovery announce self in
  let step2 := Node.handle_discovery ack (snd step1) in
  fst step1 = [broker_request self X]
  /\ Node.broker_pending (snd step1) = Some X
  /\ Node.broker (snd step1) = None
  /\ fst step2 = []
  /\ (BundleData.source ack = X ->
        Node.broker (snd step2) = Some X /\ Node.broker_pending (snd step2) = None)
  /\ (BundleData.source ack <> X -> snd step2 = snd step1).
Proof.
  intros Hp Hb Hann Hack X step1 step2. subst step2 step1 X.
  rewrite (handle_announce_fresh self announce Hp Hb Hann). cbn.
  rewrite (handle_ack _ ack Hack). cbn.
  do 4 (split; [done|]). split; intros HX.
  - rewrite bool_decide_eq_true_2 by (by rewrite HX). cbn. by rewrite HX.
  - rewrite bool_decide_eq_false_2 by congruence. done.
Qed.

Lemma discovery_handshake_witness :
  let self := executor_node in
  let announce := announce_from "dtn://broker1/" in
  let ack := ack_from "dtn://broker1/" in
  let X := BundleData.source announce in
  let step1 := Node.handle_discovery announce self in
  let step2 := Node.handle_discovery ack (snd step1) in
  fst step1 = [broker_request self X]
  /\ Node.broker_pending (snd step1) = Some X
  /\ Node.broker (snd step1) = None
  /\ fst step2 = []
  /\ (BundleData.source ack = X ->
        Node.broker (snd step2) = Some X /\ Node.broker_pending (snd step2) = None)
  /\ (BundleData.source ack <> X -> snd step2 = snd step1).
Proof.
  apply (discovery_handshake executor_node (announce_from "dtn://broker1/")
           (ack_from "dtn://broker1/")); reflexivity.
Defined.

(** In a reachable state at most one of the two slots is set. *)
Lemma reachable_one_slot self :
  Node.reachable self ->
  Node.broker_pending self = None \/ Node.broker self = None.
Proof.
  induction 1 as [id nt b | bundle self Hreach IH]; [by left|].
  unfold Node.handle_discovery.
  destruct (BundleData.type bundle =? BundleType.BROKER_ANNOUNCE)%Z.
  - destruct (bool_decide (Node.broker_pending self = None)) eqn:E1;
      destruct (bool_decide (Node.broker self = None)) eqn:E2; cbn; try done.
    right. by apply bool_decide_eq_true_1 in E2.
  - destruct (BundleData.type bundle =? BundleType.BROKER_ACK)%Z; [|done].
    case_bool_decide; cbn; [by left | done].
Qed.

(** Once the broker slot is set, a reachable node ignores every bundle. *)
Lemma associated_ignores self X bundle :
  Node.reachable self -> Node.broker self = Some X ->
  Node.handle_discovery bundle self = ([], self).
Proof.
  intros Hreach HX.
  destruct (reachable_one_slot self Hreach) as [Hp|Hb]; [|congruence].
  unfold Node.handle_discovery. rewrite Hp, HX.
  destruct (BundleData.type bundle =? BundleType.BROKER_ANNOUNCE)%Z; [done|].
  destruct (BundleData.type bundle =? BundleType.BROKER_ACK)%Z; done.
Qed.

(** C7. In a reachable state whose broker slot holds [X], handling any
    sequence of bundles, of whatever type and source, emits no response and
    leaves the node as it is, so its broker is still [X]; and whatever a
    reachable node handles, its broker slot either keeps its value or was
    empty: the slot is written once, when it is empty, and never again. *)
Theorem association_monotone self :
  Node.reachable self ->
  (forall X (bundles : list BundleData.t),
      Node.broker self = Some X ->
      Node.handle_all bundles self = ([], self)
      /\ Node.broker (snd (Node.handle_all bundles self)) = Some X)
  /\ (forall bundle,
        Node.broker (snd (Node.handle_discovery bundle self)) = Node.broker self
        \/ Node.broker self = None).
Proof.
  intros Hreach. split.
  - intros X bundles HX.
    assert (Node.handle_all bundles self = ([], self)) as Hall.
    { induction bundles as [|b bundles IH]; [done|]. cbn.
      rewrite (associated_ignores self X b Hreach HX). by rewrite IH. }
    by rewrite Hall.
  - intros bundle. destruct (Node.broker self) as [X|] eqn:HX; [left | by right].
    by rewrite (associated_ignores self X bundle Hreach HX).
Qed.

Lemma associated_node_reachable : Node.reachable associated_node.
Proof.
  unfold associated_node. do 2 apply Node.reachable_step. apply Node.reachable_init.
Defined.

Lemma association_monotone_witness :
  (forall X (bundles : list BundleData.t),
      Node.broker associated_node = Some X ->
      Node.handle_all bundles associated_node = ([], associated_node)
      /\ Node.broker (snd (Node.handle_all bundles associated_node)) = Some X)
  /\ (forall bundle,
        Node.broker (snd (Node.handle_discovery bundle associated_node))
        = Node.broker associated_node
        \/ Node.broker associated_node = None).
Proof.
  apply (association_monotone associated_node). apply associated_node_reachable.
Defined.

(** The associated executor hears from a second broker and once more from
    its own: nothing is sent, nothing changes. *)
Example association_monotone_run :
  Node.broker associated_node = Some "dtn://broker1/"
  /\ Node.handle_all
       [announce_from "dtn://broker2/"; ack_from "dtn://broker2/";
        ack_from "dtn://broker1/"] associated_node
     = ([], associated_node).
Proof. split; reflexivity. Qed.

End Discovery.

(** ** The executor's intake and scheduler *)

Section Scheduler.

Variable sha1_hexdigest : bytes -> string.
Variable from_system : Capabilities.

Implicit Types (self : Executor.t) (job j : JobInfo) (st : Storage.t).

Lemma runnable_true job st :
  is_runnable from_system st job ->
  Executor.runnable from_system job st = (Return true, st, []).
Proof.
  intros [Hmiss Hcap]. unfold Storage.result_of in Hmiss.
  rewrite find_missing_spec in Hmiss. cbn in Hmiss. injection Hmiss as Hmiss.
  unfold Executor.runnable, Executor.job_has_all_inputs, Storage.bind.
  rewrite find_missing_spec. cbn. rewrite Hmiss, size_empty. cbn.
  unfold Storage.ret, Executor.system_can_run. by rewrite Hcap.
Qed.

Lemma runnable_false job st :
  ~ is_runnable from_system st job ->
  Executor.runnable from_system job st = (Return false, st, []).
Proof.
  intros Hnot.
  unfold Executor.runnable, Executor.job_has_all_inputs, Storage.bind.
  rewrite find_missing_spec. cbn.
  set (missing := required_named_data job ∖ Storage.stored_names st).
  destruct (decide (missing = ∅)) as [He|Hne].
  - rewrite He, size_empty. cbn. unfold Storage.ret, Executor.system_can_run.
    destruct (is_capable_of from_system (capabilities job)) eqn:Hcap; [|done].
    exfalso. apply Hnot. split; [|done].
    unfold Storage.result_of. rewrite find_missing_spec. cbn. by fold missing; rewrite He.
  - rewrite bool_decide_eq_false_2; [done|].
    intros Hz. apply size_empty_inv in Hz. apply Hne. by apply leibniz_equiv.
Qed.

Lemma with_pending_storage self q :
  Executor.with_storage (Executor.with_pending self q)
    (Executor.storage (Executor.with_pending self q))
  = Executor.with_pending self q.
Proof. by destruct self. Qed.

(** The scan passes over a non-runnable head: it is moved to the tail. *)
Lemma pop_loop_skip (pre : list JobInfo) :
  forall q self examined n,
    Executor.pending_jobs self = pre ++ q ->
    Forall (fun j => ~ is_runnable from_system (Executor.storage self) j) pre ->
    Executor.pop_loop from_system (length pre + n) self examined =
    Executor.pop_loop from_system n (Executor.with_pending self (q ++ pre))
      (examined ++ pre).
Proof.
  induction pre as [|j pre IH]; intros q self examined n Hq Hpre.
  - cbn. rewrite !app_nil_r. cbn in Hq. rewrite <- Hq. by destruct self.
  - apply Forall_cons in Hpre as [Hj Hpre]. cbn [length Nat.add Executor.pop_loop].
    rewrite Hq. cbn [app].
    rewrite runnable_false by (destruct self; exact Hj).
    rewrite with_pending_storage.
    rewrite (IH (q ++ [j]) _ (examined ++ [j]) n).
    + destruct self; cbn. by rewrite <- !app_assoc.
    + destruct self; cbn. by rewrite <- app_assoc.
    + by destruct self.
Qed.

(** C5. [_pop_next_runnable_job] takes jobs from the head of the deque, at
    most once each.  When the deque is [pre ++ j :: post] with [j] runnable
    and no job of [pre] runnable, it returns [j], having examined exactly
    [pre] and [j], and leaves the deque [post ++ pre]: the jobs ahead of [j]
    are at the tail, in their order, and only [j] is gone.  When no job is
    runnable it returns [None] after examining each job once, and the
    executor, its deque included, is as before. *)
Theorem pop_next_runnable_job_fifo self :
  (forall pre j post,
      Executor.pending_jobs self = pre ++ j :: post ->
      Forall (fun x => ~ is_runnable from_system (Executor.storage self) x) pre ->
      is_runnable from_system (Executor.storage self) j ->
      Executor.pop_next_runnable_job from_system self =
        (Return (Some j), Executor.with_pending self (post ++ pre), pre ++ [j]))
  /\ (Forall (fun x => ~ is_runnable from_system (Executor.storage self) x)
        (Executor.pending_jobs self) ->
      Executor.pop_next_runnable_job from_system self =
        (Return None, self, Executor.pending_jobs self)).
Proof.
  unfold Executor.pop_next_runnable_job. split.
  - intros pre j post Hq Hpre Hj. rewrite Hq, length_app. cbn [length].
    rewrite (pop_loop_skip pre (j :: post) self [] (S (length post)) Hq Hpre).
    cbn [Executor.pop_loop app]. destruct self as [nd st q nt]; cbn in *.
    rewrite runnable_true by done. done.
  - intros Hall.
    rewrite <- (Nat.add_0_r (length (Executor.pending_jobs self))).
    rewrite (pop_loop_skip (Executor.pending_jobs self) [] self [] 0);
      [| by rewrite app_nil_r | done].
    cbn. by destruct self.
Qed.

(** [_handle_data] on a bundle whose name is already in the index. *)
Lemma handle_data_name_taken self (bundle : BundleData.t) (name : string) :
  BundleData.named_data bundle = NdStr name ->
  name ∈ Storage.stored_names (Executor.storage self) ->
  Executor.handle_data sha1_hexdigest bundle self =
    (Raise (NameTakenError name), self).
Proof.
  intros Hnd Hin. unfold Executor.handle_data. rewrite Hnd. cbn.
  unfold Storage.bind. rewrite store_data_taken by done. by destruct self.
Qed.

End Scheduler.

(** The scan on [executor_with_databin]: the first job lacks its module
    and goes to the tail, the second is returned, the third is not examined. *)
Example pop_next_runnable_job_run :
  Executor.pop_next_runnable_job one_core executor_with_databin =
    (Return (Some (job_for "databin")),
     Executor.with_pending executor_with_databin
       [job_for "absent2"; job_for "absent1"],
     [job_for "absent1"; job_for "databin"]).
Proof. vm_compute. reflexivity. Qed.

(** C5 as worded, the earliest-admitted runnable job, does not hold once
    a pop has rotated the deque.  Jobs are appended at the tail, so the
    deque of [executor_with_databin] is in the order of admission:
    ["absent1"] before ["databin"] before ["absent2"].  The first pop
    returns ["databin"] and leaves ["absent2"] ahead of ["absent1"]; then
    the data of both arrives, both are runnable, and the next pop returns
    ["absent2"], admitted last. *)
Lemma rotated_job_loses_its_turn :
  let first := Executor.pop_next_runnable_job one_core executor_with_databin in
  let self1 := snd (fst first) in
  let arrived := Executor.handle_data toy_digest late_bundle self1 in
  let self2 := snd arrived in
  Executor.pending_jobs executor_with_databin
    = [job_for "absent1"; job_for "databin"; job_for "absent2"]
  /\ fst (fst first) = Return (Some (job_for "databin"))
  /\ Executor.pending_jobs self1 = [job_for "absent2"; job_for "absent1"]
  /\ fst arrived = Return tt
  /\ Storage.result_of (Executor.runnable one_core (job_for "absent1"))
       (Executor.storage self2) = Return true
  /\ fst (fst (Executor.pop_next_runnable_job one_core self2))
     = Return (Some (job_for "absent2")).
Proof. repeat split; vm_compute; reflexivity. Qed.

(** C3, on [executor_with_databin]: when a datastore's [NDATA_GET] answer
    carries the name ["databin"] that the store already holds,
    [_handle_data] raises [NameTakenError("databin")] out of the handler
    and never reaches [notify_all]; the state, stored bytes included, is
    unchanged. *)
Theorem redelivered_data_raises :
  Executor.handle_data toy_digest redelivered_bundle executor_with_databin =
    (Raise (NameTakenError "databin"), executor_with_databin)
  /\ Executor.notified
       (snd (Executor.handle_data toy_digest redelivered_bundle executor_with_databin))
     = Executor.notified executor_with_databin
  /\ Storage.load_data "databin" (Executor.storage executor_with_databin) =
       (Return [("databin", [x68; x69])], Executor.storage executor_with_databin, []).
Proof. repeat split; vm_compute; reflexivity. Qed.

(** ** The path-escape defense *)

Section PathEscape.

Variable resolve : path -> path.
Variable resolve_error : path -> option exn.
Variable os_error : Storage.effect -> option exn.
Variable base_dir : path.

Local Abbreviation data_dir := (resolve (base_dir ++ ["data"])).
Local Abbreviation escaping := (escapes resolve resolve_error data_dir).
Local Abbreviation within := (inside resolve resolve_error data_dir).
Local Abbreviation absolute := (sandbox_path resolve data_dir).

Local Abbreviation ok := (allowed resolve resolve_error base_dir).
Local Abbreviation staged := (stage resolve resolve_error os_error base_dir).
Local Abbreviation calm := (quiet resolve_error os_error).
Local Abbreviation sober := (no_value_error resolve_error os_error).
Local Abbreviation resolved := (Executor.resolved resolve resolve_error).

Implicit Types (s : Storage.t) (ps ns : list string) (e : Storage.effect).

Ltac stage_split := split; [|split; [|split; [|split]]].

Lemma within_not_escaping (p : string) : within p -> ~ escaping p.
Proof. intros [_ Hin] [_ Hout]. congruence. Qed.

Lemma allowed_mono ps ps' e :
  (forall p, p ∈ ps -> p ∈ ps') -> ok ps e -> ok ps' e.
Proof.
  intros Hsub Hall q Hq. destruct (Hall q Hq) as [?|(p & ? & ? & ?)]; [by left|].
  right. exists p. auto.
Qed.

Lemma stage_weaken {A} (m : Storage.io A) ps ns ps' ns' s :
  staged m ps ns s ->
  (forall p, p ∈ ps <-> p ∈ ps') ->
  (forall n, n ∈ ns -> n ∈ ns') ->
  staged m ps' ns' s.
Proof.
  intros (HE & HR & HV & HA & HA2) Hps Hns. stage_split.
  - intros e He. eapply allowed_mono; [|by apply HE]. intros p. apply Hps.
  - intros Hret. destruct (HR Hret) as [Hs Hok]. split; [done|].
    intros p Hp. apply Hok. by apply Hps.
  - intros Hsober msg Hmsg. destruct (HV Hsober msg Hmsg) as (p & Hp & Hesc).
    exists p. split; [by apply Hps | done].
  - intros Hcalm Hav. apply HA; [done|]. intros n Hn. apply Hav. by apply Hns.
  - intros Hcalm Hav Hok. apply HA2; [done| |].
    + intros n Hn. apply Hav. by apply Hns.
    + intros p Hp. apply Hok. by apply Hps.
Qed.

Lemma stage_ret {A} (a : A) s : staged (Storage.ret a) [] [] s.
Proof.
  stage_split; cbn.
  - intros e He. by apply elem_of_nil in He.
  - intros _. split; [done|]. intros p Hp. by apply elem_of_nil in Hp.
  - done.
  - by left.
  - done.
Qed.

Lemma stage_raise {A} (what p : string) s :
  escaping p ->
  staged (Storage.raise (A := A) (Executor.escape_error what p)) [p] [] s.
Proof.
  intros Hesc. stage_split; cbn.
  - intros e He. by apply elem_of_nil in He.
  - done.
  - intros _ msg _. exists p. split; [by left | done].
  - intros _ _. right. by eexists.
  - intros _ _ Hok. exfalso. apply (Hok p); [by left | done].
Qed.

Lemma stage_bind {A B} (m : Storage.io A) (k : A -> Storage.io B)
    ps1 ns1 ps2 ns2 s :
  staged m ps1 ns1 s ->
  (forall a, staged (k a) ps2 ns2 s) ->
  staged (Storage.bind m k) (ps1 ++ ps2) (ns1 ++ ns2) s.
Proof.
  unfold stage, Storage.result_of, Storage.state_of, Storage.log_of, Storage.bind.
  intros (HE & HR & HV & HA & HA2) Hk.
  destruct (m s) as [[r1 s1] l1]. destruct r1 as [a|err]; cbn in *.
  - destruct (HR eq_refl) as [-> Hok1].
    specialize (Hk a). destruct (k a s) as [[r2 s2] l2]; cbn in *.
    destruct Hk as (KE & KR & KV & KA & KA2). stage_split.
    + intros e He. apply elem_of_app in He as [He|He].
      * eapply allowed_mono; [|by apply HE]. intros p Hp. apply elem_of_app. by left.
      * eapply allowed_mono; [|by apply KE]. intros p Hp. apply elem_of_app. by right.
    + intros Hret. destruct (KR Hret) as [Hs Hok2]. split; [done|].
      intros p Hp. apply elem_of_app in Hp as [Hp|Hp]; [by apply Hok1 | by apply Hok2].
    + intros Hsober msg Hmsg. destruct (KV Hsober msg Hmsg) as (p & Hp & Hesc).
      exists p. split; [apply elem_of_app; by right | done].
    + intros Hcalm Hav. apply KA; [done|]. intros n Hn. apply Hav, elem_of_app. by right.
    + intros Hcalm Hav Hok. apply KA2; [done| |].
      * intros n Hn. apply Hav, elem_of_app. by right.
      * intros p Hp. apply Hok, elem_of_app. by right.
  - stage_split.
    + intros e He. eapply allowed_mono; [|by apply HE].
      intros p Hp. apply elem_of_app. by left.
    + done.
    + intros Hsober msg [= ->]. destruct (HV Hsober msg eq_refl) as (p & Hp & Hesc).
      exists p. split; [apply elem_of_app; by left | done].
    + intros Hcalm Hav. right.
      destruct (HA Hcalm) as [?|[msg [= ->]]]; [|done|by exists msg].
      intros n Hn. apply Hav, elem_of_app. by left.
    + intros Hcalm Hav Hok. apply HA2; [done| |].
      * intros n Hn. apply Hav, elem_of_app. by left.
      * intros p Hp. apply Hok, elem_of_app. by left.
Qed.

Lemma stage_for_each {A} (body : A -> Storage.io unit)
    (P N : A -> list string) (xs : list A) s :
  (forall x, staged (body x) (P x) (N x) s) ->
  staged (Storage.for_each xs body) (concat (map P xs)) (concat (map N xs)) s.
Proof.
  intros Hbody. induction xs as [|x xs IH]; cbn.
  - apply stage_ret.
  - apply stage_bind; [apply Hbody | intros _; apply IH].
Qed.

(** Resolving a path: when the call raises, the stage ends there with an
    exception of the operating system. *)
Lemma stage_resolved {B} (q : path) (k : path -> Storage.io B) ps ns s :
  staged (k (resolve q)) ps ns s ->
  staged (Storage.bind (resolved q) k) ps ns s.
Proof.
  unfold stage, Storage.result_of, Storage.state_of, Storage.log_of, Storage.bind,
    Executor.resolved, Executor.try_resolve.
  destruct (resolve_error q) as [err|] eqn:E.
  - intros _. cbn. stage_split.
    + intros e He. by apply elem_of_nil in He.
    + done.
    + intros [Hres _] msg [= ->]. by destruct (Hres q msg).
    + intros [Hres _]. rewrite Hres in E. done.
    + intros [Hres _]. rewrite Hres in E. done.
  - by destruct (k (resolve q) s) as [[r2 s2] l2].
Qed.

Lemma stage_attempt (q : path) ps s :
  (forall p, p ∈ ps -> within p) ->
  ok ps (Storage.Mkdir q) ->
  staged (Storage.attempt os_error (Storage.Mkdir q)) ps [] s.
Proof.
  intros Hok Hall.
  unfold stage, Storage.result_of, Storage.state_of, Storage.log_of, Storage.attempt.
  destruct (os_error (Storage.Mkdir q)) as [err|] eqn:E; cbn; stage_split.
  - intros e He. by apply list_elem_of_singleton in He as ->.
  - done.
  - intros [_ Hos] msg [= ->]. by destruct (Hos (Storage.Mkdir q) msg).
  - intros [_ Hos]. rewrite Hos in E. done.
  - intros [_ Hos]. rewrite Hos in E. done.
  - intros e He. by apply list_elem_of_singleton in He as ->.
  - done.
  - done.
  - by left.
  - done.
Qed.

Lemma copy_to_file_available name (dst : path) s :
  available s name ->
  (forall e, os_error e = None) ->
  exists f, Storage.copy_to_file os_error name dst s
            = (Return tt, s, [Storage.CopyFile f dst]).
Proof.
  unfold available, Storage.copy_to_file, Storage.bind, Storage.db_search_name,
    Storage.source_exists, Storage.blob_exists, Storage.copyfile, Storage.copyfile_error.
  destruct (filter _ (Storage.db s)) as [|r rows]; [done|]. intros [Hne Hblob] Hos.
  rewrite !decide_False by done. cbn.
  rewrite bool_decide_eq_true_2 by done. rewrite Hos. cbn. eauto.
Qed.

(** The three ways [copy_to_file] can end: the copy is made; it raises
    [NoSuchNameError] without creating or writing any path; or the copy
    itself is refused, and nothing is done. *)
Lemma copy_to_file_run name (dst : path) s :
  (exists f, Storage.copy_to_file os_error name dst s
             = (Return tt, s, [Storage.CopyFile f dst]))
  \/ (exists s' l, Storage.copy_to_file os_error name dst s
                   = (Raise (NoSuchNameError name), s', l)
                 /\ forall e, e ∈ l -> touches e = None)
  \/ (exists f err, Storage.copy_to_file os_error name dst s
                     = (Raise err, s, [Storage.Failed (Storage.CopyFile f dst)])
                    /\ Storage.copyfile_error os_error f dst = Some err).
Proof.
  unfold Storage.copy_to_file, Storage.bind, Storage.db_search_name,
    Storage.source_exists, Storage.blob_exists, Storage.copyfile.
  destruct (filter _ (Storage.db s)) as [|r rows]; cbn.
  - right. left. do 2 eexists. split; [done|]. intros e He. by apply elem_of_nil in He.
  - destruct (decide (Storage.row_filename r = "")) as [He|Hne]; cbn.
    + destruct (Storage.copyfile_error os_error (Storage.row_filename r) dst)
        as [err|] eqn:E; cbn.
      * right. right. eauto.
      * left. eauto.
    + case_bool_decide; cbn.
      * destruct (Storage.copyfile_error os_error (Storage.row_filename r) dst)
          as [err|] eqn:E; cbn.
        -- right. right. eauto.
        -- left. eauto.
      * rewrite decide_False by done. cbn.
        right. left. do 2 eexists. split; [done|]. intros e He.
        by apply list_elem_of_singleton in He as ->.
Qed.

Lemma copyfile_error_sober (f : string) (dst : path) msg :
  sober -> Storage.copyfile_error os_error f dst <> Some (ValueError msg).
Proof.
  intros [_ Hos]. unfold Storage.copyfile_error.
  destruct (decide (f = "")); [done | apply Hos].
Qed.

Lemma stage_copy name (dst : path) ps s :
  (forall p, p ∈ ps -> within p) ->
  (forall f, ok ps (Storage.CopyFile f dst)) ->
  staged (Storage.copy_to_file os_error name dst) ps [name] s.
Proof.
  intros Hok Hall.
  unfold stage, Storage.result_of, Storage.state_of, Storage.log_of.
  destruct (copy_to_file_run name dst s)
    as [[f Hrun]|[(s' & l & Hrun & Hl)|(f & err & Hrun & Herr)]].
  - rewrite Hrun. cbn. stage_split.
    + intros e He. by apply list_elem_of_singleton in He as ->.
    + done.
    + done.
    + by left.
    + done.
  - rewrite Hrun. cbn. stage_split.
    + intros e He q Hq. rewrite (Hl e He) in Hq. done.
    + done.
    + done.
    + intros [_ Hos] Hav. destruct (copy_to_file_available name dst s) as [f Hf];
        [apply Hav; by left | done |].
      rewrite Hf in Hrun. done.
    + intros [_ Hos] Hav _. destruct (copy_to_file_available name dst s) as [f Hf];
        [apply Hav; by left | done |].
      rewrite Hf in Hrun. done.
  - rewrite Hrun. cbn. stage_split.
    + intros e He. apply list_elem_of_singleton in He as ->. apply (Hall f).
    + done.
    + intros Hsober msg [= ->]. by destruct (copyfile_error_sober f dst msg).
    + intros [_ Hos] Hav. destruct (copy_to_file_available name dst s) as [f' Hf];
        [apply Hav; by left | done |].
      rewrite Hf in Hrun. done.
    + intros [_ Hos] Hav _. destruct (copy_to_file_available name dst s) as [f' Hf];
        [apply Hav; by left | done |].
      rewrite Hf in Hrun. done.
Qed.

Lemma job_file_allowed (q : path) ps e :
  touches e = Some q -> q ∈ job_files resolve base_dir -> ok ps e.
Proof. intros Hq Hin q' Hq'. left. congruence. Qed.

Lemma concat_map_singleton {A} (f : A -> string) (xs : list A) :
  concat (map (fun x => [f x]) xs) = map f xs.
Proof. induction xs as [|x xs IH]; [done|]. cbn. by rewrite IH. Qed.

Lemma concat_map_nil {A} (xs : list A) :
  concat (map (fun _ => @nil string) xs) = [].
Proof. induction xs as [|x xs IH]; [done|]. cbn. by rewrite IH. Qed.

(** A checked path: its absolute path is computed; the stage raises when
    it escapes, and otherwise runs [act] on it. *)
Lemma stage_checked (what p : string) (act : path -> Storage.io unit) ns s :
  (within p -> staged (act (absolute p)) [p] ns s) ->
  staged (Storage.bind (resolved (path_join data_dir (lstrip_slash p)))
            (fun abs_path =>
               if negb (is_relative_to abs_path data_dir)
               then Storage.raise (Executor.escape_error what p)
               else act abs_path)) [p] ns s.
Proof.
  intros Hact.
  destruct (resolve_error (path_join data_dir (lstrip_slash p))) as [err|] eqn:E.
  - unfold stage, Storage.result_of, Storage.state_of, Storage.log_of, Storage.bind,
      Executor.resolved, Executor.try_resolve. rewrite E. cbn. stage_split.
    + intros e He. by apply elem_of_nil in He.
    + done.
    + intros [Hres _] msg [= ->]. by destruct (Hres _ msg E).
    + intros [Hres _]. rewrite Hres in E. done.
    + intros [Hres _]. rewrite Hres in E. done.
  - apply stage_resolved. fold (absolute p).
    destruct (is_relative_to (absolute p) data_dir) eqn:Hrel; cbn.
    + apply Hact. by split.
    + eapply stage_weaken; [apply (stage_raise what p s); by split | done |].
      intros n Hn. by apply elem_of_nil in Hn.
Qed.

Lemma checked_allowed (p : string) e :
  within p ->
  (touches e = Some (absolute p) \/ touches e = Some (path_parent (absolute p))) ->
  ok [p] e.
Proof.
  intros Hok Hq q Hq'. right. exists p. split; [by left|]. split; [done|].
  destruct Hq as [Hq|Hq]; rewrite Hq in Hq'; injection Hq' as <-; auto.
Qed.

Lemma singleton_ok (p : string) :
  within p -> forall p', p' ∈ [p] -> within p'.
Proof. intros Hok p' Hp'. by apply list_elem_of_singleton in Hp' as ->. Qed.

(** A sandbox path that is optional: [stdout_file] and [stderr_file]. *)
Lemma stage_optional (what : string) (o : option string) s :
  staged
    match truthy o with
    | Some f =>
        Storage.bind (resolved (path_join data_dir (lstrip_slash f)))
          (fun out_path =>
             if negb (is_relative_to out_path data_dir)
             then Storage.raise (Executor.escape_error what f)
             else Storage.attempt os_error (Storage.Mkdir (path_parent out_path)))
    | None => Storage.ret tt
    end (option_list (truthy o)) [] s.
Proof.
  destruct (truthy o) as [f|]; cbn; [|apply stage_ret].
  apply (stage_checked what f
           (fun out_path => Storage.attempt os_error (Storage.Mkdir (path_parent out_path)))).
  intros Hok.
  apply stage_attempt; [by apply singleton_ok|].
  apply checked_allowed; [done | by right].
Qed.

(** The whole of [_prepare_wasi_environment] as one stage. *)
Lemma prepare_stage (job : JobInfo) s :
  staged (Executor.prepare_wasi_environment resolve resolve_error os_error job base_dir)
    (prepared_paths job) (staged_names job) s.
Proof.
  unfold Executor.prepare_wasi_environment.
  eapply stage_weaken.
  - eapply stage_bind.
    { apply stage_attempt; [intros p Hp; by apply elem_of_nil in Hp|].
      eapply job_file_allowed; [done | by left]. }
    intros _. apply stage_resolved. eapply stage_bind.
    { apply stage_copy; [intros p Hp; by apply elem_of_nil in Hp|].
      intros f. eapply job_file_allowed; [done | right; by left]. }
    intros _. eapply (stage_bind _ _ [] (option_list (truthy (stdin_file job)))).
    { destruct (truthy (stdin_file job)) as [name|]; cbn; [|apply stage_ret].
      apply stage_resolved.
      eapply stage_weaken.
      - eapply stage_bind.
        + apply stage_copy; [intros p Hp; by apply elem_of_nil in Hp|].
          intros f. eapply job_file_allowed; [done | right; right; by left].
        + intros _. apply stage_ret.
      - done.
      - cbn. done. }
    intros stdin_path. apply stage_resolved. eapply stage_bind.
    { apply stage_attempt; [intros p Hp; by apply elem_of_nil in Hp|].
      eapply job_file_allowed; [done | do 3 right; by left]. }
    intros _. eapply stage_bind.
    { apply (stage_for_each _ (fun d => [d]) (fun _ => [])).
      intros d.
      apply (stage_checked "Directory path" d
               (fun abs_dir_path => Storage.attempt os_error (Storage.Mkdir abs_dir_path))).
      intros Hok.
      apply stage_attempt; [by apply singleton_ok|].
      apply checked_allowed; [done | by left]. }
    intros _. eapply stage_bind.
    { apply (stage_for_each _ (fun it => [fst it]) (fun it => [snd it])).
      intros [file_path name]. cbn [fst snd].
      apply (stage_checked "Data file path" file_path
               (fun abs_file_path =>
                  Storage.bind
                    (Storage.attempt os_error (Storage.Mkdir (path_parent abs_file_path)))
                    (fun _ => Storage.copy_to_file os_error name abs_file_path))).
      intros Hok.
      eapply stage_weaken.
      - eapply stage_bind.
        + apply stage_attempt; [by apply singleton_ok|].
          apply checked_allowed; [done | by right].
        + intros _. apply stage_copy; [by apply singleton_ok|].
          intros f. apply checked_allowed; [done | by left].
      - intros p. rewrite elem_of_app. tauto.
      - cbn. done. }
    intros _. eapply stage_bind; [apply stage_optional|].
    intros _. eapply stage_bind; [apply stage_optional|].
    intros _. apply stage_ret.
  - intros p. unfold prepared_paths. cbn [app].
    rewrite (concat_map_singleton (fun d => d)), map_id.
    rewrite (concat_map_singleton fst). by rewrite app_nil_r.
  - intros n. unfold staged_names. cbn [app].
    rewrite concat_map_nil. rewrite (concat_map_singleton snd). cbn [app].
    by rewrite !app_nil_r.
Qed.

End PathEscape.

Section Collection.

Variable resolve : path -> path.
Variable resolve_error : path -> option exn.
Variable os_error : Storage.effect -> option exn.
Variable fs : gmap path Executor.fnode.
Variable io_error : path -> option exn.
Variable zip_bytes : list (path * bytes) -> bytes.
Variable base_dir : path.

Local Abbreviation data_dir := (resolve (base_dir ++ ["data"])).
Local Abbreviation escaping := (escapes resolve resolve_error data_dir).
Local Abbreviation within := (inside resolve resolve_error data_dir).
Local Abbreviation absolute := (sandbox_path resolve data_dir).
Local Abbreviation results_loop :=
  (Executor.collect_results_loop resolve resolve_error fs io_error).
Local Abbreviation named_loop :=
  (Executor.collect_named_loop resolve resolve_error fs io_error zip_bytes).
Local Abbreviation add_tree := (Executor.add_tree fs io_error).

Lemma relative_to_prefix (p base : path) :
  base `prefix_of` p -> relative_to p base = Some (drop (length base) p).
Proof.
  intros Hpre. unfold relative_to, is_relative_to.
  by rewrite bool_decide_eq_true_2.
Qed.

Lemma rglob_below (p q : path) : q ∈ Executor.rglob fs p -> p `prefix_of` q.
Proof.
  unfold Executor.rglob. intros Hq. by apply list_elem_of_filter in Hq as [[? _] _].
Qed.

Lemma add_tree_returns (base : path) (ps : list path) zf :
  (forall q, io_error q = None) ->
  Forall (fun q => base `prefix_of` q) ps ->
  returned (add_tree base ps zf) = true.
Proof.
  intros Hio. revert zf. induction ps as [|q ps IH]; intros zf Hall; [done|].
  apply Forall_cons in Hall as [Hq Hall]. cbn.
  rewrite (relative_to_prefix q base Hq).
  destruct (Executor.stat fs q) as [[content| | |]|]; try by apply IH.
  rewrite Hio. by apply IH.
Qed.

Lemma add_tree_rglob_returns (base p : path) zf :
  (forall q, io_error q = None) ->
  base `prefix_of` p ->
  returned (add_tree base (Executor.rglob fs p) zf) = true.
Proof.
  intros Hio Hbase. apply add_tree_returns; [done|]. apply Forall_forall. intros q Hq.
  etransitivity; [exact Hbase | by apply rglob_below].
Qed.

Lemma relative_true (p : string) :
  is_relative_to (absolute p) data_dir = true -> data_dir `prefix_of` absolute p.
Proof. unfold is_relative_to. apply bool_decide_eq_true_1. Qed.

Lemma collect_results_loop_returns (paths : list string) zf :
  (forall q, resolve_error q = None) ->
  (forall q, io_error q = None) ->
  returned (results_loop data_dir paths zf) = true.
Proof.
  intros Hres Hio. revert zf. induction paths as [|p paths IH]; intros zf; [done|].
  cbn. unfold Executor.try_resolve. rewrite Hres. fold (absolute p).
  destruct (is_relative_to (absolute p) data_dir) eqn:Hrel; cbn; [|apply IH].
  apply relative_true in Hrel.
  destruct (Executor.stat fs (absolute p)) as [[content| | |]|]; try apply IH.
  - rewrite (relative_to_prefix _ _ Hrel), Hio. apply IH.
  - pose proof (add_tree_rglob_returns data_dir (absolute p) zf Hio Hrel) as Hret.
    destruct (add_tree data_dir _ zf); [apply IH | done].
Qed.

Lemma collect_named_loop_returns (items : list (string * string))
    (acc : gmap string bytes) :
  (forall q, resolve_error q = None) ->
  (forall q, io_error q = None) ->
  returned (named_loop data_dir items acc) = true.
Proof.
  intros Hres Hio. revert acc. induction items as [|[p name] items IH]; intros acc; [done|].
  cbn. unfold Executor.try_resolve. rewrite Hres. fold (absolute p).
  destruct (is_relative_to (absolute p) data_dir) eqn:Hrel; cbn; [|apply IH].
  destruct (Executor.stat fs (absolute p)) as [[content| | |]|]; try apply IH.
  - rewrite Hio. apply IH.
  - pose proof (add_tree_rglob_returns (path_parent (absolute p)) (absolute p) []
                  Hio (prefix_take _ _)) as Hret.
    destruct (add_tree _ _ []); [apply IH | done].
Qed.

Lemma escaping_is_skipped (p : string) :
  escaping p ->
  Executor.try_resolve resolve resolve_error (path_join data_dir (lstrip_slash p))
    = Return (absolute p)
  /\ is_relative_to (absolute p) data_dir = false.
Proof.
  intros [Hres Hrel]. unfold Executor.try_resolve. unfold resolves in Hres.
  by rewrite Hres.
Qed.

Lemma collect_results_loop_skips (paths : list string) zf :
  results_loop data_dir paths zf =
  results_loop data_dir (filter (fun p => ~ escaping p) paths) zf.
Proof.
  revert zf. induction paths as [|p paths IH]; intros zf; [done|].
  rewrite filter_cons. destruct (decide (~ escaping p)) as [Hok|Hesc].
  - cbn.
    destruct (Executor.try_resolve resolve resolve_error _) as [abs_path|e]; [|done].
    destruct (is_relative_to abs_path data_dir); cbn; [|apply IH].
    destruct (Executor.stat fs abs_path) as [[content| | |]|]; try apply IH.
    + destruct (relative_to _ _); [|done]. destruct (io_error _); [done | apply IH].
    + destruct (add_tree _ _ _); [apply IH | done].
  - assert (escaping p) as Hp by (destruct (decide (escaping p)); [done | by destruct Hesc]).
    destruct (escaping_is_skipped p Hp) as [Hres Hrel].
    cbn. rewrite Hres, Hrel. cbn. apply IH.
Qed.

Lemma collect_named_loop_skips (items : list (string * string))
    (acc : gmap string bytes) :
  named_loop data_dir items acc =
  named_loop data_dir (filter (fun it => ~ escaping (fst it)) items) acc.
Proof.
  revert acc. induction items as [|[p name] items IH]; intros acc; [done|].
  rewrite filter_cons. cbn [fst]. destruct (decide (~ escaping p)) as [Hok|Hesc].
  - cbn.
    destruct (Executor.try_resolve resolve resolve_error _) as [abs_path|e]; [|done].
    destruct (is_relative_to abs_path data_dir); cbn; [|apply IH].
    destruct (Executor.stat fs abs_path) as [[content| | |]|]; try apply IH.
    + destruct (io_error _); [done | apply IH].
    + destruct (add_tree _ _ _); [apply IH | done].
  - assert (escaping p) as Hp by (destruct (decide (escaping p)); [done | by destruct Hesc]).
    destruct (escaping_is_skipped p Hp) as [Hres Hrel].
    cbn. rewrite Hres, Hrel. cbn. apply IH.
Qed.

(** C2, as the code has it.  With [absolute p] the canonical form of
    [data_dir / p.lstrip("/")], a path escapes when this form is computed and
    is no descendant of [data_dir], and is inside when it is computed and is
    one; computing it can itself raise.

    - For the paths of [dirs], [data], [stdout_file] and [stderr_file]: the
      preparation returns only if each of them is inside, so it never
      returns when one escapes.  When neither [Path.resolve()] nor a file
      operation raises a [ValueError] of its own, it raises a [ValueError]
      only if one of them escapes; and when the operating system refuses
      nothing and the store can deliver every name the job stages, it raises
      a [ValueError] exactly when one of them escapes.  Whatever the
      outcome, every path a [mkdir] or a copy is called with, whether the
      call succeeds or is refused, is one of the job's own files or the
      absolute path (or its parent) of a listed path that passed the test,
      so no input or output uses a path before its check.

    - For the paths of [results] and [named_results] the collection applies
      the same test, but a path that escapes is skipped: the outcome is
      that of the job without it, and when the operating system refuses
      nothing the collection returns. *)
Theorem path_escape_defense (job : JobInfo) (s : Storage.t) :
  let run := Executor.prepare_wasi_environment resolve resolve_error os_error
               job base_dir in
  (returned (Storage.result_of run s) = true ->
     forall p, p ∈ prepared_paths job -> within p)
  /\ ((exists p, p ∈ prepared_paths job /\ escaping p) ->
      returned (Storage.result_of run s) = false)
  /\ (no_value_error resolve_error os_error ->
      forall msg, Storage.result_of run s = Raise (ValueError msg) ->
        exists p, p ∈ prepared_paths job /\ escaping p)
  /\ (quiet resolve_error os_error ->
      (forall n, n ∈ staged_names job -> available s n) ->
        ((exists msg, Storage.result_of run s = Raise (ValueError msg))
         <-> exists p, p ∈ prepared_paths job /\ escaping p))
  /\ (forall e q, e ∈ Storage.log_of run s -> touches e = Some q ->
        q ∈ job_files resolve base_dir
        \/ exists p, p ∈ prepared_paths job /\ within p
             /\ (q = absolute p \/ q = path_parent (absolute p)))
  /\ (forall zf,
        results_loop data_dir (results job) zf =
        results_loop data_dir (filter (fun p => ~ escaping p) (results job)) zf)
  /\ (forall acc,
        named_loop data_dir (named_results job) acc =
        named_loop data_dir
          (filter (fun it => ~ escaping (fst it)) (named_results job)) acc)
  /\ ((forall q, resolve_error q = None) -> (forall q, io_error q = None) ->
        returned (Executor.collect_results resolve resolve_error fs io_error
                    zip_bytes job base_dir) = true
        /\ returned (Executor.collect_named_results resolve resolve_error fs io_error
                       zip_bytes job base_dir) = true).
Proof.
  intros run.
  destruct (prepare_stage resolve resolve_error os_error base_dir job s)
    as (HE & HR & HV & HA & HA2).
  fold run in HE, HR, HV, HA, HA2.
  assert (quiet resolve_error os_error -> no_value_error resolve_error os_error)
    as Hquiet.
  { intros [Hres Hos]. split; intros x msg; [rewrite Hres | rewrite Hos]; done. }
  split; [intros Hret; by apply HR|]. split.
  { intros (p & Hp & [_ Hout]).
    destruct (returned (Storage.result_of run s)) eqn:Hret; [|done].
    destruct (HR eq_refl) as [_ Hok]. destruct (Hok p Hp) as [_ Hin]. congruence. }
  split; [exact HV|]. split.
  { intros Hcalm Hav. split; [intros [msg Hmsg]; by apply (HV (Hquiet Hcalm) msg)|].
    intros (p & Hp & Hesc). destruct (HA Hcalm Hav) as [Hret|Hval]; [|done].
    destruct (HR Hret) as [_ Hok].
    by destruct (within_not_escaping resolve resolve_error base_dir p (Hok p Hp)). }
  split; [intros e q He Hq; by apply (HE e He q)|].
  split; [apply collect_results_loop_skips|].
  split; [apply collect_named_loop_skips|].
  intros Hres Hio. split.
  - unfold Executor.collect_results, Executor.try_resolve.
    destruct (truthy (results_receiver job)); [|done]. rewrite !Hres, Hio.
    pose proof (collect_results_loop_returns (results job) [] Hres Hio) as Hret.
    by destruct (results_loop _ _ _).
  - unfold Executor.collect_named_results, Executor.try_resolve. rewrite Hres.
    by apply collect_named_loop_returns.
Qed.

End Collection.

(** C2 as worded, a hard error for every escaping path, does not hold on
    [leaking_job], with an operating system that refuses nothing: its
    result path ["../secret.txt"] escapes the sandbox root, yet the
    preparation returns and both collectors return normally, with an empty
    archive and an empty map. *)
Lemma escaping_result_is_skipped :
  escapes lexical_resolve no_error (lexical_resolve (job_dir ++ ["data"]))
    "../secret.txt"
  /\ returned (Storage.result_of
                (Executor.prepare_wasi_environment lexical_resolve no_error no_error
                   leaking_job job_dir)
                (Executor.storage executor_with_databin)) = true
  /\ Executor.collect_results lexical_resolve no_error job_dir_after_run no_error
       toy_zip leaking_job job_dir = Return (Some [])
  /\ Executor.collect_named_results lexical_resolve no_error job_dir_after_run
       no_error toy_zip leaking_job job_dir = Return ∅.
Proof. repeat split; vm_compute; reflexivity. Qed.

(** On [escaping_job] the preparation stops at the escaping directory,
    after creating the job directory, the module file and the sandbox root. *)
Example escaping_dir_is_rejected :
  Executor.prepare_wasi_environment lexical_resolve no_error no_error
    escaping_job job_dir (Executor.storage executor_with_databin)
  = (Raise (ValueError "Directory path escapes data directory: ../../../etc"),
     Executor.storage executor_with_databin,
     [Storage.Mkdir job_dir;
      Storage.CopyFile (toy_digest [x68; x69]) (job_dir ++ ["module.wasm"]);
      Storage.Mkdir (job_dir ++ ["data"])]).
Proof. vm_compute. reflexivity. Qed.

(** A path with an embedded null byte escapes nothing, and the preparation
    raises the [ValueError] of [Path.resolve()]. *)
Example unresolvable_dir_is_rejected :
  Storage.result_of
    (Executor.prepare_wasi_environment lexical_resolve null_byte_error no_error
       null_byte_job job_dir)
    (Executor.storage executor_with_databin)
  = Raise (ValueError "embedded null byte")
  /\ forall p, p ∈ prepared_paths null_byte_job ->
       ~ escapes lexical_resolve null_byte_error
           (lexical_resolve (job_dir ++ ["data"])) p.
Proof.
  split; [vm_compute; reflexivity|].
  intros p Hp [Hres _]. apply list_elem_of_singleton in Hp as ->.
  vm_compute in Hres. discriminate Hres.
Qed.

(** * Part III: further properties *)

(** ** More about the store *)

Section StoreMore.

Variable sha1_hexdigest : bytes -> string.

Implicit Types (s : Storage.t) (n p : string) (B : bytes) (r : Storage.row).

Lemma stored_names_elem s n :
  n ∈ Storage.stored_names s <-> exists r, r ∈ Storage.db s /\ Storage.row_name r = n.
Proof.
  unfold Storage.stored_names. rewrite elem_of_list_to_set, list_elem_of_fmap.
  split; intros (r & H1 & H2); exists r; auto.
Qed.

(** The state after a successful [store_data]. *)
Lemma store_data_fresh_state s n B :
  n ∉ Storage.stored_names s ->
  let s' := Storage.state_of (Storage.store_data sha1_hexdigest n B) s in
  Storage.db s' = Storage.db s ++ [Storage.Row n (sha1_hexdigest B)]
  /\ Storage.blob_directory s' =
       match Storage.blob_directory s !! sha1_hexdigest B with
       | Some _ => Storage.blob_directory s
       | None => <[sha1_hexdigest B := B]> (Storage.blob_directory s)
       end
  /\ Storage.stored_names s' = {[n]} ∪ Storage.stored_names s.
Proof.
  intros Hfresh s'. subst s'. unfold Storage.state_of.
  rewrite store_data_fresh by done. cbn.
  destruct (Storage.blob_directory s !! sha1_hexdigest B) as [c|] eqn:E; cbn;
    (split; [done|]; split; [done|]);
    unfold Storage.stored_names; cbn;
    rewrite map_app, list_to_set_app_L; cbn;
    rewrite (right_id_L ∅ (∪)); apply (comm_L (∪)).
Qed.

(** X1. [store_data] never overwrites or deletes a blob file and adds at
    most one; when the file named by the digest exists it leaves the blob
    directory alone; so once some bytes are stored, storing the same bytes
    again, under whatever name, adds no file. *)
Theorem store_data_dedup n B s :
  let s' := Storage.state_of (Storage.store_data sha1_hexdigest n B) s in
  (forall f D, Storage.blob_directory s !! f = Some D ->
               Storage.blob_directory s' !! f = Some D)
  /\ (is_Some (Storage.blob_directory s !! sha1_hexdigest B) ->
      Storage.blob_directory s' = Storage.blob_directory s)
  /\ size (Storage.blob_directory s') <= S (size (Storage.blob_directory s))
  /\ (n ∉ Storage.stored_names s ->
      forall n', Storage.blob_directory
                   (Storage.state_of (Storage.store_data sha1_hexdigest n' B) s')
                 = Storage.blob_directory s').
Proof.
  intros s'.
  assert (forall t m, is_Some (Storage.blob_directory t !! sha1_hexdigest B) ->
            Storage.blob_directory
              (Storage.state_of (Storage.store_data sha1_hexdigest m B) t)
            = Storage.blob_directory t) as Hkeep.
  { intros t m [c Hc]. unfold Storage.state_of.
    destruct (decide (m ∈ Storage.stored_names t)) as [Hin|Hnot].
    - by rewrite store_data_taken.
    - rewrite store_data_fresh by done. cbn. by rewrite Hc. }
  destruct (decide (n ∈ Storage.stored_names s)) as [Hin|Hnot].
  - assert (s' = s) as -> by (subst s'; unfold Storage.state_of; by rewrite store_data_taken).
    split; [done|]. split; [done|]. split; [lia|]. done.
  - destruct (store_data_fresh_state s n B Hnot) as (_ & Hblob & _). fold s' in Hblob.
    rewrite Hblob.
    destruct (Storage.blob_directory s !! sha1_hexdigest B) as [c|] eqn:E.
    + split; [done|]. split; [done|]. split; [lia|].
      intros _ n'. rewrite <- Hblob. apply Hkeep. rewrite Hblob. eauto.
    + split.
      { intros f D Hf. rewrite lookup_insert_ne; [done|]. congruence. }
      split; [by intros [? ?]|]. split.
      { rewrite map_size_insert_None by done. lia. }
      intros _ n'. rewrite <- Hblob. apply Hkeep. rewrite Hblob.
      rewrite lookup_insert_eq. eauto.
Qed.

(** Two different names, the same bytes, a new store: one blob file. *)
Example store_data_dedup_run :
  size (Storage.blob_directory
          (Storage.state_of (Storage.store_data toy_digest "b" [x68; x69])
             (Storage.state_of (Storage.store_data toy_digest "a" [x68; x69])
                Storage.empty))) = 1.
Proof. vm_compute. reflexivity. Qed.

Lemma NoDup_names_filter (P : Storage.row -> Prop) `{!forall r, Decision (P r)}
    (rows : list Storage.row) :
  NoDup (map Storage.row_name rows) ->
  NoDup (map Storage.row_name (filter P rows)).
Proof.
  induction rows as [|r rows IH]; [done|]. cbn -[filter].
  intros Hnd. apply NoDup_cons in Hnd as [Hr Hnd].
  rewrite filter_cons. destruct (decide (P r)); [|by apply IH].
  cbn. apply NoDup_cons. split; [|by apply IH].
  intros Hin. apply Hr. apply list_elem_of_fmap in Hin as (r' & Heq & Hr').
  apply list_elem_of_filter in Hr' as [_ Hr'].
  apply list_elem_of_fmap. eauto.
Qed.

Lemma NoDup_names_replay_remove (names : list string) s :
  NoDup (map Storage.row_name (Storage.db s)) ->
  NoDup (map Storage.row_name
           (Storage.db (Storage.replay (map Storage.DbRemove names) s))).
Proof.
  revert s. induction names as [|n names IH]; intros s Hnd; [done|].
  cbn. apply IH. cbn. by apply NoDup_names_filter.
Qed.

Lemma copy_to_file_state (os_error : Storage.effect -> option exn)
    name (dst : path) s :
  Storage.state_of (Storage.copy_to_file os_error name dst) s = s
  \/ exists f, Storage.state_of (Storage.copy_to_file os_error name dst) s
               = Storage.replay [Storage.DbRemove f] s.
Proof.
  unfold Storage.state_of, Storage.copy_to_file, Storage.bind, Storage.db_search_name,
    Storage.source_exists, Storage.blob_exists, Storage.copyfile.
  destruct (filter _ (Storage.db s)) as [|r rows]; cbn; [by left|].
  destruct (decide (Storage.row_filename r = "")); cbn.
  { destruct (Storage.copyfile_error _ _ _); by left. }
  case_bool_decide; cbn.
  { destruct (Storage.copyfile_error _ _ _); by left. }
  rewrite decide_False by done. cbn. right. eauto.
Qed.

(** X2. Every operation of the store keeps the names of the index pairwise
    distinct. *)
Theorem store_keeps_names_unique (os_error : Storage.effect -> option exn)
    s n B p (dst : path) (R : gset string) :
  NoDup (map Storage.row_name (Storage.db s)) ->
  NoDup (map Storage.row_name
           (Storage.db (Storage.state_of (Storage.store_data sha1_hexdigest n B) s)))
  /\ NoDup (map Storage.row_name
              (Storage.db (Storage.state_of (Storage.load_data p) s)))
  /\ NoDup (map Storage.row_name
              (Storage.db (Storage.state_of (Storage.copy_to_file os_error n dst) s)))
  /\ NoDup (map Storage.row_name
              (Storage.db (Storage.state_of (Storage.find_missing R) s))).
Proof.
  intros Hnd. split; [|split; [|split]].
  - destruct (decide (n ∈ Storage.stored_names s)) as [Hin|Hnot].
    + unfold Storage.state_of. by rewrite store_data_taken.
    + destruct (store_data_fresh_state s n B Hnot) as (Hdb & _ & _).
      rewrite Hdb, map_app. cbn. apply NoDup_app. split; [done|].
      split; [|apply NoDup_singleton].
      intros x Hx Hx'. apply list_elem_of_singleton in Hx' as ->.
      apply Hnot. unfold Storage.stored_names. by apply elem_of_list_to_set.
  - unfold Storage.state_of. rewrite load_data_spec. cbn -[filter].
    by apply NoDup_names_replay_remove.
  - destruct (copy_to_file_state os_error n dst s) as [->|[f ->]]; [done|].
    by apply (NoDup_names_replay_remove [f]).
  - unfold Storage.state_of. by rewrite find_missing_spec.
Qed.

End StoreMore.

Lemma store_keeps_names_unique_witness :
  NoDup (map Storage.row_name
           (Storage.db (Storage.state_of
                          (Storage.store_data toy_digest "a" [x68]) Storage.empty)))
  /\ NoDup (map Storage.row_name
              (Storage.db (Storage.state_of (Storage.load_data "a") Storage.empty)))
  /\ NoDup (map Storage.row_name
              (Storage.db (Storage.state_of
                             (Storage.copy_to_file no_error "a" ["tmp"])
                             Storage.empty)))
  /\ NoDup (map Storage.row_name
              (Storage.db (Storage.state_of (Storage.find_missing ∅) Storage.empty))).
Proof.
  apply (store_keeps_names_unique toy_digest no_error Storage.empty "a" [x68] "a"
           ["tmp"] ∅).
  cbn. apply NoDup_nil_2.
Defined.

Section StoreCompose.

Variable sha1_hexdigest : bytes -> string.

Implicit Types (s : Storage.t) (n p : string) (B : bytes) (r : Storage.row).




(** A destination that is a directory, as when a job lists the data path
    ["/"]: the copy raises the [IsADirectoryError] of [shutil.copyfile]. *)
Example copy_to_file_onto_directory :
  let os_error (e : Storage.effect) :=
    match e with
    | Storage.CopyFile _ ["job"; "data"] => Some (OSError "IsADirectoryError")
    | _ => None
    end in
  let s := Storage.state_of (Storage.store_data toy_digest "a" [x68; x69])
             Storage.empty in
  Storage.copy_to_file os_error "a" ["job"; "data"] s
  = (Raise (OSError "IsADirectoryError"), s,
     [Storage.Failed (Storage.CopyFile (toy_digest [x68; x69]) ["job"; "data"])]).
Proof. vm_compute. reflexivity. Qed.



(** A healthy row goes when its name happens to be the file name of a
    stale one, and the stale one stays. *)
Example load_data_removes_wrong_row :
  let s := Storage.Make [Storage.Row "a" "b"; Storage.Row "b" "f"]
             {[ "f" := [x68] ]} in
  Storage.db (Storage.state_of (Storage.load_data "a") s) = [Storage.Row "a" "b"].
Proof. vm_compute. reflexivity. Qed.

(** X6. A successful [store_data(n, _)] takes [n], and nothing else, out of
    what [find_missing] reports; a failed one changes nothing. *)
Theorem find_missing_after_store n B (R : gset string) s :
  let s' := Storage.state_of (Storage.store_data sha1_hexdigest n B) s in
  (n ∉ Storage.stored_names s ->
     Storage.find_missing R s' = (Return (R ∖ Storage.stored_names s ∖ {[n]}), s', []))
  /\ (n ∈ Storage.stored_names s ->
     Storage.find_missing R s' = (Return (R ∖ Storage.stored_names s), s, [])).
Proof.
  intros s'. split.
  - intros Hfresh. rewrite find_missing_spec.
    destruct (store_data_fresh_state sha1_hexdigest s n B Hfresh) as (_ & _ & Hn).
    fold s' in Hn. rewrite Hn. do 3 f_equal.
    apply set_eq. intros x. rewrite !elem_of_difference, elem_of_union. tauto.
  - intros Hin. subst s'. unfold Storage.state_of. rewrite store_data_taken by done.
    cbn. apply find_missing_spec.
Qed.

(** *** Storing a batch: [for name, data in items: store_data(name, data)] *)

Lemma store_all_cons n B (items : list (string * bytes)) s :
  Intake.store_all sha1_hexdigest ((n, B) :: items) s =
  Storage.bind (Storage.store_data sha1_hexdigest n B)
    (fun _ => Intake.store_all sha1_hexdigest items) s.
Proof. reflexivity. Qed.

Lemma store_all_cons_fresh n B (items : list (string * bytes)) s :
  n ∉ Storage.stored_names s ->
  exists log1,
    Intake.store_all sha1_hexdigest ((n, B) :: items) s =
    let s1 := Storage.state_of (Storage.store_data sha1_hexdigest n B) s in
    let '(r, s2, l2) := Intake.store_all sha1_hexdigest items s1 in
    (r, s2, log1 ++ l2).
Proof.
  intros Hn. rewrite store_all_cons. unfold Storage.bind, Storage.state_of.
  rewrite store_data_fresh by done. cbv zeta. eexists. reflexivity.
Qed.

Lemma store_all_ok (items : list (string * bytes)) s :
  NoDup (map fst items) ->
  (forall n, n ∈ map fst items -> n ∉ Storage.stored_names s) ->
  exists s' log,
    Intake.store_all sha1_hexdigest items s = (Return tt, s', log)
    /\ Storage.stored_names s' = Storage.stored_names s ∪ list_to_set (map fst items)
    /\ (Storage.no_dangling s -> Storage.no_dangling s').
Proof.
  revert s. induction items as [|[n B] items IH]; intros s Hnd Hfresh.
  - exists s, []. split; [done|]. split; [|done].
    cbn. by rewrite (right_id_L ∅ (∪)).
  - cbn in Hnd. apply NoDup_cons in Hnd as [Hn Hnd].
    assert (n ∉ Storage.stored_names s) as Hn' by (apply Hfresh; cbn; by left).
    destruct (store_data_fresh_state sha1_hexdigest s n B Hn') as (_ & _ & Hnames).
    destruct (store_all_cons_fresh n B items s Hn') as (log1 & ->).
    cbv zeta.
    set (s1 := Storage.state_of (Storage.store_data sha1_hexdigest n B) s) in *.
    destruct (IH s1 Hnd) as (s' & log & Hrun & Hs' & Hdang).
    { intros m Hm. rewrite Hnames, elem_of_union, elem_of_singleton.
      intros [->|Hin]; [done|]. apply (Hfresh m); [cbn; by right | done]. }
    rewrite Hrun. do 2 eexists. split; [done|]. split.
    + rewrite Hs', Hnames. cbn.
      apply set_eq. intros x. rewrite !elem_of_union, elem_of_singleton. tauto.
    + intros Hs. apply Hdang. subst s1. by apply store_data_no_dangling.
Qed.

Lemma store_all_nil s :
  Intake.store_all sha1_hexdigest [] s = (Return tt, s, []).
Proof. reflexivity. Qed.

(** The batch stops at the first name that is taken, by the store or by an
    earlier item; what came before it stays stored. *)
Lemma store_all_stops (pre : list (string * bytes)) n B post s :
  NoDup (map fst pre) ->
  (forall m, m ∈ map fst pre -> m ∉ Storage.stored_names s) ->
  n ∈ Storage.stored_names s ∪ list_to_set (map fst pre) ->
  exists s' log,
    Intake.store_all sha1_hexdigest (pre ++ (n, B) :: post) s
      = (Raise (NameTakenError n), s', log)
    /\ Storage.stored_names s' = Storage.stored_names s ∪ list_to_set (map fst pre)
    /\ (Storage.no_dangling s -> Storage.no_dangling s').
Proof.
  revert s. induction pre as [|[m C] pre IH]; intros s Hnd Hfresh Hn.
  - cbn in Hn. rewrite (right_id_L ∅ (∪)) in Hn. cbn [app].
    rewrite store_all_cons. unfold Storage.bind.
    rewrite store_data_taken by done. exists s, []. split; [done|]. split; [|done].
    cbn. by rewrite (right_id_L ∅ (∪)).
  - cbn in Hnd. apply NoDup_cons in Hnd as [Hm Hnd].
    assert (m ∉ Storage.stored_names s) as Hm' by (apply Hfresh; cbn; by left).
    destruct (store_data_fresh_state sha1_hexdigest s m C Hm') as (_ & _ & Hnames).
    cbn [app].
    destruct (store_all_cons_fresh m C (pre ++ (n, B) :: post) s Hm') as (log1 & ->).
    cbv zeta.
    set (s1 := Storage.state_of (Storage.store_data sha1_hexdigest m C) s) in *.
    destruct (IH s1 Hnd) as (s' & log & Hrun & Hs' & Hdang).
    { intros x Hx. rewrite Hnames, elem_of_union, elem_of_singleton.
      intros [->|Hin]; [done|]. apply (Hfresh x); [cbn; by right | done]. }
    { rewrite Hnames. cbn in Hn. revert Hn.
      rewrite !elem_of_union, elem_of_singleton. tauto. }
    rewrite Hrun. do 2 eexists. split; [done|]. split.
    + rewrite Hs', Hnames. cbn.
      apply set_eq. intros x. rewrite !elem_of_union, elem_of_singleton. tauto.
    + intros Hs. apply Hdang. subst s1. by apply store_data_no_dangling.
Qed.

(** Every batch is of one of the two kinds. *)
Lemma batch_cases (items : list (string * bytes)) (X : gset string) :
  (NoDup (map fst items) /\ forall n, n ∈ map fst items -> n ∉ X)
  \/ exists pre n B post,
       items = pre ++ (n, B) :: post
       /\ NoDup (map fst pre)
       /\ (forall m, m ∈ map fst pre -> m ∉ X)
       /\ n ∈ X ∪ list_to_set (map fst pre).
Proof.
  induction items as [|[n B] items IH] using rev_ind.
  - left. split; [apply NoDup_nil_2|]. intros n Hn. by apply elem_of_nil in Hn.
  - destruct IH as [[Hnd Hfresh]|(pre & m & C & post & -> & Hnd & Hfresh & Hm)].
    + destruct (decide (n ∈ X ∪ list_to_set (map fst items))) as [Hin|Hout].
      * right. exists items, n, B, []. done.
      * left. rewrite map_app. cbn. split.
        -- apply NoDup_app. split; [done|]. split; [|apply NoDup_singleton].
           intros x Hx Hx'. apply list_elem_of_singleton in Hx' as ->.
           apply Hout, elem_of_union. right. by apply elem_of_list_to_set.
        -- intros x Hx. apply elem_of_app in Hx as [Hx|Hx]; [by apply Hfresh|].
           apply list_elem_of_singleton in Hx as ->.
           intros Hin. apply Hout, elem_of_union. by left.
    + right. exists pre, m, C, (post ++ [(n, B)]).
      rewrite <- app_assoc. done.
Qed.

End StoreCompose.


(** ** Jobs and capabilities *)

(** X7. [is_capable_of] compares the four resources one by one, so it is
    a partial order on capabilities: every system covers its own
    capabilities, covering composes, and two capability sets that cover each
    other are equal. *)
Theorem is_capable_of_partial_order (a b c : Capabilities) :
  (is_capable_of a b = true <->
     (cpu_cores b <= cpu_cores a)%Z
     /\ (free_cpu_capacity b <= free_cpu_capacity a)%Z
     /\ (free_memory b <= free_memory a)%Z
     /\ (free_disk_space b <= free_disk_space a)%Z)
  /\ is_capable_of a a = true
  /\ (is_capable_of a b = true -> is_capable_of b c = true ->
      is_capable_of a c = true)
  /\ (is_capable_of a b = true -> is_capable_of b a = true -> a = b).
Proof.
  assert (forall x y, is_capable_of x y = true <->
     (cpu_cores y <= cpu_cores x)%Z
     /\ (free_cpu_capacity y <= free_cpu_capacity x)%Z
     /\ (free_memory y <= free_memory x)%Z
     /\ (free_disk_space y <= free_disk_space x)%Z) as Hspec.
  { intros x y. unfold is_capable_of.
    rewrite !andb_true_iff, !Z.geb_le. tauto. }
  split; [apply Hspec|]. split; [|split].
  - apply Hspec. lia.
  - rewrite !Hspec. lia.
  - rewrite !Hspec. intros Hab Hba. destruct a, b; cbn in *. f_equal; lia.
Qed.

(** X8. [Job.has_all_data] holds exactly when [Job.missing_data] is empty;
    what is missing is always required and never attached; and the name of
    the module is always required. *)
Theorem has_all_data_iff_nothing_missing (job : Job.t) :
  (Job.has_all_data job = true <-> Job.missing_data job = ∅)
  /\ Job.missing_data job ⊆ required_named_data (Job.metadata job)
  /\ (forall n, n ∈ Job.missing_data job -> n ∉ map fst (Job.data job))
  /\ wasm_module (Job.metadata job) ∈ required_named_data (Job.metadata job).
Proof.
  unfold Job.has_all_data, Job.missing_data.
  set (R := required_named_data (Job.metadata job)).
  set (K := list_to_set (map fst (Job.data job)) : gset string).
  split; [|split; [|split]].
  - rewrite bool_decide_eq_true. split.
    + intros Hsub. apply set_eq. intros x.
      rewrite elem_of_difference. split; [|by intros ?%elem_of_empty].
      intros [Hx Hnx]. exfalso. apply Hnx. by apply Hsub.
    + intros Hempty x Hx. destruct (decide (x ∈ K)) as [|Hnx]; [done|].
      exfalso. apply (not_elem_of_empty (C:=gset string) x).
      rewrite <- Hempty. by apply elem_of_difference.
  - intros x. rewrite elem_of_difference. tauto.
  - intros n. rewrite elem_of_difference. intros [_ Hn] Hin. apply Hn.
    subst K. by apply elem_of_list_to_set.
  - subst R. unfold required_named_data. apply elem_of_list_to_set.
    apply elem_of_app. left.
    destruct (truthy (stdin_file (Job.metadata job)));
      [apply elem_of_app; left|]; by left.
Qed.

(** ** The executor: intake, data arrival, the scheduler's test *)

Section JobIntake.

Variable sha1_hexdigest : bytes -> string.
Variable from_system : Capabilities.
Variable unpackb : bytes -> outcome Intake.unpacked.

Implicit Types (self : Executor.t) (job j : JobInfo) (st : Storage.t).

(** The loop of [_handle_data] is the batch store of its names, each with
    the bundle's payload. *)
Lemma for_each_names_store_all (names : list string) B st :
  Storage.for_each names (fun name => Storage.store_data sha1_hexdigest name B) st
  = Intake.store_all sha1_hexdigest (map (fun n => (n, B)) names) st.
Proof.
  revert st. induction names as [|n names IH]; intros st; [done|].
  cbn [map]. rewrite store_all_cons. cbn [Storage.for_each].
  unfold Storage.bind. destruct (Storage.store_data sha1_hexdigest n B st) as [[[|] s1] l1];
    [|done]. by rewrite IH.
Qed.

Lemma map_fst_pair (names : list string) (B : bytes) :
  map fst (map (fun n => (n, B)) names) = names.
Proof. induction names as [|n names IH]; [done|]. cbn. by rewrite IH. Qed.

(** X9. [_store_named_results] stores a job's named results one by one
    and is not atomic: with all names distinct and unused it returns and
    the names are stored; otherwise it raises [NameTakenError] for the first
    name that is taken, and the results before that one stay stored. *)
Theorem store_named_results_stops_at_first_taken
    (results : list (string * bytes)) st :
  let run := Intake.store_named_results sha1_hexdigest results in
  ((NoDup (map fst results)
    /\ forall n, n ∈ map fst results -> n ∉ Storage.stored_names st) ->
     Storage.result_of run st = Return tt
     /\ Storage.stored_names (Storage.state_of run st)
        = Storage.stored_names st ∪ list_to_set (map fst results))
  /\ (forall pre n B post,
        results = pre ++ (n, B) :: post ->
        NoDup (map fst pre) ->
        (forall m, m ∈ map fst pre -> m ∉ Storage.stored_names st) ->
        n ∈ Storage.stored_names st ∪ list_to_set (map fst pre) ->
        Storage.result_of run st = Raise (NameTakenError n)
        /\ Storage.stored_names (Storage.state_of run st)
           = Storage.stored_names st ∪ list_to_set (map fst pre)).
Proof.
  cbv zeta.
  assert (Intake.store_named_results sha1_hexdigest results st
          = Intake.store_all sha1_hexdigest results st) as Heq.
  { by destruct results. }
  unfold Storage.result_of, Storage.state_of. rewrite Heq. split.
  - intros [Hnd Hfresh].
    destruct (store_all_ok sha1_hexdigest results st Hnd Hfresh)
      as (s' & log & -> & Hs' & _). done.
  - intros pre n B post -> Hnd Hfresh Hn.
    destruct (store_all_stops sha1_hexdigest pre n B post st Hnd Hfresh Hn)
      as (s' & log & -> & Hs' & _). done.
Qed.

Lemma handle_data_run (bundle : BundleData.t) (names : list string) self :
  listed_names (BundleData.named_data bundle) = Some names ->
  Executor.handle_data sha1_hexdigest bundle self =
  match Intake.store_all sha1_hexdigest
          (map (fun n => (n, BundleData.payload bundle)) names)
          (Executor.storage self) with
  | (Return _, st, _) =>
      (Return tt, Executor.notify_all (Executor.with_storage self st))
  | (Raise e, st, _) => (Raise e, Executor.with_storage self st)
  end.
Proof.
  intros Hnames. unfold Executor.handle_data.
  destruct (BundleData.named_data bundle) as [|name|l]; cbn in Hnames;
    [done| |]; injection Hnames as <-; by rewrite for_each_names_store_all.
Qed.

(** X10. [Executor._handle_data] returns, and then notifies the waiting
    scheduler once, exactly when the names the bundle lists are distinct and
    none is stored yet.  Otherwise it raises [NameTakenError] for the first
    name taken (a name listed twice counts), keeps the names stored before
    it, and does not notify.  The pending jobs are never touched. *)
Theorem handle_data_returns_iff_names_fresh (bundle : BundleData.t)
    (names : list string) self :
  listed_names (BundleData.named_data bundle) = Some names ->
  let out := Executor.handle_data sha1_hexdigest bundle self in
  let stored := Storage.stored_names (Executor.storage self) in
  (fst out = Return tt <->
     NoDup names /\ forall n, n ∈ names -> n ∉ stored)
  /\ (fst out = Return tt ->
        Executor.notified (snd out) = S (Executor.notified self)
        /\ Storage.stored_names (Executor.storage (snd out))
           = stored ∪ list_to_set names)
  /\ (forall pre n post,
        names = pre ++ n :: post ->
        NoDup pre -> (forall m, m ∈ pre -> m ∉ stored) ->
        n ∈ stored ∪ list_to_set pre ->
        fst out = Raise (NameTakenError n)
        /\ Executor.notified (snd out) = Executor.notified self
        /\ Storage.stored_names (Executor.storage (snd out))
           = stored ∪ list_to_set pre)
  /\ Executor.pending_jobs (snd out) = Executor.pending_jobs self.
Proof.
  intros Hnames out stored. subst out.
  rewrite (handle_data_run bundle names self Hnames).
  set (B := BundleData.payload bundle).
  set (items := map (fun n => (n, B)) names).
  assert (map fst items = names) as Hkeys by apply map_fst_pair.
  assert (forall pre n post,
        names = pre ++ n :: post ->
        NoDup pre -> (forall m, m ∈ pre -> m ∉ stored) ->
        n ∈ stored ∪ list_to_set pre ->
        exists s' log,
          Intake.store_all sha1_hexdigest items (Executor.storage self)
            = (Raise (NameTakenError n), s', log)
          /\ Storage.stored_names s' = stored ∪ list_to_set pre) as Hstop.
  { intros pre n post Hsplit Hnd Hfresh Hn.
    destruct (store_all_stops sha1_hexdigest (map (fun n => (n, B)) pre) n B
                (map (fun n => (n, B)) post) (Executor.storage self))
      as (s' & log & Hrun & Hs' & _).
    - by rewrite map_fst_pair.
    - by rewrite map_fst_pair.
    - by rewrite map_fst_pair.
    - exists s', log. subst items. rewrite Hsplit, map_app. cbn [map].
      rewrite Hrun. split; [done|]. by rewrite Hs', map_fst_pair. }
  assert ((NoDup names /\ forall n, n ∈ names -> n ∉ stored) ->
        exists s' log,
          Intake.store_all sha1_hexdigest items (Executor.storage self)
            = (Return tt, s', log)
          /\ Storage.stored_names s' = stored ∪ list_to_set names) as Hgood.
  { intros [Hnd Hfresh].
    destruct (store_all_ok sha1_hexdigest items (Executor.storage self))
      as (s' & log & Hrun & Hs' & _).
    - by rewrite Hkeys.
    - by rewrite Hkeys.
    - exists s', log. split; [done|]. by rewrite Hs', Hkeys. }
  split; [|split; [|split]].
  - split.
    + intros Hret.
      destruct (batch_cases items stored)
        as [Hok|(pre & n & C & post & Hsplit & Hnd & Hfresh & Hn)].
      * by rewrite Hkeys in Hok.
      * exfalso.
        assert (names = map fst pre ++ n :: map fst post) as Hsplit'.
        { rewrite <- Hkeys, Hsplit, map_app. done. }
        destruct (Hstop _ _ _ Hsplit' Hnd Hfresh Hn) as (s' & log & Hrun & _).
        rewrite Hrun in Hret. done.
    + intros Hok. destruct (Hgood Hok) as (s' & log & -> & _). done.
  - intros Hret.
    destruct (batch_cases items stored)
      as [Hok|(pre & n & C & post & Hsplit & Hnd & Hfresh & Hn)].
    + rewrite Hkeys in Hok. destruct (Hgood Hok) as (s' & log & -> & Hs'). done.
    + exfalso.
      assert (names = map fst pre ++ n :: map fst post) as Hsplit'.
      { rewrite <- Hkeys, Hsplit, map_app. done. }
      destruct (Hstop _ _ _ Hsplit' Hnd Hfresh Hn) as (s' & log & Hrun & _).
      rewrite Hrun in Hret. done.
  - intros pre n post Hsplit Hnd Hfresh Hn.
    destruct (Hstop _ _ _ Hsplit Hnd Hfresh Hn) as (s' & log & -> & Hs'). done.
  - destruct (Intake.store_all sha1_hexdigest items (Executor.storage self))
      as [[[|] s'] log]; done.
Qed.

(** X11. [_handle_job] never queues a job.  [msgpack.unpackb] gives a
    value of a built-in type, an [ExtType] or a [Timestamp], never a [Job]:
    on every payload the method raises, either the exception of
    [msgpack.unpackb] or an [AttributeError] (for [job.data], or for
    [items] when [job.data] is the [bytes] of an [ExtType]), before it
    stores anything, so the store, the pending jobs and the count of
    notifications are as before. *)
Theorem handle_job_raises_on_every_payload (bundle : BundleData.t) self :
  let out := Intake.handle_job unpackb bundle self in
  snd out = self
  /\ (exists e, fst out = Raise e
        /\ (unpackb (BundleData.payload bundle) = Raise e
            \/ exists v msg, unpackb (BundleData.payload bundle) = Return v
                 /\ e = AttributeError msg))
  /\ (forall v, unpackb (BundleData.payload bundle) = Return v ->
        fst out = Raise (AttributeError
                    match v with
                    | Intake.UExtType _ => "'bytes' object has no attribute 'items'"
                    | _ => "'" +:+ Intake.type_name v
                           +:+ "' object has no attribute 'data'"
                    end)).
Proof.
  intros out. subst out. unfold Intake.handle_job.
  destruct (unpackb (BundleData.payload bundle)) as [v|e] eqn:E.
  - destruct v; cbn; (split; [done|]); (split; [|by intros ? [= <-]]);
      eexists; (split; [done|]); right; by do 2 eexists.
  - split; [done|]. split; [|done]. exists e. split; [done | by left].
Qed.

(** A job bundle whose payload is the map a client would pack. *)
Example handle_job_on_packed_map :
  Intake.handle_job (fun _ => Return Intake.UDict) put_bundle idle_executor
  = (Raise (AttributeError "'dict' object has no attribute 'data'"), idle_executor).
Proof. reflexivity. Qed.

(** *** The scheduler's test and the pop *)

Lemma runnable_decides job st :
  exists b, Executor.runnable from_system job st = (Return b, st, [])
            /\ (b = true <-> is_runnable from_system st job).
Proof.
  unfold Executor.runnable, Executor.job_has_all_inputs, Storage.bind, is_runnable,
    Storage.result_of.
  rewrite find_missing_spec. cbn.
  set (missing := required_named_data job ∖ Storage.stored_names st).
  destruct (decide (missing = ∅)) as [He|Hne].
  - rewrite He, size_empty. cbn. unfold Storage.ret, Executor.system_can_run.
    eexists. split; [done|]. split; [done | by intros [_ ?]].
  - rewrite bool_decide_eq_false_2.
    + cbn. eexists. split; [done|]. split; [done|]. intros [[= He] _]. done.
    + intros Hz. apply size_empty_inv in Hz. apply Hne. by apply leibniz_equiv.
Qed.

Lemma is_runnable_cases job st :
  is_runnable from_system st job \/ ~ is_runnable from_system st job.
Proof.
  destruct (runnable_decides job st) as ([|] & _ & Hb).
  - left. by apply Hb.
  - right. intros H. apply Hb in H. done.
Qed.

(** A queue either has a first runnable job or has none. *)
Lemma first_runnable (q : list JobInfo) st :
  Forall (fun j => ~ is_runnable from_system st j) q
  \/ exists pre j post,
       q = pre ++ j :: post
       /\ Forall (fun j => ~ is_runnable from_system st j) pre
       /\ is_runnable from_system st j.
Proof.
  induction q as [|j q IH]; [left; apply Forall_nil_2|].
  destruct (is_runnable_cases j st) as [Hj|Hj].
  - right. exists [], j, q. split; [done|]. split; [apply Forall_nil_2 | done].
  - destruct IH as [Hall|(pre & k & post & -> & Hpre & Hk)].
    + left. by apply Forall_cons.
    + right. exists (j :: pre), k, post. split; [done|].
      split; [by apply Forall_cons | done].
Qed.

Lemma has_runnable_loop_none (q : list JobInfo) st :
  Forall (fun j => ~ is_runnable from_system st j) q ->
  Intake.has_runnable_loop from_system q st = (Return false, st, []).
Proof.
  induction q as [|j q IH]; intros Hq; [done|].
  apply Forall_cons in Hq as [Hj Hq]. cbn. unfold Storage.bind.
  rewrite runnable_false by done. cbn. by rewrite IH.
Qed.

Lemma has_runnable_loop_some (pre : list JobInfo) j post st :
  Forall (fun j => ~ is_runnable from_system st j) pre ->
  is_runnable from_system st j ->
  Intake.has_runnable_loop from_system (pre ++ j :: post) st = (Return true, st, []).
Proof.
  induction pre as [|k pre IH]; intros Hpre Hj; cbn; unfold Storage.bind.
  - by rewrite runnable_true.
  - apply Forall_cons in Hpre as [Hk Hpre].
    rewrite runnable_false by done. cbn. by rewrite IH.
Qed.

Lemma pop_none self :
  Forall (fun j => ~ is_runnable from_system (Executor.storage self) j)
    (Executor.pending_jobs self) ->
  Executor.pop_next_runnable_job from_system self
  = (Return None, self, Executor.pending_jobs self).
Proof.
  intros Hall. unfold Executor.pop_next_runnable_job.
  rewrite <- (Nat.add_0_r (length _)).
  rewrite (pop_loop_skip from_system (Executor.pending_jobs self) [] self [] 0).
  - cbn. by destruct self.
  - by rewrite app_nil_r.
  - done.
Qed.

Lemma pop_some (pre : list JobInfo) j post self :
  Executor.pending_jobs self = pre ++ j :: post ->
  Forall (fun j => ~ is_runnable from_system (Executor.storage self) j) pre ->
  is_runnable from_system (Executor.storage self) j ->
  Executor.pop_next_runnable_job from_system self
  = (Return (Some j), Executor.with_pending self (post ++ pre), pre ++ [j]).
Proof.
  intros Hq Hpre Hj. unfold Executor.pop_next_runnable_job.
  rewrite Hq, length_app. cbn [length].
  rewrite (pop_loop_skip from_system pre (j :: post) self [] (S (length post)))
    by done.
  cbn. rewrite runnable_true by done. by destruct self.
Qed.

(** X13. The scheduler's test and the pop agree: [_has_runnable_job]
    never raises and changes nothing, and it answers [True] exactly when
    [_pop_next_runnable_job], run in the same state, returns a job; when it
    answers [False] the pop returns [None] and leaves the deque in its
    order. *)
Theorem has_runnable_job_agrees_with_pop self :
  exists b,
    Intake.has_runnable_job from_system self = (Return b, self)
    /\ (b = true <->
        exists j, fst (fst (Executor.pop_next_runnable_job from_system self))
                  = Return (Some j))
    /\ (b = false ->
        fst (Executor.pop_next_runnable_job from_system self)
        = (Return None, self)).
Proof.
  unfold Intake.has_runnable_job.
  destruct (first_runnable (Executor.pending_jobs self) (Executor.storage self))
    as [Hall|(pre & j & post & Hq & Hpre & Hj)].
  - exists false. rewrite has_runnable_loop_none by done.
    rewrite pop_none by done. cbn. split; [by destruct self|].
    split; [|done]. split; [done|]. by intros [j [=]].
  - exists true. rewrite Hq, has_runnable_loop_some by done.
    rewrite (pop_some pre j post self Hq Hpre Hj). cbn.
    split; [destruct self; cbn in *; by rewrite Hq|].
    split; [|done]. split; [|done]. intros _. by exists j.
Qed.

(** X14. Data arrival unblocks the head job: when a data bundle lists
    distinct unused names that complete what the job at the head of the
    deque requires, and the system covers the job's capabilities,
    [_handle_data] returns after one notification and the next
    [_pop_next_runnable_job] returns that job, examining no other, and
    leaves the rest of the deque as it was. *)
Theorem data_arrival_unblocks_head (bundle : BundleData.t) (names : list string)
    job (rest : list JobInfo) self :
  listed_names (BundleData.named_data bundle) = Some names ->
  NoDup names ->
  (forall n, n ∈ names -> n ∉ Storage.stored_names (Executor.storage self)) ->
  Executor.pending_jobs self = job :: rest ->
  required_named_data job
    ⊆ Storage.stored_names (Executor.storage self) ∪ list_to_set names ->
  is_capable_of from_system (capabilities job) = true ->
  let out := Executor.handle_data sha1_hexdigest bundle self in
  fst out = Return tt
  /\ Executor.notified (snd out) = S (Executor.notified self)
  /\ Executor.pop_next_runnable_job from_system (snd out)
     = (Return (Some job), Executor.with_pending (snd out) rest, [job]).
Proof.
  intros Hnames Hnd Hfresh Hq Hreq Hcap out. subst out.
  rewrite (handle_data_run bundle names self Hnames).
  destruct (store_all_ok sha1_hexdigest
              (map (fun n => (n, BundleData.payload bundle)) names)
              (Executor.storage self)) as (s' & log & -> & Hs' & _).
  { by rewrite map_fst_pair. }
  { by rewrite map_fst_pair. }
  rewrite map_fst_pair in Hs'. cbn [fst snd]. split; [done|]. split; [done|].
  rewrite (pop_some [] job rest).
  - by rewrite app_nil_r.
  - done.
  - apply Forall_nil_2.
  - cbn. split; [|done]. unfold Storage.result_of. rewrite find_missing_spec.
    cbn. f_equal. rewrite Hs'. apply set_eq. intros x.
    rewrite elem_of_difference. split; [|by intros ?%elem_of_empty].
    intros [Hx Hnx]. exfalso. apply Hnx. by apply Hreq.
Qed.

End JobIntake.

(** ** The datastore *)

Section DatastoreProperties.

Variable sha1_hexdigest : bytes -> string.

Implicit Types (self : Datastore.t) (bundle b : BundleData.t) (st : Storage.t).

(** What every response of the datastore carries. *)
Lemma put_loop_spec self bundle (names : list string) :
  forall (bundles : list BundleData.t) st,
  exists bs st',
    Datastore.put_loop sha1_hexdigest self bundle names bundles st
      = (Return (bundles ++ bs), st')
    /\ map BundleData.named_data bs = map NdStr names
    /\ Forall (fun b => BundleData.type b = BundleType.NDATA_PUT
                        /\ BundleData.source b = Node.node_id (Datastore.node self)
                        /\ BundleData.destination b = BundleData.source bundle
                        /\ BundleData.payload b = []) bs
    /\ Storage.stored_names st' = Storage.stored_names st ∪ list_to_set names
    /\ (forall i n b, names !! i = Some n -> bs !! i = Some b ->
          let taken := Storage.stored_names st ∪ list_to_set (take i names) in
          (BundleData.success b = true /\ BundleData.error b = "" /\ n ∉ taken)
          \/ (BundleData.success b = false
              /\ BundleData.error b = Datastore.name_taken_text n /\ n ∈ taken))
    /\ (forall f c, Storage.blob_directory st !! f = Some c ->
                    Storage.blob_directory st' !! f = Some c)
    /\ (forall r, r ∈ Storage.db st -> r ∈ Storage.db st').
Proof.
  induction names as [|name rest IH]; intros bundles st.
  - exists [], st. cbn. rewrite app_nil_r, (right_id_L ∅ (∪)).
    repeat split; done.
  - cbn [Datastore.put_loop].
    destruct (decide (name ∈ Storage.stored_names st)) as [Hin|Hout].
    + rewrite store_data_taken by done.
      destruct (IH (bundles ++
                  [Datastore.failed
                     (Datastore.response BundleType.NDATA_PUT self bundle [] name)
                     (Datastore.name_taken_text name)]) st)
        as (bs & st' & -> & Hnames & Hshape & Hstored & Hflags & Hblob & Hdb).
      eexists (_ :: bs), st'. rewrite <- app_assoc. split; [done|].
      split; [cbn; by rewrite Hnames|].
      split; [apply Forall_cons; split; [done | exact Hshape]|].
      split.
      { rewrite Hstored. cbn. apply set_eq. intros x.
        rewrite !elem_of_union, elem_of_singleton. split; [tauto|].
        intros [?|[->|?]]; tauto. }
      split; [|done].
      intros [|i] n b Hn Hb; cbn in Hn, Hb.
      * injection Hn as <-. injection Hb as <-. right. cbn.
        rewrite (right_id_L ∅ (∪)). done.
      * cbn. destruct (Hflags i n b Hn Hb) as [(? & ? & Hfree)|(? & ? & Htaken)].
        -- left. split; [done|]. split; [done|]. revert Hfree.
           rewrite !elem_of_union, elem_of_singleton.
           intros Hfree [?|[->|?]]; tauto.
        -- right. split; [done|]. split; [done|]. revert Htaken.
           rewrite !elem_of_union, elem_of_singleton. tauto.
    + rewrite store_data_fresh by done. cbv zeta.
      destruct (store_data_fresh_state sha1_hexdigest st name
                  (BundleData.payload bundle) Hout) as (Hdb1 & Hblob1 & Hnames1).
      unfold Storage.state_of in Hdb1, Hblob1, Hnames1.
      rewrite store_data_fresh in Hdb1, Hblob1, Hnames1 by done.
      cbv zeta in Hdb1, Hblob1, Hnames1. cbn [snd fst] in Hdb1, Hblob1, Hnames1.
      set (st1 := Storage.replay _ st) in *.
      destruct (IH (bundles ++
                  [Datastore.response BundleType.NDATA_PUT self bundle [] name]) st1)
        as (bs & st' & -> & Hnames & Hshape & Hstored & Hflags & Hblob & Hdb).
      eexists (_ :: bs), st'. rewrite <- app_assoc. split; [done|].
      split; [cbn; by rewrite Hnames|].
      split; [apply Forall_cons; split; [done | exact Hshape]|].
      split.
      { rewrite Hstored, Hnames1. cbn. apply set_eq. intros x.
        rewrite !elem_of_union, elem_of_singleton. tauto. }
      split; [|split].
      * intros [|i] n b Hn Hb; cbn in Hn, Hb.
        -- injection Hn as <-. injection Hb as <-. left. cbn.
           rewrite (right_id_L ∅ (∪)). done.
        -- cbn. destruct (Hflags i n b Hn Hb) as [(? & ? & Hfree)|(? & ? & Htaken)].
           ++ left. split; [done|]. split; [done|]. revert Hfree. rewrite Hnames1.
              rewrite !elem_of_union, elem_of_singleton. tauto.
           ++ right. split; [done|]. split; [done|]. revert Htaken. rewrite Hnames1.
              rewrite !elem_of_union, elem_of_singleton. tauto.
      * intros f c Hf. apply Hblob. rewrite Hblob1.
        destruct (Storage.blob_directory st !! sha1_hexdigest (BundleData.payload bundle))
          as [c'|] eqn:E; [done|].
        rewrite lookup_insert_ne; [done|]. intros <-. congruence.
      * intros r Hr. apply Hdb. rewrite Hdb1. apply elem_of_app. by left.
Qed.

(** X15. A [NDATA_PUT] never raises at the datastore.  It answers with
    exactly one response per listed name, in order, addressed to the sender
    and with an empty payload.  The response of a name that was free when its
    turn came reports success; the response of a name already stored, or
    listed earlier in the same bundle, has [success = False] and the error
    text [name .. already taken].  Afterwards every listed name is stored,
    and no row or blob file that was there is lost. *)
Theorem datastore_put_answers_every_name bundle (names : list string) self :
  BundleData.type bundle = BundleType.NDATA_PUT ->
  listed_names (BundleData.named_data bundle) = Some names ->
  let out := Datastore.handle_data sha1_hexdigest bundle self in
  let st := Datastore.storage self in
  let st' := Datastore.storage (snd out) in
  exists bs,
    fst out = Return bs
    /\ map BundleData.named_data bs = map NdStr names
    /\ Forall (fun b => BundleData.type b = BundleType.NDATA_PUT
                        /\ BundleData.source b = Node.node_id (Datastore.node self)
                        /\ BundleData.destination b = BundleData.source bundle
                        /\ BundleData.payload b = []) bs
    /\ (forall i n b, names !! i = Some n -> bs !! i = Some b ->
          let taken := Storage.stored_names st ∪ list_to_set (take i names) in
          (BundleData.success b = true /\ BundleData.error b = "" /\ n ∉ taken)
          \/ (BundleData.success b = false
              /\ BundleData.error b = Datastore.name_taken_text n /\ n ∈ taken))
    /\ Storage.stored_names st' = Storage.stored_names st ∪ list_to_set names
    /\ (forall f c, Storage.blob_directory st !! f = Some c ->
                    Storage.blob_directory st' !! f = Some c)
    /\ (forall r, r ∈ Storage.db st -> r ∈ Storage.db st')
    /\ Datastore.node (snd out) = Datastore.node self.
Proof.
  intros Hty Hnames out st st'. subst out st st'.
  unfold Datastore.handle_data. rewrite Hty, Hnames. cbn [Z.eqb BundleType.NDATA_PUT].
  rewrite Pos.eqb_refl.
  destruct (put_loop_spec self bundle names [] (Datastore.storage self))
    as (bs & s' & -> & H1 & H2 & H3 & H4 & H5 & H6).
  exists bs. cbn. repeat split; done.
Qed.




Lemma get_loop_healthy self bundle (names : list string) :
  forall (bundles : list BundleData.t) st,
  Storage.no_dangling st ->
  Datastore.get_loop self bundle names bundles st =
  (Return (bundles ++
     flat_map (fun name =>
       map (fun l => Datastore.response BundleType.NDATA_GET self bundle (snd l) (fst l))
         (filter (fun e => String.prefix name (fst e) = true)
            (Storage.stored_entries st))) names), st).
Proof.
  induction names as [|name rest IH]; intros bundles st Hnd.
  - cbn. by rewrite app_nil_r.
  - cbn [Datastore.get_loop flat_map]. rewrite no_dangling_load by done.
    rewrite IH by done. by rewrite <- app_assoc.
Qed.


(** X17. Round trip through the datastore: on a store without dangling
    rows and without a digest collision for the payload, after a
    [NDATA_PUT] of a fresh name [n] with payload [B], which is answered by
    one successful response, a [NDATA_GET] of [n] is answered with a
    response that carries [n] and [B], and changes nothing. *)
Theorem datastore_put_then_get n B (put get : BundleData.t) self :
  BundleData.type put = BundleType.NDATA_PUT ->
  BundleData.named_data put = NdStr n ->
  BundleData.payload put = B ->
  BundleData.type get = BundleType.NDATA_GET ->
  BundleData.named_data get = NdStr n ->
  Storage.no_dangling (Datastore.storage self) ->
  (forall B', Storage.blob_directory (Datastore.storage self) !! sha1_hexdigest B
              = Some B' -> B' = B) ->
  n ∉ Storage.stored_names (Datastore.storage self) ->
  let stored := Datastore.handle_data sha1_hexdigest put self in
  let self' := snd stored in
  fst stored = Return [Datastore.response BundleType.NDATA_PUT self put [] n]
  /\ exists bs,
       Datastore.handle_data sha1_hexdigest get self' = (Return bs, self')
       /\ Datastore.response BundleType.NDATA_GET self get B n ∈ bs.
Proof.
  intros Hput Hnp HB Hget Hng Hnd Hcol Hfresh stored self'. subst stored self'.
  destruct (store_data_fresh_state sha1_hexdigest (Datastore.storage self) n
              (BundleData.payload put) Hfresh) as (Hdb1 & Hblob1 & _).
  pose proof (store_data_no_dangling sha1_hexdigest n (BundleData.payload put)
                (Datastore.storage self) Hnd) as Hnd1.
  unfold Storage.state_of in Hdb1, Hblob1, Hnd1.
  rewrite store_data_fresh in Hdb1, Hblob1, Hnd1 by done.
  cbv zeta in Hdb1, Hblob1, Hnd1. cbn [fst snd] in Hdb1, Hblob1, Hnd1.
  set (st1 := Storage.replay _ (Datastore.storage self)) in *.
  assert (Datastore.handle_data sha1_hexdigest put self
          = (Return [Datastore.response BundleType.NDATA_PUT self put [] n],
             Datastore.Make (Datastore.node self) st1)) as ->.
  { unfold Datastore.handle_data. rewrite Hput, Hnp.
    cbn [Z.eqb BundleType.NDATA_PUT Pos.eqb listed_names Datastore.put_loop].
    rewrite store_data_fresh by done. done. }
  cbn [fst snd]. split; [done|].
  unfold Datastore.handle_data. rewrite Hget, Hng.
  cbn [Z.eqb BundleType.NDATA_PUT BundleType.NDATA_GET Pos.eqb listed_names
       Datastore.storage Datastore.node].
  rewrite get_loop_healthy by done. cbn [flat_map app]. rewrite app_nil_r.
  eexists. split; [done|].
  apply list_elem_of_fmap. exists (n, B). split; [done|].
  apply list_elem_of_filter. split.
  { cbn. clear. induction n as [|a n IH]; [done|]. cbn.
    destruct (Ascii.ascii_dec a a); [done | congruence]. }
  apply list_elem_of_omap. exists (Storage.Row n (sha1_hexdigest B)). split.
  - rewrite Hdb1, HB. apply elem_of_app. right. by left.
  - unfold Storage.entry_of. cbn. rewrite Hblob1, HB.
    destruct (Storage.blob_directory (Datastore.storage self) !! sha1_hexdigest B)
      as [c|] eqn:E.
    + rewrite E. by rewrite (Hcol c).
    + by rewrite lookup_insert_eq.
Qed.


End DatastoreProperties.

(** ** The broker *)

Section BrokerProperties.

Implicit Types (self br : Broker.t) (bundle : BundleData.t) (nd : Node.t).

Lemma broker_keys self :
  Broker.reachable self -> dom (Broker.discovered_nodes self) = Broker.node_types.
Proof.
  induction 1 as [node_id|bundle self Hreach IH].
  - unfold Broker.init, Broker.node_types. cbn. rewrite !dom_insert_L, dom_empty_L.
    apply set_eq. intros x. rewrite !elem_of_union, !elem_of_singleton.
    rewrite elem_of_empty. tauto.
  - unfold Broker.handle_discovery.
    destruct (BundleData.type bundle =? BundleType.BROKER_ANNOUNCE)%Z; [done|].
    destruct (BundleData.type bundle =? BundleType.BROKER_REQUEST)%Z; [|done].
    destruct (Broker.discovered_nodes self !! BundleData.node_type bundle)
      as [peers|] eqn:E; [|done].
    cbn. rewrite dom_insert_L, IH.
    assert (BundleData.node_type bundle ∈ Broker.node_types) as Hin.
    { rewrite <- IH. apply elem_of_dom. eauto. }
    apply set_eq. intros x. rewrite elem_of_union, elem_of_singleton.
    split; [intros [->|?]; done | tauto].
Qed.

Lemma broker_node_types_range (z : Z) : z ∈ Broker.node_types <-> (1 <= z <= 4)%Z.
Proof.
  unfold Broker.node_types, NodeType.BROKER, NodeType.EXECUTOR, NodeType.DATASTORE,
    NodeType.CLIENT.
  rewrite !elem_of_union, !elem_of_singleton. lia.
Qed.

(** X19. The broker's registry, in every state it can reach: its keys are
    the four node types and never change.  A [BROKER_REQUEST] of one of the
    four node types is acknowledged to the requester, who is then registered
    under that type; one of any other node type, such as the default [0] of
    a bundle that sets none, raises [KeyError] and registers nothing.  Every
    other bundle is ignored.  Nobody registered is ever forgotten. *)
Theorem broker_registers_known_node_types bundle self :
  Broker.reachable self ->
  let out := Broker.handle_discovery bundle self in
  let nt := BundleData.node_type bundle in
  dom (Broker.discovered_nodes self) = Broker.node_types
  /\ dom (Broker.discovered_nodes (snd out)) = Broker.node_types
  /\ Broker.node_id (snd out) = Broker.node_id self
  /\ (BundleData.type bundle = BundleType.BROKER_REQUEST -> (1 <= nt <= 4)%Z ->
        fst out = Return (Some (BundleData.default BundleType.BROKER_ACK
                                  (Broker.node_id self) (BundleData.source bundle)))
        /\ exists peers, Broker.discovered_nodes (snd out) !! nt = Some peers
                         /\ BundleData.source bundle ∈ peers)
  /\ (BundleData.type bundle = BundleType.BROKER_REQUEST -> ~ (1 <= nt <= 4)%Z ->
        out = (Raise (KeyError (pretty nt)), self))
  /\ (BundleData.type bundle <> BundleType.BROKER_REQUEST -> out = (Return None, self))
  /\ (forall ty peers e,
        Broker.discovered_nodes self !! ty = Some peers -> e ∈ peers ->
        exists peers', Broker.discovered_nodes (snd out) !! ty = Some peers'
                       /\ e ∈ peers').
Proof.
  intros Hreach out nt.
  pose proof (broker_keys self Hreach) as Hkeys.
  pose proof (broker_keys _ (Broker.reachable_step bundle self Hreach)) as Hkeys'.
  subst out nt. split; [done|]. split; [done|].
  unfold Broker.handle_discovery.
  destruct (BundleData.type bundle =? BundleType.BROKER_ANNOUNCE)%Z eqn:Hann.
  { apply Z.eqb_eq in Hann. rewrite Hann. cbn.
    split; [done|]. split; [done|]. split; [done|]. split; [done|]. eauto. }
  destruct (BundleData.type bundle =? BundleType.BROKER_REQUEST)%Z eqn:Hreq.
  2:{ apply Z.eqb_neq in Hreq. cbn.
      split; [done|]. split; [done|]. split; [done|]. split; [done|]. eauto. }
  destruct (Broker.discovered_nodes self !! BundleData.node_type bundle)
    as [peers|] eqn:E.
  - assert (1 <= BundleData.node_type bundle <= 4)%Z as Hrange.
    { apply broker_node_types_range. rewrite <- Hkeys. apply elem_of_dom. eauto. }
    cbn. split; [done|]. split.
    { intros _ _. split; [done|]. eexists. rewrite lookup_insert_eq. split; [done|].
      apply elem_of_union. left. by apply elem_of_singleton. }
    split; [done|]. split.
    { apply Z.eqb_eq in Hreq. done. }
    intros ty peers0 e Hty He.
    destruct (decide (ty = BundleData.node_type bundle)) as [->|Hne].
    + eexists. rewrite lookup_insert_eq. split; [done|].
      apply elem_of_union. right. congruence.
    + eexists. rewrite lookup_insert_ne by done. done.
  - assert (~ (1 <= BundleData.node_type bundle <= 4)%Z) as Hrange.
    { intros Hr. apply broker_node_types_range in Hr. rewrite <- Hkeys in Hr.
      apply elem_of_dom in Hr as [? Hr]. congruence. }
    cbn. split; [done|]. split; [done|]. split; [done|].
    split; [apply Z.eqb_eq in Hreq; done|]. eauto.
Qed.

(** X20. The handshake end to end.  A node of one of the four node types
    that has no broker and awaits none handles the announcement of a
    reachable broker by sending exactly one request; the broker answers
    that request with an acknowledgement and registers the node under its
    node type; and on that acknowledgement the node is associated with the
    broker, answers nothing and awaits no one. *)
Theorem handshake_with_broker nd br :
  Broker.reachable br ->
  Node.broker_pending nd = None ->
  Node.broker nd = None ->
  (1 <= Node.node_type nd <= 4)%Z ->
  exists request ack,
    let announced := Node.handle_discovery (Broker.announcement br) nd in
    let answered := Broker.handle_discovery request br in
    let associated := Node.handle_discovery ack (snd announced) in
    fst announced = [request]
    /\ fst answered = Return (Some ack)
    /\ BundleData.destination request = Broker.node_id br
    /\ BundleData.destination ack = Node.node_id nd
    /\ (exists peers,
          Broker.discovered_nodes (snd answered) !! Node.node_type nd = Some peers
          /\ Node.node_id nd ∈ peers)
    /\ fst associated = []
    /\ Node.broker (snd associated) = Some (Broker.node_id br)
    /\ Node.broker_pending (snd associated) = None.
Proof.
  intros Hreach Hpending Hbroker Hrange.
  pose proof (broker_keys br Hreach) as Hkeys.
  assert (is_Some (Broker.discovered_nodes br !! Node.node_type nd)) as [peers Hpeers].
  { apply elem_of_dom. rewrite Hkeys. by apply broker_node_types_range. }
  exists (BundleData.with_node_type
            (BundleData.default BundleType.BROKER_REQUEST (Node.node_id nd)
               (Broker.node_id br)) (Node.node_type nd)).
  exists (BundleData.default BundleType.BROKER_ACK (Broker.node_id br) (Node.node_id nd)).
  cbv zeta.
  assert (Node.handle_discovery (Broker.announcement br) nd
          = ([BundleData.with_node_type
                (BundleData.default BundleType.BROKER_REQUEST (Node.node_id nd)
                   (Broker.node_id br)) (Node.node_type nd)],
             Node.Make (Node.node_id nd) (Node.node_type nd)
               (Some (Broker.node_id br)) (Node.broker nd))) as ->.
  { unfold Node.handle_discovery. cbn. by rewrite Hpending, Hbroker. }
  unfold Broker.handle_discovery. cbn. rewrite Hpeers. cbn.
  split; [done|]. split; [done|]. split; [done|]. split; [done|]. split.
  - eexists. rewrite lookup_insert_eq. split; [done|].
    apply elem_of_union. left. by apply elem_of_singleton.
  - unfold Node.handle_discovery. cbn.
    rewrite bool_decide_eq_true_2 by done. done.
Qed.

End BrokerProperties.

Lemma broker_registers_known_node_types_witness :
  let request :=
    BundleData.with_node_type
      (BundleData.default BundleType.BROKER_REQUEST "dtn://executor/" "dtn://broker1/")
      NodeType.EXECUTOR in
  let out := Broker.handle_discovery request (Broker.init "dtn://broker1/") in
  fst out = Return (Some (BundleData.default BundleType.BROKER_ACK
                            "dtn://broker1/" "dtn://executor/"))
  /\ exists peers, Broker.discovered_nodes (snd out) !! NodeType.EXECUTOR = Some peers
                   /\ "dtn://executor/" ∈ peers.
Proof.
  pose proof (broker_registers_known_node_types
                (BundleData.with_node_type
                   (BundleData.default BundleType.BROKER_REQUEST
                      "dtn://executor/" "dtn://broker1/") NodeType.EXECUTOR)
                (Broker.init "dtn://broker1/")
                (Broker.reachable_init "dtn://broker1/"))
    as (_ & _ & _ & H & _).
  apply H; [reflexivity | cbn; unfold NodeType.EXECUTOR; lia].
Defined.

Lemma handshake_with_broker_witness :
  exists request ack,
    let announced :=
      Node.handle_discovery (Broker.announcement (Broker.init "dtn://broker1/"))
        executor_node in
    let answered := Broker.handle_discovery request (Broker.init "dtn://broker1/") in
    let associated := Node.handle_discovery ack (snd announced) in
    fst announced = [request]
    /\ fst answered = Return (Some ack)
    /\ BundleData.destination request = "dtn://broker1/"
    /\ BundleData.destination ack = "dtn://executor/"
    /\ (exists peers,
          Broker.discovered_nodes (snd answered) !! NodeType.EXECUTOR = Some peers
          /\ "dtn://executor/" ∈ peers)
    /\ fst associated = []
    /\ Node.broker (snd associated) = Some "dtn://broker1/"
    /\ Node.broker_pending (snd associated) = None.
Proof.
  apply (handshake_with_broker executor_node (Broker.init "dtn://broker1/")).
  - apply Broker.reachable_init.
  - reflexivity.
  - reflexivity.
  - cbn. unfold NodeType.EXECUTOR. lia.
Defined.

(** ** Serializing a bundle a second time *)

Section DictifyAgain.

Implicit Types (d : Messages.pydict) (h : Messages.heap) (k : string).

Lemma del_if_kept (cond : Messages.pyval -> bool) (self : nat) k h d v :
  h !! self = Some d -> d !! k = Some v -> cond v = false ->
  Messages.del_if cond self self k h = (Return tt, h).
Proof.
  intros Hself Hk Hcond. unfold Messages.del_if, Messages.getattr.
  by rewrite Hself, Hk, Hcond.
Qed.

Lemma del_if_gone (cond : Messages.pyval -> bool) (self : nat) k h d v :
  h !! self = Some d -> d !! k = None ->
  Messages.BundleData_class_attr k = Some v -> cond v = true ->
  Messages.del_if cond self self k h = (Raise (KeyError k), h).
Proof.
  intros Hself Hk Hclass Hcond.
  unfold Messages.del_if, Messages.getattr, Messages.delitem.
  by rewrite Hself, Hk, Hclass, Hcond.
Qed.

Lemma stripped_payload (b : BundleData.t) :
  without_defaults (Messages.to_dict b) !! "payload" =
  match BundleData.payload b with
  | [] => None
  | _ :: _ => Some (Messages.PyBytes (BundleData.payload b))
  end.
Proof.
  rewrite without_defaults_lookup. unfold Messages.to_dict.
  destruct (BundleData.payload b); by simplify_map_eq.
Qed.

Lemma stripped_node_type (b : BundleData.t) :
  without_defaults (Messages.to_dict b) !! "node_type" =
  if bool_decide (BundleData.node_type b = 0%Z) then None
  else Some (Messages.PyInt (BundleData.node_type b)).
Proof.
  rewrite without_defaults_lookup. unfold Messages.to_dict.
  case_bool_decide as Hz.
  - rewrite Hz. by simplify_map_eq.
  - simplify_map_eq. unfold Messages.is_default.
    destruct (decide ("node_type" = "payload")) as [?|_]; [done|].
    destruct (decide ("node_type" = "node_type")) as [_|?]; [|done].
    cbn. rewrite bool_decide_eq_false_2; [done | congruence].
Qed.

Lemma stripped_submitter (b : BundleData.t) :
  without_defaults (Messages.to_dict b) !! "submitter" =
  match BundleData.submitter b with
  | None => None
  | Some e => Some (Messages.PyStr e)
  end.
Proof.
  rewrite without_defaults_lookup. unfold Messages.to_dict.
  destruct (BundleData.submitter b); by simplify_map_eq.
Qed.

Lemma stripped_named_data (b : BundleData.t) :
  without_defaults (Messages.to_dict b) !! "named_data" =
  match BundleData.named_data b with
  | NdNone => None
  | NdStr s => Some (Messages.PyStr s)
  | NdList l => Some (Messages.PyList l)
  end.
Proof.
  rewrite without_defaults_lookup. unfold Messages.to_dict.
  destruct (BundleData.named_data b); by simplify_map_eq.
Qed.

(** [dictify] on a bundle that has been through it once. *)
Lemma dictify_again (b : BundleData.t) (self : nat) h :
  h !! self = Some (without_defaults (Messages.to_dict b)) ->
  Messages.dictify self h =
  match first_default b with
  | Some k => (Raise (KeyError k), h)
  | None => (Return self, h)
  end.
Proof.
  intros Hself. unfold Messages.dictify, first_default.
  pose proof (stripped_payload b) as Hp.
  destruct (BundleData.payload b) as [|x l] eqn:Epay.
  { by rewrite (del_if_gone _ self "payload" h _ _ Hself Hp eq_refl). }
  rewrite (del_if_kept _ self "payload" h _ _ Hself Hp) by done.
  pose proof (stripped_node_type b) as Hn.
  case_bool_decide as Hz.
  { by rewrite (del_if_gone _ self "node_type" h _ _ Hself Hn eq_refl). }
  rewrite (del_if_kept _ self "node_type" h _ _ Hself Hn).
  2:{ cbn. rewrite bool_decide_eq_false_2; [done | congruence]. }
  pose proof (stripped_submitter b) as Hs.
  destruct (BundleData.submitter b) as [e|].
  2:{ by rewrite (del_if_gone _ self "submitter" h _ _ Hself Hs eq_refl). }
  rewrite (del_if_kept _ self "submitter" h _ _ Hself Hs) by done.
  pose proof (stripped_named_data b) as Hd.
  destruct (BundleData.named_data b) as [|s|names].
  - by rewrite (del_if_gone _ self "named_data" h _ _ Hself Hd eq_refl).
  - by rewrite (del_if_kept _ self "named_data" h _ _ Hself Hd).
  - by rewrite (del_if_kept _ self "named_data" h _ _ Hself Hd).
Qed.

(** X21. A bundle can be serialized once.  After [dictify], a second
    [dictify] of the same bundle raises [KeyError] for the first optional
    field that held its default, because the attribute deleted from the
    instance is read from the class, found default again and deleted again;
    only a bundle all four of whose optional fields are set can be
    serialized twice.  The same holds when the bundle is wrapped in a
    [BundleCreate] message that is serialized twice.  The failing call
    leaves the heap as it found it. *)
Theorem second_dictify_raises (b : BundleData.t) (self : nat) h :
  h !! self = Some (Messages.to_dict b) ->
  let h1 := snd (Messages.dictify self h) in
  Messages.dictify self h1 =
    match first_default b with
    | Some k => (Raise (KeyError k), h1)
    | None => (Return self, h1)
    end
  /\ (first_default b = None -> h1 = h)
  /\ (forall message, h !! message = Some (Messages.BundleCreate_dict self) ->
        let h2 := snd (Messages.BundleCreate_dictify message h) in
        returned (fst (Messages.BundleCreate_dictify message h)) = true
        /\ forall k, first_default b = Some k ->
             Messages.BundleCreate_dictify message h2 = (Raise (KeyError k), h2)).
Proof.
  intros Hself h1. subst h1.
  rewrite (dictify_spec self h _ Hself (to_dict_optional b)). cbn [snd].
  split; [|split].
  - apply dictify_again. by rewrite lookup_insert_eq.
  - intros Hnone. rewrite insert_id; [done|]. rewrite Hself. f_equal.
    apply map_eq. intros k. unfold first_default in Hnone.
    destruct (decide (k = "payload")) as [->|H1].
    { rewrite stripped_payload. destruct (BundleData.payload b) eqn:E; [done|].
      unfold Messages.to_dict. rewrite E. by simplify_map_eq. }
    destruct (BundleData.payload b); [done|].
    destruct (decide (k = "node_type")) as [->|H2].
    { rewrite stripped_node_type. case_bool_decide; [done|].
      unfold Messages.to_dict. by simplify_map_eq. }
    case_bool_decide; [done|].
    destruct (decide (k = "submitter")) as [->|H3].
    { rewrite stripped_submitter. destruct (BundleData.submitter b) eqn:E; [|done].
      unfold Messages.to_dict. rewrite E. by simplify_map_eq. }
    destruct (BundleData.submitter b); [|done].
    destruct (decide (k = "named_data")) as [->|H4].
    { rewrite stripped_named_data.
      destruct (BundleData.named_data b) eqn:E; [done| |];
        unfold Messages.to_dict; rewrite E; by simplify_map_eq. }
    rewrite without_defaults_lookup.
    destruct (Messages.to_dict b !! k) as [v|]; [|done].
    unfold Messages.is_default. by rewrite !decide_False by done.
  - intros message Hmsg.
    assert (message <> self) as Hne.
    { intros ->. rewrite Hself in Hmsg.
      assert (Messages.to_dict b !! "bundle"
              = Messages.BundleCreate_dict self !! "bundle") as Hb by congruence.
      revert Hb. unfold Messages.to_dict, Messages.BundleCreate_dict.
      by simplify_map_eq. }
    assert (Messages.BundleCreate_dict self !! "bundle" = Some (Messages.PyRef self))
      as Hbundle by (unfold Messages.BundleCreate_dict; by simplify_map_eq).
    set (h1 := <[self := without_defaults (Messages.to_dict b)]> h).
    set (merged := fresh (dom h1)).
    assert (Messages.BundleCreate_dictify message h
            = (Return merged,
               <[merged := <["bundle" := Messages.PyRef self]> ∅
                           ∪ Messages.BundleCreate_dict self]> h1)) as Hfirst.
    { unfold Messages.BundleCreate_dictify, Messages.Message_dictify.
      rewrite Hmsg. cbn [mbind option_bind]. rewrite Hbundle.
      rewrite (dictify_spec self h _ Hself (to_dict_optional b)). fold h1.
      subst h1. rewrite lookup_insert_ne by done. by rewrite Hmsg. }
    cbv zeta. rewrite Hfirst. cbn [fst snd returned].
    split; [done|]. intros k Hk.
    assert (merged ∉ dom h1) as Hfresh by apply is_fresh.
    assert (merged <> self) as Hms.
    { intros Heq. apply Hfresh. rewrite Heq. apply elem_of_dom.
      subst h1. rewrite lookup_insert_eq. eauto. }
    assert (merged <> message) as Hmm.
    { intros Heq. apply Hfresh. rewrite Heq. apply elem_of_dom.
      subst h1. rewrite lookup_insert_ne by done. eauto. }
    unfold Messages.BundleCreate_dictify, Messages.Message_dictify.
    rewrite lookup_insert_ne by done. subst h1.
    rewrite lookup_insert_ne by done. rewrite Hmsg. cbn [mbind option_bind].
    rewrite Hbundle.
    rewrite (dictify_again b self).
    + by rewrite Hk.
    + rewrite lookup_insert_ne by done. by rewrite lookup_insert_eq.
Qed.

End DictifyAgain.

Lemma second_dictify_raises_witness :
  let b := announce_from "dtn://broker1/" in
  let h : Messages.heap := {[ 0 := Messages.to_dict b ]} in
  let h1 := snd (Messages.dictify 0 h) in
  Messages.dictify 0 h1 = (Raise (KeyError "payload"), h1).
Proof.
  pose proof (second_dictify_raises (announce_from "dtn://broker1/") 0
                {[ 0 := Messages.to_dict (announce_from "dtn://broker1/") ]}
                (lookup_singleton_eq _ _)) as (H & _).
  exact H.
Defined.

(** ** Running a job and collecting its results *)

Section Provenance.

Variable resolve : path -> path.
Variable resolve_error : path -> option exn.
Variable fs : gmap path Executor.fnode.
Variable io_error : path -> option exn.
Variable zip_bytes : list (path * bytes) -> bytes.
Variable base_dir : path.

Local Abbreviation data_dir := (resolve (base_dir ++ ["data"])).
Local Abbreviation absolute := (sandbox_path resolve data_dir).
Local Abbreviation within := (inside resolve resolve_error data_dir).
Local Abbreviation results_loop :=
  (Executor.collect_results_loop resolve resolve_error fs io_error).
Local Abbreviation named_loop :=
  (Executor.collect_named_loop resolve resolve_error fs io_error zip_bytes).
Local Abbreviation named :=
  (named_from resolve resolve_error fs zip_bytes base_dir).

Lemma add_tree_provenance (base below : path) (ps : list path) :
  forall zf zf',
    Forall (fun q => below `prefix_of` q) ps ->
    Executor.add_tree fs io_error base ps zf = Return zf' ->
    Forall (archived_from fs base below) zf ->
    Forall (archived_from fs base below) zf'.
Proof.
  induction ps as [|q ps IH]; intros zf zf' Hps Hrun Hzf.
  - cbn in Hrun. by injection Hrun as <-.
  - apply Forall_cons in Hps as [Hq Hps]. cbn in Hrun.
    destruct (relative_to q base) as [arcname|] eqn:Hrel; [|done].
    destruct (Executor.stat fs q) as [[content| | |]|] eqn:Hfs;
      try (by apply (IH zf zf' Hps Hrun Hzf)).
    destruct (io_error q); [done|].
    apply (IH _ zf' Hps Hrun). apply Forall_app. split; [done|].
    apply Forall_singleton. exists q. done.
Qed.

Lemma rglob_all_below (p : path) :
  Forall (fun q => p `prefix_of` q) (Executor.rglob fs p).
Proof. apply Forall_forall. intros q Hq. by apply (rglob_below fs). Qed.

(** What the loops do with one listed path. *)
Lemma checked_path (p : string) (abs_path : path) :
  Executor.try_resolve resolve resolve_error (path_join data_dir (lstrip_slash p))
    = Return abs_path ->
  negb (is_relative_to abs_path data_dir) = false ->
  abs_path = absolute p /\ within p /\ data_dir `prefix_of` absolute p.
Proof.
  unfold Executor.try_resolve.
  destruct (resolve_error _) eqn:Hres; [done|]. intros [= <-] Hrel.
  apply negb_false_iff in Hrel. split; [done|]. split; [by split|].
  by apply (relative_true resolve base_dir).
Qed.

Lemma collect_results_loop_provenance (paths : list string) :
  forall zf zf',
    results_loop data_dir paths zf = Return zf' ->
    Forall (archived_from fs data_dir data_dir) zf ->
    Forall (archived_from fs data_dir data_dir) zf'.
Proof.
  induction paths as [|p paths IH]; intros zf zf' Hrun Hzf.
  - cbn in Hrun. by injection Hrun as <-.
  - cbn in Hrun.
    destruct (Executor.try_resolve resolve resolve_error _) as [abs_path|e] eqn:Hres;
      [|done].
    destruct (negb (is_relative_to abs_path data_dir)) eqn:Hrel;
      [by apply (IH zf zf')|].
    destruct (checked_path p abs_path Hres Hrel) as (-> & _ & Hpre).
    destruct (Executor.stat fs (absolute p)) as [[content| | |]|] eqn:Hfs;
      try (by apply (IH zf zf')).
    + destruct (relative_to (absolute p) data_dir) as [arcname|] eqn:Harc; [|done].
      destruct (io_error (absolute p)); [done|].
      apply (IH _ zf' Hrun). apply Forall_app. split; [done|].
      apply Forall_singleton. exists (absolute p). done.
    + destruct (Executor.add_tree fs io_error data_dir (Executor.rglob fs (absolute p)) zf)
        as [zf1|e] eqn:Htree; [|done].
      apply (IH zf1 zf' Hrun).
      apply (add_tree_provenance data_dir data_dir
               (Executor.rglob fs (absolute p)) zf zf1); [|done|done].
      eapply Forall_impl; [apply rglob_all_below|].
      intros q Hq. cbn in Hq. by etransitivity.
Qed.

Lemma collect_named_loop_provenance (items : list (string * string)) :
  forall (all : list (string * string)) acc res,
    (forall it, it ∈ items -> it ∈ all) ->
    named_loop data_dir items acc = Return res ->
    (forall name c, acc !! name = Some c -> named all name c) ->
    forall name c, res !! name = Some c -> named all name c.
Proof.
  induction items as [|[p name0] items IH]; intros all acc res Hsub Hrun Hacc.
  - cbn in Hrun. by injection Hrun as <-.
  - assert (forall it, it ∈ items -> it ∈ all) as Hsub'
      by (intros it Hit; apply Hsub; by right).
    cbn in Hrun.
    destruct (Executor.try_resolve resolve resolve_error _) as [abs_path|e] eqn:Hres;
      [|done].
    destruct (negb (is_relative_to abs_path data_dir)) eqn:Hrel;
      [by apply (IH all acc res)|].
    destruct (checked_path p abs_path Hres Hrel) as (-> & Hin & Hpre).
    destruct (Executor.stat fs (absolute p)) as [[content| | |]|] eqn:Hfs;
      try (by apply (IH all acc res)).
    + destruct (io_error (absolute p)); [done|].
      apply (IH all _ res Hsub' Hrun). intros name c.
      destruct (decide (name = name0)) as [->|Hne].
      * rewrite lookup_insert_eq. intros [= <-]. exists p.
        split; [apply Hsub; by left|]. split; [done|]. by left.
      * rewrite lookup_insert_ne by done. apply Hacc.
    + destruct (Executor.add_tree fs io_error (path_parent (absolute p))
                  (Executor.rglob fs (absolute p)) []) as [zf|e] eqn:Htree; [|done].
      apply (IH all _ res Hsub' Hrun). intros name c.
      destruct (decide (name = name0)) as [->|Hne].
      * rewrite lookup_insert_eq. intros [= <-]. exists p.
        split; [apply Hsub; by left|]. split; [done|]. right. split; [done|].
        exists zf. split; [done|].
        apply (add_tree_provenance _ _ _ [] zf (rglob_all_below _) Htree).
        apply Forall_nil_2.
      * rewrite lookup_insert_ne by done. apply Hacc.
Qed.

Lemma stat_no_link (q : path) :
  Executor.is_link (fs !! q) = false -> Executor.stat fs q = fs !! q.
Proof.
  unfold Executor.stat. intros Hq.
  destruct (size fs); cbn; by destruct (fs !! q) as [[]|].
Qed.

Lemma archived_from_link_free (base below : path) e :
  link_free fs below ->
  archived_from fs base below e -> archived_file fs base below e.
Proof.
  intros Hfree (q & Hq & Hbelow & Hrel). exists q.
  rewrite stat_no_link in Hq by by apply Hfree. done.
Qed.

Lemma link_free_below (below below' : path) :
  below `prefix_of` below' -> link_free fs below -> link_free fs below'.
Proof. intros Hpre Hfree q Hq. apply Hfree. by etransitivity. Qed.

(** X22. What the executor collects is what the paths of the sandbox name.
    Every entry of the results archive is the content of what a path at or
    below the data directory names once its symbolic links are followed,
    archived under that path relative to the data directory; every named
    result is the content of what a listed path inside the data directory
    names, or the archive of what the paths below a listed directory name.
    A link below a collected directory is followed, so the content can be
    that of a file outside the data directory; when no path at or below the
    data directory is a link, every entry is a regular file of the data
    directory.  The collection can raise; without a results receiver
    nothing is archived at all, and with one an archive that is returned
    is the encoding of such entries. *)
Theorem collected_results_come_from_data_dir (job : JobInfo) :
  let collect_results :=
    Executor.collect_results resolve resolve_error fs io_error zip_bytes job base_dir in
  let collect_named_results :=
    Executor.collect_named_results resolve resolve_error fs io_error zip_bytes
      job base_dir in
  (forall zf,
     results_loop data_dir (results job) [] = Return zf ->
     Forall (archived_from fs data_dir data_dir) zf
     /\ (link_free fs data_dir -> Forall (archived_file fs data_dir data_dir) zf))
  /\ (forall res name content,
        collect_named_results = Return res ->
        res !! name = Some content ->
        named (named_results job) name content
        /\ (link_free fs data_dir ->
            named_file resolve resolve_error fs zip_bytes base_dir
              (named_results job) name content))
  /\ (truthy (results_receiver job) = None -> collect_results = Return None)
  /\ (forall r, truthy (results_receiver job) = Some r ->
        forall out, collect_results = Return out ->
          exists zf,
            out = Some (zip_bytes zf)
            /\ results_loop data_dir (results job) [] = Return zf
            /\ Forall (archived_from fs data_dir data_dir) zf).
Proof.
  cbv zeta. split; [|split; [|split]].
  - intros zf Hrun.
    assert (Forall (archived_from fs data_dir data_dir) zf) as Hzf
      by apply (collect_results_loop_provenance (results job) [] zf Hrun), Forall_nil_2.
    split; [done|]. intros Hfree.
    eapply Forall_impl; [exact Hzf|]. intros e. by apply archived_from_link_free.
  - intros res name content Hrun Hname.
    unfold Executor.collect_named_results, Executor.try_resolve in Hrun.
    destruct (resolve_error (base_dir ++ ["data"])); [done|].
    assert (named (named_results job) name content) as Hfrom.
    { apply (collect_named_loop_provenance (named_results job) (named_results job) ∅ res);
        [done | exact Hrun | | done].
      intros n c Hn. by rewrite lookup_empty in Hn. }
    split; [done|]. intros Hfree.
    destruct Hfrom as (p & Hp & Hin & Hcase). exists p. cbv zeta.
    split; [done|]. split; [done|].
    assert (data_dir `prefix_of` absolute p) as Hpre
      by (destruct Hin as [_ Hrel]; by apply (relative_true resolve base_dir)).
    rewrite stat_no_link in Hcase by by apply Hfree.
    destruct Hcase as [Hfile|(Hdir & zf & -> & Hzf)]; [by left|].
    right. split; [done|]. exists zf. split; [done|].
    eapply Forall_impl; [exact Hzf|]. intros e.
    apply archived_from_link_free. by apply (link_free_below data_dir).
  - intros Hnone. unfold Executor.collect_results. by rewrite Hnone.
  - intros r Hr out. unfold Executor.collect_results, Executor.try_resolve. rewrite Hr.
    destruct (resolve_error (base_dir ++ ["data"])); [done|].
    destruct (resolve_error (base_dir ++ ["results.zip"])); [done|].
    destruct (io_error _); [done|].
    destruct (results_loop data_dir (results job) []) as [zf|e] eqn:Hrun; [|done].
    intros [= <-]. exists zf. split; [done|]. split; [done|].
    apply (collect_results_loop_provenance (results job) [] zf Hrun), Forall_nil_2.
Qed.

End Provenance.

(** A link below a collected directory: [collecting_job] lists the
    directory ["out"], the module left the link ["out/peek"] to a file of
    the job directory outside the sandbox root, and the archive holds the
    content of that file. *)
Example linked_file_is_archived :
  Executor.collect_results lexical_resolve no_error job_dir_with_link no_error
    toy_zip collecting_job job_dir
  = Return (Some (toy_zip [(["out"; "peek"], [x68; x69])]))
  /\ job_dir_with_link !! (job_dir ++ ["secret.txt"]) = Some (Executor.File [x68; x69])
  /\ is_relative_to (job_dir ++ ["secret.txt"]) (job_dir ++ ["data"]) = false.
Proof. repeat split; vm_compute; reflexivity. Qed.

Section RunJob.

Variable resolve : path -> path.
Variable resolve_error : path -> option exn.
Variable os_error : Storage.effect -> option exn.
Variable io_error : path -> option exn.
Variable zip_bytes : list (path * bytes) -> bytes.
Variable root_dir : path.
Variable job_id : JobInfo -> string.
Variable run_wasi_module :
  path -> list string -> list (string * string) -> option path -> path ->
  option path -> option path -> outcome Z * gmap path Executor.fnode.

Local Abbreviation run_job :=
  (Intake.run_job resolve resolve_error os_error io_error zip_bytes root_dir job_id
     run_wasi_module).
Local Abbreviation set_up :=
  (Intake.set_up resolve resolve_error os_error root_dir job_id).

Lemma copy_to_file_unknown n (dst : path) s :
  n ∉ Storage.stored_names s ->
  Storage.copy_to_file os_error n dst s = (Raise (NoSuchNameError n), s, []).
Proof.
  intros Hn. apply search_name_nil in Hn.
  unfold Storage.copy_to_file, Storage.bind, Storage.db_search_name.
  by rewrite Hn.
Qed.

(** [set_up] is the preparation, once the job directory is resolved and
    made. *)
Lemma set_up_spec (job : JobInfo) (st : Storage.t) :
  let job_path := root_dir ++ ["job-" +:+ job_id job] in
  let job_dir := resolve job_path in
  set_up job st =
    match resolve_error job_path with
    | Some e => (Raise e, st, [])
    | None =>
        match os_error (Storage.Mkdir job_dir) with
        | Some e => (Raise e, st, [Storage.Failed (Storage.Mkdir job_dir)])
        | None =>
            match Executor.prepare_wasi_environment resolve resolve_error os_error
                    job job_dir st with
            | (Return prepared, st1, log) =>
                (Return (job_dir, prepared), st1, Storage.Mkdir job_dir :: log)
            | (Raise e, st1, log) => (Raise e, st1, Storage.Mkdir job_dir :: log)
            end
        end
    end.
Proof.
  cbv zeta. unfold Intake.set_up, Executor.resolved, Executor.try_resolve.
  unfold Storage.bind at 1.
  destruct (resolve_error _); [done|].
  unfold Storage.bind at 1. unfold Storage.attempt at 1.
  destruct (os_error (Storage.Mkdir _)); [done|]. cbn [Storage.apply_effect].
  unfold Storage.bind at 1.
  destruct (Executor.prepare_wasi_environment _ _ _ _ _ st) as [[[x|e] st1] log];
    cbn; by rewrite ?app_nil_r.
Qed.

(** X23. [_run_job] removes the job directory only after a preparation
    that returned.  Before its [try] it resolves and makes the job
    directory and calls [_prepare_wasi_environment]; it raises exactly when
    one of these raises, with the same exception, and then what was made
    is left behind: no [rmtree] happens.  So, with an operating system that
    refuses nothing, a job whose module is not in the store raises
    [NoSuchNameError] and leaves its empty job directory.  When the
    preparation returns, [_run_job] returns too, with [(None, {})] if the
    module raised, and the removal of the job directory, if it still
    exists, is the last thing it does. *)
Theorem run_job_removes_dir_only_after_preparation (job : JobInfo) (st : Storage.t) :
  let job_path := root_dir ++ ["job-" +:+ job_id job] in
  let job_dir := resolve job_path in
  let prep := Executor.prepare_wasi_environment resolve resolve_error os_error
                job job_dir in
  let out := run_job job st in
  (forall e, fst (fst out) = Raise e <->
     resolve_error job_path = Some e
     \/ (resolve_error job_path = None /\ os_error (Storage.Mkdir job_dir) = Some e)
     \/ (resolve_error job_path = None /\ os_error (Storage.Mkdir job_dir) = None
         /\ Storage.result_of prep st = Raise e))
  /\ (resolve_error job_path = None -> os_error (Storage.Mkdir job_dir) = None ->
        (forall e, fst (fst out) = Raise e <-> Storage.result_of prep st = Raise e)
        /\ snd (fst out) = Storage.state_of prep st
        /\ (forall e, Storage.result_of prep st = Raise e ->
              Intake.Prepared (Storage.Mkdir job_dir) ∈ snd out
              /\ forall p, Intake.Rmtree p ∉ snd out))
  /\ (forall e, fst (fst out) = Raise e -> forall p, Intake.Rmtree p ∉ snd out)
  /\ (wasm_module job ∉ Storage.stored_names st ->
      quiet resolve_error os_error ->
        out = (Raise (NoSuchNameError (wasm_module job)), st,
               [Intake.Prepared (Storage.Mkdir job_dir);
                Intake.Prepared (Storage.Mkdir job_dir)]))
  /\ (resolve_error job_path = None -> os_error (Storage.Mkdir job_dir) = None ->
      forall wasm_file stdin_path data_dir,
        Storage.result_of prep st = Return (wasm_file, stdin_path, data_dir) ->
        let ran := run_wasi_module wasm_file (argv job) (env job) stdin_path data_dir
                     (Intake.output_path data_dir (stdout_file job))
                     (Intake.output_path data_dir (stderr_file job)) in
        returned (fst (fst out)) = true
        /\ (forall e, fst ran = Raise e -> fst (fst out) = Return (None, ∅))
        /\ (is_Some (Executor.stat (snd ran) job_dir) ->
            last (snd out) = Some (Intake.Rmtree job_dir))
        /\ (Executor.stat (snd ran) job_dir = None ->
            forall p, Intake.Rmtree p ∉ snd out)).
Proof.
  cbv zeta. unfold Intake.run_job, Storage.result_of, Storage.state_of.
  rewrite set_up_spec. cbv zeta.
  set (job_path := root_dir ++ ["job-" +:+ job_id job]).
  set (job_dir := resolve job_path).
  assert (forall (l : list Storage.effect) p,
            Intake.Rmtree p ∉ map Intake.Prepared l) as Hno.
  { intros l p Hin. apply list_elem_of_fmap in Hin as (? & ? & _). done. }
  assert (forall (o : outcome (option bytes * gmap string bytes)),
            returned match o with Raise _ => Return (None, ∅) | Return r => Return r end
            = true) as Hcaught by (by intros [|]).
  destruct (resolve_error job_path) as [e0|] eqn:Hres.
  { cbn [fst snd map]. split; [|split; [done|]; split; [|split; [|done]]].
    - intros e. split; [intros [= ->]; by left|].
      intros [[= ->]|[[? _]|(? & _)]]; done.
    - intros e _ p Hp. by apply elem_of_nil in Hp.
    - intros _ [Hq _]. by rewrite Hq in Hres. }
  destruct (os_error (Storage.Mkdir job_dir)) as [e0|] eqn:Hos.
  { cbn [fst snd map]. split; [|split; [done|]; split; [|split; [|done]]].
    - intros e. split; [intros [= ->]; right; by left|].
      intros [?|[[_ [= ->]]|(_ & ? & _)]]; done.
    - intros e _ p. apply (Hno [Storage.Failed (Storage.Mkdir job_dir)]).
    - intros _ [_ Hq]. by rewrite Hq in Hos. }
  destruct (Executor.prepare_wasi_environment resolve resolve_error os_error
              job job_dir st) as [[[[[w i] d]|e'] st1] log] eqn:Hprep; cbn [fst snd].
  - destruct (run_wasi_module _ _ _ _ _ _ _) as [ran fs'] eqn:Hran. cbn [fst snd].
    set (body := match ran with Raise e => Raise e | Return _ => _ end).
    split; [|split; [|split; [|split]]].
    + intros e. split.
      * intros He. pose proof (Hcaught body) as Hc. rewrite He in Hc. done.
      * intros [?|[[_ ?]|(_ & _ & ?)]]; done.
    + intros _ _. split; [|split; [done|done]].
      intros e. split; [|done].
      intros He. pose proof (Hcaught body) as Hc. rewrite He in Hc. done.
    + intros e He. pose proof (Hcaught body) as Hc. rewrite He in Hc. done.
    + intros Hmissing [Hq1 Hq2]. exfalso.
      unfold Executor.prepare_wasi_environment, Storage.bind at 1 in Hprep.
      unfold Storage.attempt at 1 in Hprep. rewrite Hos in Hprep.
      unfold Storage.bind at 1, Executor.resolved, Executor.try_resolve in Hprep.
      rewrite Hq1 in Hprep. unfold Storage.bind at 1 in Hprep.
      cbn [Storage.apply_effect] in Hprep.
      rewrite copy_to_file_unknown in Hprep by done. done.
    + intros _ _ w' i' d' [= <- <- <-]. rewrite Hran. cbn [fst snd].
      split; [apply Hcaught|]. split; [|split].
      * intros e ->. done.
      * intros Hexists. rewrite bool_decide_eq_true_2 by done.
        change (map Intake.Prepared (Storage.Mkdir job_dir :: log) ++ [Intake.Rmtree job_dir])
          with ((Intake.Prepared (Storage.Mkdir job_dir) :: map Intake.Prepared log)
                  ++ [Intake.Rmtree job_dir]).
        apply last_snoc.
      * intros Hgone p. rewrite bool_decide_eq_false_2.
        -- rewrite app_nil_r. apply Hno.
        -- rewrite Hgone. by intros [? ?].
  - split; [|split; [|split; [|split]]].
    + intros e. split; [intros [= ->]; right; right; done|].
      intros [?|[[_ ?]|(_ & _ & [= ->])]]; done.
    + intros _ _. split; [intros e; split; intros [= ->]; done|]. split; [done|].
      intros e _. split; [apply list_elem_of_here | apply Hno].
    + intros e _. apply Hno.
    + intros Hmissing [Hq1 Hq2].
      unfold Executor.prepare_wasi_environment, Storage.bind at 1 in Hprep.
      unfold Storage.attempt at 1 in Hprep. rewrite Hos in Hprep.
      unfold Storage.bind at 1, Executor.resolved, Executor.try_resolve in Hprep.
      rewrite Hq1 in Hprep. unfold Storage.bind at 1 in Hprep.
      cbn [Storage.apply_effect] in Hprep.
      rewrite copy_to_file_unknown in Hprep by done.
      by injection Hprep as <- <- <-.
    + intros _ _ w' i' d' [=].
Qed.

End RunJob.

(** ** The properties above, run on concrete inputs *)

Lemma empty_store_holds_nothing (n : string) :
  n ∉ Storage.stored_names Storage.empty.
Proof. apply not_elem_of_empty. Qed.

Lemma databin_is_stored :
  "databin" ∈ Storage.stored_names (Executor.storage executor_with_databin)
  /\ forall m, m ∈ map fst [("lib", [x68])] ->
       m ∉ Storage.stored_names (Executor.storage executor_with_databin).
Proof.
  unfold executor_with_databin. cbn [Executor.storage].
  destruct (store_data_fresh_state toy_digest Storage.empty "databin" [x68; x69]
              (empty_store_holds_nothing _)) as (_ & _ & ->).
  split.
  - apply elem_of_union. left. by apply elem_of_singleton.
  - intros m Hm. apply list_elem_of_singleton in Hm as ->.
    intros [Hin|Hin]%elem_of_union.
    + apply elem_of_singleton in Hin. discriminate Hin.
    + by apply empty_store_holds_nothing in Hin.
Qed.

Lemma handle_data_returns_iff_names_fresh_witness :
  let out := Executor.handle_data toy_digest redelivered_bundle idle_executor in
  fst out = Return tt /\ Executor.notified (snd out) = 1.
Proof.
  pose proof (handle_data_returns_iff_names_fresh toy_digest redelivered_bundle
                ["databin"] idle_executor eq_refl) as (Hiff & Hok & _).
  assert (fst (Executor.handle_data toy_digest redelivered_bundle idle_executor)
          = Return tt) as Hret.
  { apply Hiff. split; [apply NoDup_singleton|].
    intros n _. apply empty_store_holds_nothing. }
  split; [exact Hret | apply (Hok Hret)].
Defined.

Lemma data_arrival_unblocks_head_witness :
  let out := Executor.handle_data toy_digest redelivered_bundle waiting_executor in
  fst out = Return tt
  /\ Executor.notified (snd out) = 1
  /\ Executor.pop_next_runnable_job one_core (snd out)
     = (Return (Some (job_for "databin")), Executor.with_pending (snd out) [],
        [job_for "databin"]).
Proof.
  apply (data_arrival_unblocks_head toy_digest one_core redelivered_bundle
           ["databin"] (job_for "databin") [] waiting_executor).
  - reflexivity.
  - apply NoDup_singleton.
  - intros n _. apply empty_store_holds_nothing.
  - reflexivity.
  - intros x Hx. apply elem_of_union. right. exact Hx.
  - reflexivity.
Defined.

Lemma datastore_put_answers_every_name_witness :
  exists bs,
    fst (Datastore.handle_data toy_digest put_bundle empty_datastore) = Return bs
    /\ map BundleData.named_data bs = [NdStr "a/b"]
    /\ Forall (fun b => BundleData.destination b = "dtn://client/") bs.
Proof.
  pose proof (datastore_put_answers_every_name toy_digest put_bundle ["a/b"]
                empty_datastore eq_refl eq_refl) as (bs & Hret & Hnames & Hshape & _).
  exists bs. split; [exact Hret|]. split; [exact Hnames|].
  eapply Forall_impl; [exact Hshape|]. intros b (_ & _ & Hdest & _). exact Hdest.
Defined.


Lemma datastore_put_then_get_witness :
  let stored := Datastore.handle_data toy_digest put_bundle empty_datastore in
  fst stored
  = Return [Datastore.response BundleType.NDATA_PUT empty_datastore put_bundle [] "a/b"]
  /\ exists bs,
       Datastore.handle_data toy_digest get_bundle (snd stored)
       = (Return bs, snd stored)
       /\ Datastore.response BundleType.NDATA_GET empty_datastore get_bundle
            [x68; x69] "a/b" ∈ bs.
Proof.
  apply (datastore_put_then_get toy_digest "a/b" [x68; x69] put_bundle get_bundle
           empty_datastore).
  - reflexivity.
  - reflexivity.
  - reflexivity.
  - reflexivity.
  - reflexivity.
  - intros r Hr. cbn in Hr. by apply elem_of_nil in Hr.
  - intros B' HB'. cbn in HB'. by rewrite lookup_empty in HB'.
  - apply empty_store_holds_nothing.
Defined.

(** ** Rebuilding a bundle from its serialized dictionary *)

Section RoundTrip.

Implicit Types (d kw : Messages.pydict) (k : string) (b : BundleData.t).

Lemma defaults_lookup k :
  BundleData_defaults !! k = Messages.BundleData_class_attr k.
Proof.
  unfold Messages.BundleData_class_attr, BundleData_defaults.
  repeat (case_decide; [subst; by simplify_map_eq|]).
  by simplify_map_eq.
Qed.

Lemma to_dict_dom b : dom (Messages.to_dict b) = BundleData_fields.
Proof.
  unfold Messages.to_dict, BundleData_fields.
  rewrite !dom_insert_L, dom_empty_L. apply set_eq. intros k.
  rewrite !elem_of_union, !elem_of_singleton, elem_of_empty. tauto.
Qed.

Lemma default_is_class_default k v :
  Messages.is_default k v = true ->
  (exists w, Messages.BundleData_class_attr k = Some w)
  /\ (forall b, Messages.to_dict b !! k = Some v ->
        Messages.BundleData_class_attr k = Some v).
Proof.
  unfold Messages.is_default, Messages.BundleData_class_attr.
  destruct (decide (k = "payload")) as [->|H1].
  { intros Hv. split; [eauto|]. intros b. unfold Messages.to_dict.
    simplify_map_eq. intros [= <-]. cbn in Hv.
    apply bool_decide_eq_true_1 in Hv. by rewrite Hv. }
  destruct (decide (k = "node_type")) as [->|H2].
  { intros Hv. split; [cbn; eauto|]. intros b. unfold Messages.to_dict.
    simplify_map_eq. intros [= <-]. cbn in Hv.
    apply bool_decide_eq_true_1 in Hv. by rewrite Hv. }
  destruct (decide (k = "submitter")) as [->|H3].
  { intros Hv. apply bool_decide_eq_true_1 in Hv. subst v. cbn. split; [eauto|done]. }
  destruct (decide (k = "named_data")) as [->|H4]; [|done].
  intros Hv. apply bool_decide_eq_true_1 in Hv. subst v. cbn. split; [eauto|done].
Qed.

(** X24. Default stripping loses nothing.  The dictionary [dictify] leaves
    of a bundle is accepted by the constructor, and the bundle built from
    it has the instance dictionary the original bundle had before
    [dictify]: every deleted field comes back as its default.  A dictionary
    with a key that is no field, or without [type], [source] or
    [destination], is refused with [TypeError]. *)
Theorem stripped_bundle_rebuilds b :
  BundleData_init (without_defaults (Messages.to_dict b)) = Return (Messages.to_dict b)
  /\ (forall (self : nat) (h : Messages.heap),
        h !! self = Some (Messages.to_dict b) ->
        exists d, snd (Messages.dictify self h) !! self = Some d
                  /\ BundleData_init d = Return (Messages.to_dict b))
  /\ (forall kw, ~ dom kw ⊆ BundleData_fields ->
        exists msg, BundleData_init kw = Raise (TypeError msg))
  /\ (forall kw,
        kw !! "type" = None \/ kw !! "source" = None \/ kw !! "destination" = None ->
        exists msg, BundleData_init kw = Raise (TypeError msg)).
Proof.
  assert (BundleData_init (without_defaults (Messages.to_dict b))
          = Return (Messages.to_dict b)) as Hround.
  { unfold BundleData_init.
    rewrite bool_decide_eq_true_2.
    2:{ rewrite <- (to_dict_dom b). unfold without_defaults. apply dom_filter_subseteq. }
    cbn [negb].
    rewrite !without_defaults_lookup.
    assert (Messages.to_dict b !! "type" = Some (Messages.PyInt (BundleData.type b)))
      as -> by (unfold Messages.to_dict; by simplify_map_eq).
    assert (Messages.to_dict b !! "source" = Some (Messages.PyStr (BundleData.source b)))
      as -> by (unfold Messages.to_dict; by simplify_map_eq).
    assert (Messages.to_dict b !! "destination"
            = Some (Messages.PyStr (BundleData.destination b)))
      as -> by (unfold Messages.to_dict; by simplify_map_eq).
    cbn. f_equal. apply map_eq. intros k.
    rewrite lookup_union, without_defaults_lookup, defaults_lookup.
    destruct (Messages.to_dict b !! k) as [v|] eqn:Ek.
    - destruct (Messages.is_default k v) eqn:Edef.
      + destruct (default_is_class_default k v Edef) as [_ Hclass].
        rewrite (Hclass b Ek). done.
      + by destruct (Messages.BundleData_class_attr k).
    - assert (k ∉ BundleData_fields) as Hk.
      { rewrite <- (to_dict_dom b). by apply not_elem_of_dom. }
      unfold Messages.BundleData_class_attr.
      repeat (case_decide;
              [exfalso; apply Hk; subst k; unfold BundleData_fields;
               rewrite !elem_of_union, !elem_of_singleton; intuition|]).
      done. }
  split; [exact Hround|]. split; [|split].
  - intros self h Hself.
    rewrite (dictify_spec self h _ Hself (to_dict_optional b)). cbn [snd].
    rewrite lookup_insert_eq. eauto.
  - intros kw Hbad. unfold BundleData_init.
    rewrite bool_decide_eq_false_2 by done. cbn. eauto.
  - intros kw Hmiss. unfold BundleData_init.
    destruct (negb _); [eauto|].
    destruct Hmiss as [->|[->| ->]]; [eauto| |].
    + destruct (kw !! "type"); eauto.
    + destruct (kw !! "type"); [|eauto]. destruct (kw !! "source"); eauto.
Qed.

End RoundTrip.
